(** * cosalib.cmdlib: a shallow embedding and its verified properties

    The Python module [src/cosalib/cmdlib.py] is a collection of helpers:
    a command runner, an atomic JSON store, a file hasher, a timestamp
    formatter, the OSTree commit importer, a memoised architecture lookup,
    the ignition-version table, the removal of a file and the
    informational messages.  Each helper is embedded below as a
    Rocq function over an explicit model of what it touches (file system,
    spawned processes, process-wide state); Python exceptions are values
    of [Py.pyexc] carried by [Py.result].

    The first part of the file holds the definitions, the second part the
    theorems. *)

From Stdlib Require Import ZArith List String Ascii Lia Bool.
From Stdlib Require Import DecimalString.
From Stdlib Require DecimalFacts DecimalPos DecimalZ.
From Stdlib Require Import ZifyNat.
From stdpp Require Import gmap strings.
Import ListNotations.
Local Open Scope string_scope.
Local Open Scope Z_scope.

(** stdpp freezes string concatenation under [simpl]; the proofs below
    compute with it. *)
#[local] Arguments String.append !s1 s2 : simpl nomatch.

(* ===================================================================== *)
(** * Part I: definitions                                                 *)
(* ===================================================================== *)

(** ** Python results and exceptions *)

Module Py.

(** The exceptions that the module raises or lets through. *)
Inductive pyexc : Type :=
| CalledProcessError (returncode : Z) (cmd : list string)
| SystemExit (msg : string)
| AssertionError (msg : string)
| TypeError (msg : string)
| JSONDecodeError
| FileNotFoundError (path : string)
| FileExistsError (path : string)
| IsADirectoryError (path : string)
| IndexError (msg : string)
| OSError (what : string).

(** Outcome of a Python call: a value, or a raised exception. *)
Inductive result (A : Type) : Type :=
| Ok (a : A)
| Raise (e : pyexc).
Arguments Ok {A} a.
Arguments Raise {A} e.

End Py.

(** ** String helpers: slices, [str.startswith], [str.rfind] *)

Module Str.

(** [s[n:]] *)
Fixpoint drop (n : nat) (s : string) : string :=
  match n, s with
  | O, _ => s
  | S n', String _ s' => drop n' s'
  | S _, EmptyString => EmptyString
  end.

(** [s[:n]] *)
Fixpoint take (n : nat) (s : string) : string :=
  match n, s with
  | O, _ => EmptyString
  | S n', String c s' => String c (take n' s')
  | S _, EmptyString => EmptyString
  end.

(** [s.rfind(c)], scanning left to right and remembering the last hit;
    [-1] when [c] does not occur. *)
Fixpoint rfind_from (c : ascii) (s : string) (i last : Z) : Z :=
  match s with
  | EmptyString => last
  | String a s' => rfind_from c s' (i + 1) (if Ascii.eqb a c then i else last)
  end.

Definition rfind (c : ascii) (s : string) : Z := rfind_from c s 0 (-1).

(** [s.startswith(p)] *)
Definition startswith (s p : string) : bool := String.prefix p s.

(** [s.startswith((p1, ..., pn))]: true when one of the prefixes fits. *)
Definition startswith_any (s : string) (ps : list string) : bool :=
  existsb (startswith s) ps.

(** [s.endswith(c)] for a one-character [c]. *)
Fixpoint endswith_char (s : string) (c : ascii) : bool :=
  match s with
  | EmptyString => false
  | String a EmptyString => Ascii.eqb a c
  | String _ s' => endswith_char s' c
  end.

(** [s.rstrip(c)] for a one-character [c]. *)
Fixpoint rstrip (c : ascii) (s : string) : string :=
  match s with
  | EmptyString => EmptyString
  | String a s' =>
      match rstrip c s' with
      | EmptyString => if Ascii.eqb a c then EmptyString else String a EmptyString
      | r => String a r
      end
  end.

(** [s == c * len(s)] *)
Fixpoint all_char (c : ascii) (s : string) : bool :=
  match s with
  | EmptyString => true
  | String a s' => Ascii.eqb a c && all_char c s'
  end.

(** [c in s] for a one-character [c]. *)
Fixpoint contains_char (c : ascii) (s : string) : bool :=
  match s with
  | EmptyString => false
  | String a s' => Ascii.eqb a c || contains_char c s'
  end.

(** For examples: the string with every apostrophe replaced by a double
    quote. *)
Fixpoint dq (s : string) : string :=
  match s with
  | EmptyString => EmptyString
  | String c s' => String (if Ascii.eqb c "'" then "034"%char else c) (dq s')
  end.

(** [c * n] *)
Fixpoint replicate (n : nat) (c : ascii) : string :=
  match n with
  | O => EmptyString
  | S n' => String c (replicate n' c)
  end.

End Str.

(** ** [os.path] on POSIX *)

Module PosixPath.

Definition sep : ascii := "/"%char.

(** [os.path.basename]: [i = p.rfind('/') + 1; return p[i:]]. *)
Definition basename (p : string) : string :=
  let i := Str.rfind sep p + 1 in
  Str.drop (Z.to_nat i) p.

(** [os.path.dirname]: the head up to the last slash, with trailing
    slashes stripped unless the head consists of slashes only. *)
Definition dirname (p : string) : string :=
  let i := Str.rfind sep p + 1 in
  let head := Str.take (Z.to_nat i) p in
  if negb (String.eqb head "") && negb (Str.all_char sep head)
  then Str.rstrip sep head
  else head.

(** [os.path.join(a, b)] with two components. *)
Definition join (a b : string) : string :=
  if Str.startswith b "/" then b
  else if String.eqb a "" || Str.endswith_char a sep then a +:+ b
  else a +:+ "/" +:+ b.

End PosixPath.

(** ** Ignition version of a disk image (cmdlib.py, lines 172-177) *)

Module Ignition.

Definition legacy_prefixes : list string :=
  ["rhcos-41"; "rhcos-42"; "rhcos-43"].

Definition disk_ignition_version (path : string) : string :=
  let bn := PosixPath.basename path in
  if Str.startswith_any bn legacy_prefixes
  then "2.2.0"
  else "3.0.0".

End Ignition.

(** ** Architecture cache (cmdlib.py, lines 201-206) *)

Module ArchCache.

(** Process-wide state seen by [get_basearch]: the function attribute
    [get_basearch.saved] (absent until the first call) and the number
    of calls made so far to [RpmOstree.get_basearch()]. *)
Record proc : Type := {
  saved : option string;
  queries : nat
}.

Definition fresh_proc : proc := {| saved := None; queries := 0 |}.

Section WithLookup.
(** [RpmOstree.get_basearch()]: the answer to the [n]-th query.  The
    lookup is external, so nothing is assumed about it: it may answer
    differently each time. *)
Variable rpmostree_get_basearch : nat -> string.

(** [try: return get_basearch.saved
     except AttributeError:
         get_basearch.saved = RpmOstree.get_basearch()
         return get_basearch.saved] *)
Definition get_basearch (p : proc) : string * proc :=
  match saved p with
  | Some s => (s, p)
  | None =>
      let s := rpmostree_get_basearch (queries p) in
      (s, {| saved := Some s; queries := S (queries p) |})
  end.

(** [n] successive calls, with the values they return in order. *)
Fixpoint calls (n : nat) (p : proc) : list string * proc :=
  match n with
  | O => ([], p)
  | S n' =>
      let '(s, p1) := get_basearch p in
      let '(rest, p2) := calls n' p1 in
      (s :: rest, p2)
  end.
End WithLookup.

End ArchCache.

(** ** Timestamp formatter (cmdlib.py, lines 135-150) *)

Module Timestamp.
Import Py.

(** What [rfc3339_time] observes of a [datetime.tzinfo]: the name that
    [tzname()] reports (it may be [None]) and the offset from UTC. *)
Record tzinfo : Type := {
  tz_name : option string;
  tz_utcoffset_minutes : Z
}.

(** A [datetime.datetime]; [dt_tzinfo = None] is a naive timestamp. *)
Record datetime : Type := {
  dt_year : nat;
  dt_month : nat;
  dt_day : nat;
  dt_hour : nat;
  dt_minute : nat;
  dt_second : nat;
  dt_tzinfo : option tzinfo
}.

(** [t.tzname()]: [None] for a naive timestamp, else what the zone says. *)
Definition tzname (t : datetime) : option string :=
  match dt_tzinfo t with
  | None => None
  | Some z => tz_name z
  end.

Definition digit_char (d : nat) : ascii :=
  ascii_of_nat (48 + d mod 10).

(** Decimal digits of [n], most significant first, [k] digits at least. *)
Fixpoint dec_digits (k : nat) (n : nat) (acc : string) : string :=
  match k with
  | O => acc
  | S k' =>
      let acc' := String (digit_char n) acc in
      if (n / 10 =? 0)%nat then acc' else dec_digits k' (n / 10) acc'
  end.

Definition dec (n : nat) : string := dec_digits (S n) n "".

(** [%m], [%d], [%H], [%M], [%S]: two digits, zero padded. *)
Definition pad2 (n : nat) : string :=
  String (digit_char (n / 10)) (String (digit_char n) "").

(** [t.strftime("%Y-%m-%dT%H:%M:%SZ")].  [%Y] is printed as the C
    library prints it on Linux: in decimal, without padding. *)
Definition strftime_rfc3339 (t : datetime) : string :=
  dec (dt_year t) +:+ "-" +:+ pad2 (dt_month t) +:+ "-" +:+ pad2 (dt_day t)
    +:+ "T" +:+ pad2 (dt_hour t) +:+ ":" +:+ pad2 (dt_minute t)
    +:+ ":" +:+ pad2 (dt_second t) +:+ "Z".

Definition utc_assert_msg : string := "Timestamp must be in UTC format".

(** [utcnow] is the value of [datetime.utcnow()] at the time of the
    call; [t = None] is the default argument. *)
Definition rfc3339_time (utcnow : datetime) (t : option datetime)
  : result string :=
  match t with
  | None => Ok (strftime_rfc3339 utcnow)
  | Some t =>
      if decide (tzname t = Some "UTC")
      then Ok (strftime_rfc3339 t)
      else Raise (AssertionError utc_assert_msg)
  end.

(** *** Sample timestamps *)

(** The instant named in the specification, in UTC. *)
Definition new_year_2021 (z : option tzinfo) : datetime :=
  {| dt_year := 2021; dt_month := 1; dt_day := 1;
     dt_hour := 0; dt_minute := 0; dt_second := 0; dt_tzinfo := z |}.

Definition utc : tzinfo := {| tz_name := Some "UTC"; tz_utcoffset_minutes := 0 |}.

Definition cet : tzinfo := {| tz_name := Some "CET"; tz_utcoffset_minutes := 60 |}.

End Timestamp.

(** ** The [json] codec used by [write_json] and [load_json]

    [json.dump(data, f, indent=4)] and [json.load(f)] are the standard
    library's; they are modelled here from their documented behaviour, for
    the part of Python's values given by [pyval]. *)

Module Json.
Import Py.

(** Python values handed to [write_json].  Strings hold code points
    below 256; dictionaries keep insertion order and have string keys;
    floats are left out.  [PyObject cls] stands for an instance of a class
    the encoder does not know (a set, bytes, ...). *)
#[local] Unset Elimination Schemes.
Inductive pyval : Type :=
| PyNone
| PyBool (b : bool)
| PyInt (z : Z)
| PyStr (s : string)
| PyList (items : list pyval)
| PyTuple (items : list pyval)
| PyDict (entries : list (string * pyval))
| PyObject (cls : string).
#[local] Set Elimination Schemes.

Definition dquote : ascii := "034"%char.
Definition backslash : ascii := "092"%char.
Definition newline : ascii := "010"%char.

(** *** Encoder *)

(** What an encoder run has written so far, and the exception that
    stopped it, if any. *)
Definition emitted : Type := string * option pyexc.

Definition say (s : string) : emitted := (s, None).

(** Sequencing: the second part is written only if the first finished. *)
Definition and_then (a b : emitted) : emitted :=
  match snd a with
  | Some e => a
  | None => (fst a +:+ fst b, snd b)
  end.

Definition hex_digit (n : nat) : ascii :=
  match String.get n "0123456789abcdef" with
  | Some c => c
  | None => "0"%char
  end.

(** [ESCAPE_DCT] and the [\uXXXX] fallback of [encode_basestring_ascii]:
    everything outside [' '..'~'], the quote and the backslash is
    escaped. *)
Definition escape_char (c : ascii) : string :=
  let n := nat_of_ascii c in
  if Ascii.eqb c dquote then String backslash (String dquote EmptyString)
  else if Ascii.eqb c backslash then String backslash (String backslash EmptyString)
  else if (n =? 8)%nat then "\b"
  else if (n =? 12)%nat then "\f"
  else if (n =? 10)%nat then "\n"
  else if (n =? 13)%nat then "\r"
  else if (n =? 9)%nat then "\t"
  else if (32 <=? n)%nat && (n <=? 126)%nat then String c EmptyString
  else "\u00" +:+ String (hex_digit (n / 16)) (String (hex_digit (n mod 16)) EmptyString).

Fixpoint escape_body (s : string) : string :=
  match s with
  | EmptyString => EmptyString
  | String c s' => escape_char c +:+ escape_body s'
  end.

Definition encode_basestring_ascii (s : string) : string :=
  String dquote (escape_body s +:+ String dquote EmptyString).

(** [int.__repr__]: decimal, with a minus sign for negative numbers. *)
Definition int_repr (z : Z) : string :=
  DecimalString.NilZero.string_of_int (Z.to_int z).

(** ['\n' + ' ' * (indent * level)] with [indent = 4]. *)
Definition newline_indent (lvl : nat) : string :=
  String newline (Str.replicate (4 * lvl) " "%char).

Definition item_separator (lvl : nat) : string :=
  "," +:+ newline_indent lvl.

Definition not_serializable (cls : string) : pyexc :=
  TypeError ("Object of type " +:+ cls +:+ " is not JSON serializable").

Section Sequences.
Context {A : Type}.
Variable enc : A -> emitted.
Variable sep : string.

(** The items after the first one, each preceded by the separator. *)
Fixpoint emit_more (l : list A) : emitted :=
  match l with
  | [] => say EmptyString
  | x :: l' => and_then (say sep) (and_then (enc x) (emit_more l'))
  end.

Definition emit_items (l : list A) : emitted :=
  match l with
  | [] => say EmptyString
  | x :: l' => and_then (enc x) (emit_more l')
  end.
End Sequences.

(** [JSONEncoder(indent=4).iterencode(o)], at nesting level [lvl]:
    lists and tuples both become arrays, dictionaries become objects, an
    unknown object raises [TypeError] after what precedes it has been
    written. *)
Fixpoint iterencode (lvl : nat) (o : pyval) {struct o} : emitted :=
  match o with
  | PyNone => say "null"
  | PyBool b => say (if b then "true" else "false")
  | PyInt z => say (int_repr z)
  | PyStr s => say (encode_basestring_ascii s)
  | PyList l | PyTuple l =>
      match l with
      | [] => say "[]"
      | _ =>
          and_then (say ("[" +:+ newline_indent (S lvl)))
            (and_then
               (emit_items (iterencode (S lvl)) (item_separator (S lvl)) l)
               (say (newline_indent lvl +:+ "]")))
      end
  | PyDict d =>
      match d with
      | [] => say "{}"
      | _ =>
          and_then (say ("{" +:+ newline_indent (S lvl)))
            (and_then
               (emit_items
                  (fun kv : string * pyval =>
                     and_then (say (encode_basestring_ascii (fst kv) +:+ ": "))
                       (iterencode (S lvl) (snd kv)))
                  (item_separator (S lvl)) d)
               (say (newline_indent lvl +:+ "}")))
      end
  | PyObject cls => (EmptyString, Some (not_serializable cls))
  end.

(** *** Decoder *)

Definition is_ws (c : ascii) : bool :=
  Ascii.eqb c " " || Ascii.eqb c "009" || Ascii.eqb c "010" || Ascii.eqb c "013".

Fixpoint skip_ws (s : string) : string :=
  match s with
  | String c s' => if is_ws c then skip_ws s' else s
  | EmptyString => EmptyString
  end.

Definition hex_val (c : ascii) : option nat :=
  let n := nat_of_ascii c in
  if (48 <=? n)%nat && (n <=? 57)%nat then Some (n - 48)%nat
  else if (97 <=? n)%nat && (n <=? 102)%nat then Some (n - 87)%nat
  else if (65 <=? n)%nat && (n <=? 70)%nat then Some (n - 55)%nat
  else None.

(** The code point of [\uXXXX]. *)
Definition decode_uXXXX (h1 h2 h3 h4 : ascii) : option nat :=
  match hex_val h1, hex_val h2, hex_val h3, hex_val h4 with
  | Some a, Some b, Some c, Some d => Some (((a * 16 + b) * 16 + c) * 16 + d)%nat
  | _, _, _, _ => None
  end.

(** [BACKSLASH]: the one-letter escapes. *)
Definition unescape (e : ascii) : option ascii :=
  if Ascii.eqb e dquote then Some dquote
  else if Ascii.eqb e backslash then Some backslash
  else if Ascii.eqb e "/" then Some "/"%char
  else if Ascii.eqb e "b" then Some "008"%char
  else if Ascii.eqb e "f" then Some "012"%char
  else if Ascii.eqb e "n" then Some "010"%char
  else if Ascii.eqb e "r" then Some "013"%char
  else if Ascii.eqb e "t" then Some "009"%char
  else None.

Definition push (c : ascii) (r : option (string * string)) : option (string * string) :=
  match r with
  | Some (s, rest) => Some (String c s, rest)
  | None => None
  end.

(** [scanstring] in strict mode, started after the opening quote: the
    decoded string and what follows the closing quote.  Raw control
    characters are refused; so are, as outside this model, raw characters
    and escapes beyond the strings of [pyval]. *)
Fixpoint scanstring (s : string) : option (string * string) :=
  match s with
  | EmptyString => None
  | String c s1 =>
      if Ascii.eqb c dquote then Some (EmptyString, s1)
      else if Ascii.eqb c backslash then
        match s1 with
        | EmptyString => None
        | String e s2 =>
            if Ascii.eqb e "u" then
              match s2 with
              | String h1 (String h2 (String h3 (String h4 s3))) =>
                  match decode_uXXXX h1 h2 h3 h4 with
                  | Some n =>
                      if (n <? 256)%nat
                      then push (ascii_of_nat n) (scanstring s3)
                      else None
                  | None => None
                  end
              | _ => None
              end
            else
              match unescape e with
              | Some ch => push ch (scanstring s2)
              | None => None
              end
        end
      else if (nat_of_ascii c <? 32)%nat || (127 <? nat_of_ascii c)%nat then None
      else push c (scanstring s1)
  end.

Definition digit_of_char (c : ascii) : option (Decimal.uint -> Decimal.uint) :=
  match (nat_of_ascii c - 48)%nat with
  | 0%nat => if (48 <=? nat_of_ascii c)%nat then Some Decimal.D0 else None
  | 1%nat => Some Decimal.D1
  | 2%nat => Some Decimal.D2
  | 3%nat => Some Decimal.D3
  | 4%nat => Some Decimal.D4
  | 5%nat => Some Decimal.D5
  | 6%nat => Some Decimal.D6
  | 7%nat => Some Decimal.D7
  | 8%nat => Some Decimal.D8
  | 9%nat => Some Decimal.D9
  | _ => None
  end.

Definition is_digit (c : ascii) : bool :=
  match digit_of_char c with Some _ => true | None => false end.

(** The longest run of decimal digits at the head of [s]. *)
Fixpoint scan_uint (s : string) : Decimal.uint * string :=
  match s with
  | EmptyString => (Decimal.Nil, EmptyString)
  | String c s' =>
      match digit_of_char c with
      | Some d => let '(u, rest) := scan_uint s' in (d u, rest)
      | None => (Decimal.Nil, s)
      end
  end.

(** A fraction or an exponent follows: the number is a float. *)
Definition starts_float_tail (s : string) : bool :=
  match s with
  | String c _ => Ascii.eqb c "." || Ascii.eqb c "e" || Ascii.eqb c "E"
  | EmptyString => false
  end.

(** [NUMBER_RE] restricted to integers: an optional minus sign, then
    either a single zero or a digit run that starts with a non-zero digit. *)
Definition scan_number (s : string) : option (pyval * string) :=
  let '(neg, s1) :=
    match s with
    | String c r => if Ascii.eqb c "-" then (true, r) else (false, s)
    | EmptyString => (false, s)
    end in
  match s1 with
  | EmptyString => None
  | String c r =>
      if negb (is_digit c) then None
      else
        let '(u, rest) :=
          if Ascii.eqb c "0" then (Decimal.D0 Decimal.Nil, r) else scan_uint s1 in
        if starts_float_tail rest then None
        else Some (PyInt (if neg : bool then - Z.of_uint u else Z.of_uint u), rest)
  end.

(** [dict(pairs)]: a later pair with a key already present replaces the
    value and keeps the position. *)
Fixpoint dict_set (k : string) (v : pyval) (d : list (string * pyval))
  : list (string * pyval) :=
  match d with
  | [] => [(k, v)]
  | (k', v') :: d' =>
      if String.eqb k k' then (k', v) :: d' else (k', v') :: dict_set k v d'
  end.

Definition dict_of_pairs (pairs : list (string * pyval)) : list (string * pyval) :=
  fold_left (fun d kv => dict_set (fst kv) (snd kv) d) pairs [].

(** [scan_once], [JSONArray] and [JSONObject].  [scan_once] expects the
    value at the head of [s]; [scan_elements] is the loop of [JSONArray]
    entered at the first element, [scan_pairs] that of [JSONObject]
    entered at the quote that opens the first key.  [fuel] bounds the
    number of nested calls. *)
Fixpoint scan_once (fuel : nat) (s : string) {struct fuel} : option (pyval * string) :=
  match fuel with
  | O => None
  | S fuel' =>
      match s with
      | EmptyString => None
      | String c s1 =>
          if Ascii.eqb c dquote then
            match scanstring s1 with
            | Some (str, rest) => Some (PyStr str, rest)
            | None => None
            end
          else if Ascii.eqb c "{" then
            match skip_ws s1 with
            | EmptyString => None
            | String c2 s2 =>
                if Ascii.eqb c2 "}" then Some (PyDict [], s2)
                else
                  match scan_pairs fuel' (String c2 s2) with
                  | Some (pairs, rest) => Some (PyDict (dict_of_pairs pairs), rest)
                  | None => None
                  end
            end
          else if Ascii.eqb c "[" then
            match skip_ws s1 with
            | EmptyString => None
            | String c2 s2 =>
                if Ascii.eqb c2 "]" then Some (PyList [], s2)
                else
                  match scan_elements fuel' (String c2 s2) with
                  | Some (vs, rest) => Some (PyList vs, rest)
                  | None => None
                  end
            end
          else if String.prefix "null" s then Some (PyNone, Str.drop 4 s)
          else if String.prefix "true" s then Some (PyBool true, Str.drop 4 s)
          else if String.prefix "false" s then Some (PyBool false, Str.drop 5 s)
          else scan_number s
      end
  end
with scan_elements (fuel : nat) (s : string) {struct fuel} : option (list pyval * string) :=
  match fuel with
  | O => None
  | S fuel' =>
      match scan_once fuel' s with
      | None => None
      | Some (v, s1) =>
          match skip_ws s1 with
          | EmptyString => None
          | String c s2 =>
              if Ascii.eqb c "]" then Some ([v], s2)
              else if Ascii.eqb c "," then
                match scan_elements fuel' (skip_ws s2) with
                | Some (vs, rest) => Some (v :: vs, rest)
                | None => None
                end
              else None
          end
      end
  end
with scan_pairs (fuel : nat) (s : string) {struct fuel} : option (list (string * pyval) * string) :=
  match fuel with
  | O => None
  | S fuel' =>
      match s with
      | EmptyString => None
      | String q s0 =>
          if negb (Ascii.eqb q dquote) then None
          else
            match scanstring s0 with
            | None => None
            | Some (key, s1) =>
                match skip_ws s1 with
                | EmptyString => None
                | String c s2 =>
                    if negb (Ascii.eqb c ":") then None
                    else
                      match scan_once fuel' (skip_ws s2) with
                      | None => None
                      | Some (v, s3) =>
                          match skip_ws s3 with
                          | EmptyString => None
                          | String c3 s4 =>
                              if Ascii.eqb c3 "}" then Some ([(key, v)], s4)
                              else if Ascii.eqb c3 "," then
                                match scan_pairs fuel' (skip_ws s4) with
                                | Some (kvs, rest) => Some ((key, v) :: kvs, rest)
                                | None => None
                                end
                              else None
                          end
                      end
                end
            end
      end
  end.

(** [json.loads(s)]: one value, surrounded by white space only.
    Documents outside the model (floats, escapes above code point 255)
    are rejected like malformed ones. *)
Definition loads (s : string) : result pyval :=
  match scan_once (S (String.length s)) (skip_ws s) with
  | Some (v, rest) =>
      match skip_ws rest with
      | EmptyString => Ok v
      | String _ _ => Raise JSONDecodeError
      end
  | None => Raise JSONDecodeError
  end.

(** [json.dumps(o, indent=4)] where the encoder finishes. *)
Definition dumps (o : pyval) : result string :=
  match iterencode 0 o with
  | (text, None) => Ok text
  | (_, Some e) => Raise e
  end.

(** *** Notions used to state that the decoder reads what the encoder
    writes *)

(** What may follow a value in a document written by the encoder: the
    end of the text, a comma, or a line break. *)
Definition delimited (s : string) : bool :=
  match s with
  | EmptyString => true
  | String c _ => Ascii.eqb c "," || Ascii.eqb c newline
  end.

(** The text written for a value at a nesting level. *)
Definition text (lvl : nat) (v : pyval) : string := fst (iterencode lvl v).

(** The text of the items after the first one. *)
Section MoreText.
Context {A : Type}.
Variable enc : A -> emitted.
Variable sep : string.

Fixpoint more_text (l : list A) : string :=
  match l with
  | [] => EmptyString
  | x :: l' => sep +:+ fst (enc x) +:+ more_text l'
  end.

End MoreText.

(** The text of one entry of an object. *)
Definition encode_entry (lvl : nat) (kv : string * pyval) : emitted :=
  and_then (say (encode_basestring_ascii (fst kv) +:+ ": "))
    (iterencode lvl (snd kv)).

(** [v] is written without error at every nesting level, its text
    starts with a character that is neither white space nor a closing
    bracket, and the scanner reads the text back as [v], given fuel beyond
    the length of the text and a delimiter after it. *)
Definition decodes (v : pyval) : Prop :=
  forall lvl,
    snd (iterencode lvl v) = None /\
    (exists c t, text lvl v = String c t /\ is_ws c = false /\
                 Ascii.eqb c "]" = false) /\
    forall rest fuel,
      delimited rest = true ->
      (String.length (text lvl v) < fuel)%nat ->
      scan_once fuel (text lvl v +:+ rest) = Some (v, rest).

End Json.

(** ** The file system seen by [write_json], [load_json] and
    [sha256sum_file] *)

Module Fs.
Import Py.

(** A regular file: its bytes and its permission bits. *)
Record file : Type := {
  f_data : string;
  f_mode : Z
}.

(** Regular files and directories by path, and the number of bytes the
    disk can still take. *)
Record fs : Type := {
  files : gmap string file;
  dirs : gset string;
  free : nat
}.

Definition with_files (m : gmap string file) (d : fs) : fs :=
  {| files := m; dirs := dirs d; free := free d |}.

Definition path_exists (p : string) (d : fs) : bool :=
  bool_decide (is_Some (files d !! p)) || bool_decide (p ∈ dirs d).

Definition content (p : string) (d : fs) : option string :=
  f_data <$> files d !! p.

(** A Python file object opened for writing in text mode, as
    [NamedTemporaryFile(mode='w')] returns it: [w_name] is [f.name], the
    name the file was created under; [w_link] is the name its inode is
    linked under now (the descriptor follows the inode when the file is
    renamed); [w_pending] is what has been written to the object and not
    yet handed to the kernel. *)
Record wfile : Type := {
  w_name : string;
  w_link : string;
  w_pending : string
}.

Definition with_pending (s : string) (f : wfile) : wfile :=
  {| w_name := w_name f; w_link := w_link f; w_pending := s |}.

(** [write(2)] on the descriptor: appends, or fails with [ENOSPC] when
    the disk cannot take the bytes. *)
Definition raw_write (link s : string) (d : fs) : result fs :=
  match files d !! link with
  | None => Raise (OSError "EBADF")
  | Some fl =>
      if (String.length s <=? free d)%nat
      then Ok {| files := <[link := {| f_data := f_data fl +:+ s; f_mode := f_mode fl |}]> (files d);
                 dirs := dirs d;
                 free := (free d - String.length s)%nat |}
      else Raise (OSError "ENOSPC")
  end.

(** How much of [n] pending bytes a buffer of [size] bytes hands over
    on a write: whole buffers; everything when unbuffered. *)
Definition flushed_len (size n : nat) : nat :=
  match size with
  | O => n
  | _ => ((n / size) * size)%nat
  end.

(** [f.write(s)]: the text joins the pending bytes; full buffers go to
    the kernel, the tail stays in the object. *)
Definition write (size : nat) (f : wfile) (s : string) (d : fs)
  : result unit * wfile * fs :=
  let p := w_pending f +:+ s in
  let k := flushed_len size (String.length p) in
  match k with
  | O => (Ok tt, with_pending p f, d)
  | _ =>
      match raw_write (w_link f) (Str.take k p) d with
      | Ok d' => (Ok tt, with_pending (Str.drop k p) f, d')
      | Raise e => (Raise e, with_pending p f, d)
      end
  end.

(** What happens when the file object is released (its reference count
    drops to zero, here when [write_json] returns or its exception has
    unwound): the pending bytes are flushed and the descriptor closed; an
    error at this point is reported on stderr and otherwise ignored. *)
Definition release (f : wfile) (d : fs) : fs :=
  match w_pending f with
  | EmptyString => d
  | p =>
      match raw_write (w_link f) p d with
      | Ok d' => d'
      | Raise _ => d
      end
  end.

(** [tempfile.NamedTemporaryFile(mode='w', dir=dn, delete=False)]: the
    first of the candidate names (a random sequence, [candidates]) that
    is free in [dn] is created, empty, with mode [0600].  [dn = ""] is
    the current directory. *)
Definition named_temporary_file (candidates : list string) (dn : string) (d : fs)
  : result wfile * fs :=
  if negb (String.eqb dn EmptyString) && negb (bool_decide (dn ∈ dirs d))
  then (Raise (FileNotFoundError dn), d)
  else
    match List.find (fun n => negb (path_exists (PosixPath.join dn n) d)) candidates with
    | None => (Raise (FileExistsError dn), d)
    | Some n =>
        let p := PosixPath.join dn n in
        (Ok {| w_name := p; w_link := p; w_pending := EmptyString |},
         with_files (<[p := {| f_data := EmptyString; f_mode := 384 |}]> (files d)) d)
    end.

(** [os.fchmod(f.file.fileno(), mode)] *)
Definition fchmod (f : wfile) (mode : Z) (d : fs) : result unit * fs :=
  match files d !! w_link f with
  | None => (Raise (OSError "EBADF"), d)
  | Some fl =>
      (Ok tt, with_files (<[w_link f := {| f_data := f_data fl; f_mode := mode |}]> (files d)) d)
  end.

(** [os.rename(src, dst)]: in one step [dst] names the file that [src]
    named; what [dst] named before is unlinked and its bytes are freed. *)
Definition rename (src dst : string) (d : fs) : result unit * fs :=
  match files d !! src with
  | None => (Raise (FileNotFoundError src), d)
  | Some fl =>
      if bool_decide (dst ∈ dirs d) then (Raise (IsADirectoryError dst), d)
      else
        let reclaimed :=
          if String.eqb src dst then 0%nat
          else match files d !! dst with
               | Some old => String.length (f_data old)
               | None => 0%nat
               end in
        (Ok tt, {| files := <[dst := fl]> (delete src (files d));
                   dirs := dirs d;
                   free := (free d + reclaimed)%nat |})
  end.

(** The open descriptor after [os.rename(src, dst)]. *)
Definition follow (src dst : string) (f : wfile) : wfile :=
  if String.eqb (w_link f) src
  then {| w_name := w_name f; w_link := dst; w_pending := w_pending f |}
  else f.

(** What [f.write] and the release of [f] leave alone, whatever their
    outcome. *)
Definition same_elsewhere (link : string) (d d' : fs) : Prop :=
  (forall q, q <> link -> files d' !! q = files d !! q) /\
  dirs d' = dirs d /\
  (is_Some (files d !! link) -> is_Some (files d' !! link)).

End Fs.

(** ** Atomic JSON store (cmdlib.py, lines 67-95) *)

Module JsonStore.
Import Py Fs Json.

(** What the run-time environment decides for a call: the sequence of
    random names [tempfile] tries, and the size of the buffer of a text
    file object ([io.DEFAULT_BUFFER_SIZE], 8192 in CPython). *)
Record env : Type := {
  tmp_candidates : list string;
  buffer_size : nat
}.

(** [json.dump(data, f, indent=4)]: what the encoder produces is written
    to [f]; a [TypeError] of the encoder comes after the text that
    precedes the offending object has been written. *)
Definition json_dump (e : env) (data : pyval) (f : wfile) (d : fs)
  : result unit * wfile * fs :=
  let '(text, err) := iterencode 0 data in
  match Fs.write (buffer_size e) f text d with
  | (Raise x, f', d') => (Raise x, f', d')
  | (Ok _, f', d') =>
      match err with
      | Some x => (Raise x, f', d')
      | None => (Ok tt, f', d')
      end
  end.

(** The statements of [write_json], lines 77 to 81, up to the point
    where the last one executed has finished: the outcome, the file
    object [f] if it was created (it is still alive), and the file
    system.
<<
    dn = os.path.dirname(path)
    f = tempfile.NamedTemporaryFile(mode='w', dir=dn, delete=False)
    json.dump(data, f, indent=4)
    os.fchmod(f.file.fileno(), 0o644)
    os.rename(f.name, path)
>> *)
Definition write_json_body (e : env) (path : string) (data : pyval) (d : fs)
  : result unit * option wfile * fs :=
  let dn := PosixPath.dirname path in
  match named_temporary_file (tmp_candidates e) dn d with
  | (Raise x, d1) => (Raise x, None, d1)
  | (Ok f, d1) =>
      match json_dump e data f d1 with
      | (Raise x, f2, d2) => (Raise x, Some f2, d2)
      | (Ok _, f2, d2) =>
          match fchmod f2 420 d2 with
          | (Raise x, d3) => (Raise x, Some f2, d3)
          | (Ok _, d3) =>
              match rename (w_name f2) path d3 with
              | (Raise x, d4) => (Raise x, Some f2, d4)
              | (Ok _, d4) => (Ok tt, Some (follow (w_name f2) path f2), d4)
              end
          end
      end
  end.

(** [write_json(path, data)] as its caller sees it: the body, then the
    release of the local [f].  Nothing in the body flushes or closes
    [f]. *)
Definition write_json (e : env) (path : string) (data : pyval) (d : fs)
  : result unit * fs :=
  let '(r, f, d') := write_json_body e path data d in
  (r, match f with Some f => release f d' | None => d' end).

(** [load_json(path)]: [with open(path) as f: return json.load(f)]. *)
Definition load_json (path : string) (d : fs) : result pyval :=
  match files d !! path with
  | Some fl => loads (f_data fl)
  | None =>
      if bool_decide (path ∈ dirs d)
      then Raise (IsADirectoryError path)
      else Raise (FileNotFoundError path)
  end.

(** The values that JSON represents as they are: no tuple, no unknown
    object, and in every dictionary the keys are distinct (as in any
    Python [dict]). *)
Fixpoint json_native (v : pyval) : bool :=
  match v with
  | PyNone | PyBool _ | PyInt _ | PyStr _ => true
  | PyList l => forallb json_native l
  | PyTuple _ => false
  | PyDict d =>
      forallb (fun kv : string * pyval => json_native (snd kv)) d
      && bool_decide (NoDup (map fst d))
  | PyObject _ => false
  end.

(** *** A sample directory *)

Definition meta_path : string := "/srv/builds/meta.json".

Definition old_meta : file := {| f_data := "{}"; f_mode := 420 |}.

Definition builds_fs (room : nat) : fs :=
  {| files := {[meta_path := old_meta]}; dirs := {["/srv/builds"]}; free := room |}.

Definition sample_env : env :=
  {| tmp_candidates := ["tmpk3m9x2qa"]; buffer_size := 8 * 1024 |}.

Definition new_meta : pyval := PyDict [("ref", PyStr "abc"); ("build", PyInt 42)].

Definition bad_meta : pyval := PyDict [("ref", PyStr "abc"); ("tags", PyObject "set")].

End JsonStore.

(** ** SHA-256 (FIPS 180-4), the algorithm behind [hashlib.sha256] *)

Module Sha256.

Definition word_mod : Z := 2 ^ 32.

Definition add32 (x y : Z) : Z := (x + y) mod word_mod.

Definition rotr (n x : Z) : Z :=
  Z.lor (Z.shiftr x n) (Z.shiftl x (32 - n)) mod word_mod.

Definition not32 (x : Z) : Z := Z.lxor x (word_mod - 1).

Definition Ch (x y z : Z) : Z :=
  Z.lxor (Z.land x y) (Z.land (not32 x) z).

Definition Maj (x y z : Z) : Z :=
  Z.lxor (Z.lxor (Z.land x y) (Z.land x z)) (Z.land y z).

Definition big_sigma0 (x : Z) : Z :=
  Z.lxor (Z.lxor (rotr 2 x) (rotr 13 x)) (rotr 22 x).

Definition big_sigma1 (x : Z) : Z :=
  Z.lxor (Z.lxor (rotr 6 x) (rotr 11 x)) (rotr 25 x).

Definition small_sigma0 (x : Z) : Z :=
  Z.lxor (Z.lxor (rotr 7 x) (rotr 18 x)) (Z.shiftr x 3).

Definition small_sigma1 (x : Z) : Z :=
  Z.lxor (Z.lxor (rotr 17 x) (rotr 19 x)) (Z.shiftr x 10).

(** The constants are defined as the standard defines them: the first
    32 bits of the fractional parts of the square roots (initial hash
    value) and of the cube roots (round constants) of the first primes. *)
Definition is_prime (n : nat) : bool :=
  forallb (fun d => negb (n mod d =? 0)%nat) (seq 2 (n - 2)).

Definition primes_below (n : nat) : list Z :=
  map Z.of_nat (filter is_prime (seq 2 (n - 2))).

(** The integer cube root of [n], built bit by bit from bit [bits - 1]. *)
Fixpoint cube_root_bits (bits : nat) (n r : Z) : Z :=
  match bits with
  | O => r
  | S b =>
      let c := r + 2 ^ Z.of_nat b in
      cube_root_bits b n (if c * c * c <=? n then c else r)
  end.

Definition frac_sqrt32 (p : Z) : Z := Z.sqrt (p * 2 ^ 64) mod word_mod.

Definition frac_cbrt32 (p : Z) : Z := cube_root_bits 40 (p * 2 ^ 96) 0 mod word_mod.

Definition H0 : list Z := Eval vm_compute in map frac_sqrt32 (primes_below 20).

Definition K : list Z := Eval vm_compute in map frac_cbrt32 (primes_below 312).

(** Padding of a message of [len] bytes: [0x80], zero bytes up to 56
    modulo 64, then the length in bits as eight big-endian bytes. *)
Fixpoint be_bytes (n : nat) (x : Z) : list Z :=
  match n with
  | O => []
  | S n' => (Z.shiftr x (8 * Z.of_nat n')) mod 256 :: be_bytes n' x
  end.

Definition padding (len : nat) : list Z :=
  let zeros := Z.to_nat ((55 - Z.of_nat len) mod 64) in
  128 :: repeat 0 zeros ++ be_bytes 8 (8 * Z.of_nat len).

(** Big-endian 32-bit words of a byte sequence. *)
Fixpoint words_of (fuel : nat) (bs : list Z) : list Z :=
  match fuel, bs with
  | S fuel', b0 :: b1 :: b2 :: b3 :: rest =>
      (((b0 * 256 + b1) * 256 + b2) * 256 + b3) :: words_of fuel' rest
  | _, _ => []
  end.

(** The message schedule: sixteen words of the block, extended to 64. *)
Fixpoint extend (n : nat) (w : list Z) : list Z :=
  match n with
  | O => w
  | S n' =>
      let t := length w in
      let at_back k := nth (t - k) w 0 in
      extend n' (w ++ [add32 (add32 (small_sigma1 (at_back 2%nat)) (at_back 7%nat))
                             (add32 (small_sigma0 (at_back 15%nat)) (at_back 16%nat))])
  end.

Definition schedule (block : list Z) : list Z := extend 48 block.

Definition regs : Type := (Z * Z * Z * Z * Z * Z * Z * Z)%type.

Definition round (r : regs) (kw : Z * Z) : regs :=
  let '(a, b, c, d, e, f, g, h) := r in
  let t1 := add32 (add32 (add32 h (big_sigma1 e)) (add32 (Ch e f g) (fst kw))) (snd kw) in
  let t2 := add32 (big_sigma0 a) (Maj a b c) in
  (add32 t1 t2, a, b, c, add32 d t1, e, f, g).

Definition regs_of (l : list Z) : regs :=
  let n k := nth k l 0 in
  (n 0%nat, n 1%nat, n 2%nat, n 3%nat, n 4%nat, n 5%nat, n 6%nat, n 7%nat).

Definition list_of (r : regs) : list Z :=
  let '(a, b, c, d, e, f, g, h) := r in [a; b; c; d; e; f; g; h].

(** One block: the 64 rounds, then the feed-forward addition. *)
Definition compress (h : list Z) (block : list Z) : list Z :=
  let out := fold_left round (combine K (schedule block)) (regs_of h) in
  map (fun p : Z * Z => add32 (fst p) (snd p)) (combine h (list_of out)).

Fixpoint blocks (fuel : nat) (ws : list Z) : list (list Z) :=
  match fuel, ws with
  | O, _ => []
  | _, [] => []
  | S fuel', _ => firstn 16 ws :: blocks fuel' (skipn 16 ws)
  end.

Definition bytes_of_string (s : string) : list Z :=
  map (fun c => Z.of_nat (nat_of_ascii c)) (list_ascii_of_string s).

(** The digest of a message, as eight 32-bit words. *)
Definition digest_words (msg : string) : list Z :=
  let bs := bytes_of_string msg in
  let padded := (bs ++ padding (length bs))%list in
  let ws := words_of (length padded) padded in
  fold_left compress (blocks (length ws) ws) H0.

Definition hex_char (n : Z) : ascii :=
  match String.get (Z.to_nat n) "0123456789abcdef" with
  | Some c => c
  | None => "0"%char
  end.

Fixpoint hex_word (digits : nat) (x : Z) : string :=
  match digits with
  | O => EmptyString
  | S d => String (hex_char ((Z.shiftr x (4 * Z.of_nat d)) mod 16)) (hex_word d x)
  end.

(** The digest in lowercase hexadecimal, 64 characters. *)
Definition hexdigest (msg : string) : string :=
  fold_right (fun w acc => hex_word 8 w +:+ acc) EmptyString (digest_words msg).

End Sha256.

(** ** Content hasher (cmdlib.py, lines 98-111) *)

Module Hasher.
Import Py Fs.

(** A [hashlib.sha256()] object, by its documented contract: a sequence
    of [update] calls is equivalent to one call with the concatenation
    of the arguments, so the object is the message fed so far. *)
Record sha256_obj : Type := { fed : string }.

Definition sha256_new : sha256_obj := {| fed := EmptyString |}.

Definition update (h : sha256_obj) (b : string) : sha256_obj :=
  {| fed := fed h +:+ b |}.

Definition hexdigest (h : sha256_obj) : string := Sha256.hexdigest (fed h).

(** [128 * 1024] *)
Definition chunk_size : nat := 128 * 1024.

(** [f.read(n)] on a raw file opened with [buffering=0] whose unread
    bytes are [rest]: at most [n] bytes, and what stays unread. *)
Definition read (n : nat) (rest : string) : string * string :=
  (Str.take n rest, Str.drop n rest).

(** [for b in iter(lambda: f.read(n), b''): h.update(b)]: the loop ends
    when a read returns no byte.  [None] is a loop that has not ended
    within [fuel] reads. *)
Fixpoint feed_chunks (fuel n : nat) (h : sha256_obj) (rest : string)
  : option sha256_obj :=
  match fuel with
  | O => None
  | S fuel' =>
      let '(b, rest') := read n rest in
      match b with
      | EmptyString => Some h
      | _ => feed_chunks fuel' n (update h b) rest'
      end
  end.

(** [sha256sum_file(path)]; [None] is a read loop that never ends. *)
Definition sha256sum_file (path : string) (d : fs) : option (result string) :=
  match files d !! path with
  | None =>
      Some (if bool_decide (path ∈ dirs d)
            then Raise (IsADirectoryError path)
            else Raise (FileNotFoundError path))
  | Some fl =>
      match feed_chunks (S (String.length (f_data fl))) chunk_size sha256_new (f_data fl) with
      | Some h => Some (Ok (hexdigest h))
      | None => None
      end
  end.

Definition empty_file_fs : fs :=
  {| files := {["/srv/empty" := {| f_data := EmptyString; f_mode := 420 |}]};
     dirs := {["/srv"]}; free := 0 |}.

End Hasher.

(** ** Spawned processes: [subprocess.run], [call], [check_call] *)

Module Proc.
Import Py.

(** Where a standard stream of the child goes. *)
Inductive stdio : Type := Inherit | DevNull | Pipe.

(** What spawning a command gives: it ran and exited with a status
    (with what it wrote to its standard streams), or it could not be
    started (the program is missing, ...). *)
Inductive outcome : Type :=
| Exited (returncode : Z) (out err : string)
| NotStarted (e : pyexc).

(** What the calling process did that others can observe: a line
    printed on standard output, a command spawned with the given
    redirections of its standard output and error. *)
Inductive event : Type :=
| EvPrint (line : string)
| EvSpawn (args : list string) (out err : stdio).

(** The operating system as the module uses it.  [W] is the state of
    everything outside the Python process. *)
Class OS (W : Type) : Type := {
  os_spawn : list string -> W -> outcome * W;
  os_isfile : string -> W -> bool;
  os_mkdtemp : string -> W -> string * W;
  os_rmtree : string -> W -> W
}.

Section Monad.
Context {W : Type} `{OS W}.

(** Computations that read and change the outside world, log what they
    do, and may raise. *)
Definition M (A : Type) : Type := W * list event -> result A * (W * list event).

Definition ret {A} (a : A) : M A := fun st => (Ok a, st).

Definition raise {A} (e : pyexc) : M A := fun st => (Raise e, st).

Definition bind {A B} (m : M A) (k : A -> M B) : M B :=
  fun st =>
    match m st with
    | (Ok a, st') => k a st'
    | (Raise e, st') => (Raise e, st')
    end.

(** [try: m  except <exceptions selected by h>: h e] *)
Definition try_except {A} (m : M A) (h : pyexc -> option (M A)) : M A :=
  fun st =>
    match m st with
    | (Ok a, st') => (Ok a, st')
    | (Raise e, st') =>
        match h e with
        | Some k => k st'
        | None => (Raise e, st')
        end
    end.

(** [try: m  finally: cleanup] with a cleanup that does not raise. *)
Definition finally {A} (m : M A) (cleanup : W -> W) : M A :=
  fun st =>
    let '(r, (w, log)) := m st in (r, (cleanup w, log)).

Definition print (line : string) : M unit :=
  fun '(w, log) => (Ok tt, (w, (log ++ [EvPrint line])%list)).

Definition isfile (p : string) : M bool :=
  fun '(w, log) => (Ok (os_isfile p w), (w, log)).

Definition mkdtemp (dir : string) : M string :=
  fun '(w, log) => let '(d, w') := os_mkdtemp dir w in (Ok d, (w', log)).

(** A [subprocess.CompletedProcess]. *)
Record completed : Type := {
  cp_args : list string;
  cp_returncode : Z;
  cp_stdout : option string;
  cp_stderr : option string
}.

Definition captured (how : stdio) (s : string) : option string :=
  match how with
  | Pipe => Some s
  | _ => None
  end.

(** [subprocess.run(args, check=check, stdout=out, stderr=err)] *)
Definition run (args : list string) (check : bool) (out err : stdio) : M completed :=
  fun '(w, log) =>
    match args with
    | [] => (Raise (IndexError "list index out of range"), (w, log))
    | _ =>
        let log' := (log ++ [EvSpawn args out err])%list in
        match os_spawn args w with
        | (NotStarted e, w') => (Raise e, (w', log'))
        | (Exited rc o e, w') =>
            if check && negb (rc =? 0)
            then (Raise (CalledProcessError rc args), (w', log'))
            else (Ok {| cp_args := args; cp_returncode := rc;
                        cp_stdout := captured out o; cp_stderr := captured err e |},
                  (w', log'))
        end
    end.

(** [subprocess.call(args, stdout=out, stderr=err)]: the exit status. *)
Definition call (args : list string) (out err : stdio) : M Z :=
  bind (run args false out err) (fun p => ret (cp_returncode p)).

(** [subprocess.check_call(args)]: [CalledProcessError] unless the
    status is zero. *)
Definition check_call (args : list string) : M Z :=
  bind (call args Inherit Inherit)
    (fun rc => if rc =? 0 then ret 0 else raise (CalledProcessError rc args)).

End Monad.

Arguments M : clear implicits.

Declare Scope proc_scope.
Delimit Scope proc_scope with proc.
Notation "x <- m ;; k" := (bind m (fun x => k))
  (at level 100, m at level 99, right associativity) : proc_scope.
Notation "m ;;; k" := (bind m (fun _ => k))
  (at level 100, right associativity) : proc_scope.

End Proc.

(** ** Command runner and [fatal] (cmdlib.py, lines 39-64 and 114-122) *)

Module Runner.
Import Py Proc.

Definition dquote : ascii := "034"%char.
Definition backslash : ascii := "092"%char.

(** [needquote = (" " in arg) or ("\t" in arg) or not arg] *)
Definition needquote (arg : string) : bool :=
  Str.contains_char " " arg || Str.contains_char "009" arg
  || String.eqb arg EmptyString.

(** The character loop of [subprocess.list2cmdline] on one argument,
    with [bs] backslashes held back: they are doubled before a quote
    and, at the end, when the argument is quoted. *)
Fixpoint quote_chars (quoted : bool) (bs : nat) (arg : string) : string :=
  match arg with
  | EmptyString => Str.replicate (if quoted then 2 * bs else bs) backslash
  | String c arg' =>
      if Ascii.eqb c backslash then quote_chars quoted (S bs) arg'
      else if Ascii.eqb c dquote then
        Str.replicate (2 * bs) backslash
          +:+ String backslash (String dquote (quote_chars quoted 0 arg'))
      else Str.replicate bs backslash +:+ String c (quote_chars quoted 0 arg')
  end.

Definition quote_arg (arg : string) : string :=
  if needquote arg
  then String dquote (quote_chars true 0 arg +:+ String dquote EmptyString)
  else quote_chars false 0 arg.

Fixpoint join_spaces (l : list string) : string :=
  match l with
  | [] => EmptyString
  | [x] => x
  | x :: l' => x +:+ " " +:+ join_spaces l'
  end.

(** [subprocess.list2cmdline(args)] *)
Definition list2cmdline (args : list string) : string :=
  join_spaces (map quote_arg args).

(** The keyword arguments [run_verbose] looks at; [None] is a keyword
    that the caller did not pass. *)
Record kwargs : Type := {
  kw_check : option bool;
  kw_capture_output : option bool;
  kw_stdout : option stdio;
  kw_stderr : option stdio
}.

Definition no_kwargs : kwargs :=
  {| kw_check := None; kw_capture_output := None; kw_stdout := None; kw_stderr := None |}.

Section WithOS.
Context {W : Type} `{OS W}.
Local Open Scope proc_scope.

(** [raise SystemExit(msg)] *)
Definition fatal {A} (msg : string) : M W A := raise (SystemExit msg).

(** [args[0]] *)
Definition first_arg (args : list string) : result string :=
  match args with
  | a :: _ => Ok a
  | [] => Raise (IndexError "list index out of range")
  end.

(** [run_verbose(args, **kwargs)]:
<<
    print("+ {}".format(subprocess.list2cmdline(args)))
    if 'check' not in kwargs.keys():
        kwargs['check'] = True
    if kwargs.pop('capture_output', False):
        kwargs['stdout'] = subprocess.PIPE
        kwargs['stderr'] = subprocess.PIPE
    try:
        process = subprocess.run(args, **kwargs)
    except subprocess.CalledProcessError:
        fatal("Error running command " + args[0])
    return process
>> *)
Definition run_verbose (args : list string) (kw : kwargs) : M W completed :=
  print ("+ " +:+ list2cmdline args) ;;;
  let check := match kw_check kw with Some c => c | None => true end in
  let redirect (o : option stdio) := match o with Some x => x | None => Inherit end in
  let '(out, err) :=
    match kw_capture_output kw with
    | Some true => (Pipe, Pipe)
    | _ => (redirect (kw_stdout kw), redirect (kw_stderr kw))
    end in
  try_except (run args check out err)
    (fun e =>
       match e with
       | CalledProcessError _ _ =>
           Some (match first_arg args with
                 | Ok a => fatal ("Error running command " +:+ a)
                 | Raise x => raise x
                 end)
       | _ => None
       end).

End WithOS.
End Runner.

(** ** OSTree commit importer (cmdlib.py, lines 180-198) *)

Module Importer.
Import Py Proc.

Definition init_cmd (repo : string) : list string :=
  ["ostree"; "init"; "--repo"; repo; "--mode=archive"].

Definition show_cmd (repo commit : string) : list string :=
  ["ostree"; "show"; "--repo"; repo; commit].

Definition tar_cmd (d tarfile : string) : list string :=
  ["tar"; "-C"; d; "-xf"; tarfile].

Definition pull_cmd (repo d commit : string) : list string :=
  ["ostree"; "pull-local"; "--repo"; repo; d; commit].

(** [os.path.join(repo, f'state/{commit}.commitpartial')] *)
Definition commitpartial (repo commit : string) : string :=
  PosixPath.join repo ("state/" +:+ commit +:+ ".commitpartial").

(** What the four commands leave in the log: only the existence check
    has its output suppressed. *)
Definition ev_init (repo : string) : event :=
  EvSpawn (init_cmd repo) Inherit Inherit.

Definition ev_show (repo commit : string) : event :=
  EvSpawn (show_cmd repo commit) DevNull DevNull.

Definition ev_tar (d tarfile : string) : event :=
  EvSpawn (tar_cmd d tarfile) Inherit Inherit.

Definition ev_pull (repo d commit : string) : event :=
  EvSpawn (pull_cmd repo d commit) Inherit Inherit.

Section WithOS.
Context {W : Type} `{OS W}.
Local Open Scope proc_scope.

(** [import_ostree_commit(repo, commit, tarfile, force=False)]:
<<
    subprocess.check_call(['ostree', 'init', '--repo', repo, '--mode=archive'])
    commitpartial = os.path.join(repo, f'state/{commit}.commitpartial')
    if (subprocess.call(['ostree', 'show', '--repo', repo, commit],
                        stdout=subprocess.DEVNULL,
                        stderr=subprocess.DEVNULL) == 0
            and not os.path.isfile(commitpartial)
            and not force):
        return
    with tempfile.TemporaryDirectory(dir=repo) as d:
        subprocess.check_call(['tar', '-C', d, '-xf', tarfile])
        subprocess.check_call(['ostree', 'pull-local', '--repo', repo,
                               d, commit])
>>
    The marker test reads the file system and changes nothing, so it is
    made whatever the status of the check; the temporary directory is
    removed when the block is left, normally or by an exception. *)
Definition import_ostree_commit (repo commit tarfile : string) (force : bool)
  : M W unit :=
  check_call (init_cmd repo) ;;;
  rc <- call (show_cmd repo commit) DevNull DevNull ;;
  partial <- isfile (commitpartial repo commit) ;;
  if (rc =? 0) && negb partial && negb force then ret tt
  else
    d <- mkdtemp repo ;;
    finally
      (check_call (tar_cmd d tarfile) ;;;
       check_call (pull_cmd repo d commit) ;;;
       ret tt)
      (os_rmtree d).

End WithOS.

(** *** A small world to run the importer in

    One repository and one commit.  The tools behave as configured:
    [ostree init] exits with [init_rc]; in a repository that cannot be
    initialised every other [ostree] command fails; [ostree show] tells
    whether the commit is there; [tar] exits with [tar_rc]; a
    [pull-local] that succeeds leaves the commit complete, one that fails
    leaves it partial. *)
Record toy : Type := {
  init_rc : Z;
  tar_rc : Z;
  pull_rc : Z;
  present : bool;
  partial : bool
}.

Definition toy_spawn (args : list string) (w : toy) : outcome * toy :=
  match args with
  | prog :: verb :: _ =>
      if String.eqb prog "tar" then (Exited (tar_rc w) EmptyString EmptyString, w)
      else if negb (String.eqb prog "ostree") then (Exited 127 EmptyString EmptyString, w)
      else if String.eqb verb "init" then (Exited (init_rc w) EmptyString EmptyString, w)
      else if negb (init_rc w =? 0) then (Exited 1 EmptyString EmptyString, w)
      else if String.eqb verb "show" then
        (Exited (if present w then 0 else 1) EmptyString EmptyString, w)
      else if String.eqb verb "pull-local" then
        if pull_rc w =? 0
        then (Exited 0 EmptyString EmptyString,
              {| init_rc := init_rc w; tar_rc := tar_rc w; pull_rc := pull_rc w;
                 present := true; partial := false |})
        else (Exited (pull_rc w) EmptyString EmptyString,
              {| init_rc := init_rc w; tar_rc := tar_rc w; pull_rc := pull_rc w;
                 present := present w; partial := true |})
      else (Exited 1 EmptyString EmptyString, w)
  | _ => (Exited 127 EmptyString EmptyString, w)
  end.

#[export] Instance toy_os : OS toy := {|
  os_spawn := toy_spawn;
  os_isfile := fun _ w => partial w;
  os_mkdtemp := fun dir w => (PosixPath.join dir "tmpx", w);
  os_rmtree := fun _ w => w
|}.

(** In the small world the commit is complete when the repository
    initialises, the commit is present and no marker is left. *)
Definition toy_complete (w : toy) : Prop :=
  init_rc w = 0 /\ present w = true /\ partial w = false.

Definition absent_commit : toy :=
  {| init_rc := 0; tar_rc := 0; pull_rc := 0; present := false; partial := false |}.

Definition stored_commit : toy :=
  {| init_rc := 0; tar_rc := 0; pull_rc := 0; present := true; partial := false |}.

Definition failing_tar : toy :=
  {| init_rc := 0; tar_rc := 2; pull_rc := 0; present := false; partial := false |}.

Definition broken_repo : toy :=
  {| init_rc := 1; tar_rc := 0; pull_rc := 0; present := false; partial := false |}.

End Importer.

(** ** Removing a file (cmdlib.py, lines 153-163) *)

Module Remover.
Import Py Fs.

(** [os.unlink(path)]: the name of a regular file is removed and its
    bytes are freed; a directory is refused; a name that is not there is an
    error. *)
Definition unlink (path : string) (d : fs) : result unit * fs :=
  match files d !! path with
  | Some fl =>
      (Ok tt, {| files := delete path (files d);
                 dirs := dirs d;
                 free := (free d + String.length (f_data fl))%nat |})
  | None =>
      if bool_decide (path ∈ dirs d)
      then (Raise (IsADirectoryError path), d)
      else (Raise (FileNotFoundError path), d)
  end.

(** [rm_allow_noent(path)]:
<<
    try:
        os.unlink(path)
    except FileNotFoundError:
        pass
>> *)
Definition rm_allow_noent (path : string) (d : fs) : result unit * fs :=
  match unlink path d with
  | (Raise (FileNotFoundError _), d') => (Ok tt, d')
  | outcome => outcome
  end.

End Remover.

(** ** Notions used to state the shape and the order of timestamps *)

Module TimestampOrder.
Import Timestamp.

(** A pattern for timestamps: [d] in the pattern stands for a decimal
    digit, every other character for itself. *)
Fixpoint matches (pattern s : string) : bool :=
  match pattern, s with
  | EmptyString, EmptyString => true
  | String p pattern', String c s' =>
      (if Ascii.eqb p "d"
       then (48 <=? nat_of_ascii c)%nat && (nat_of_ascii c <=? 57)%nat
       else Ascii.eqb p c)
      && matches pattern' s'
  | _, _ => false
  end.

(** The order of two instants given by their calendar fields. *)
Definition then_compare (c rest : comparison) : comparison :=
  match c with
  | Eq => rest
  | _ => c
  end.

Definition chronological (t1 t2 : datetime) : comparison :=
  then_compare (Nat.compare (dt_year t1) (dt_year t2))
    (then_compare (Nat.compare (dt_month t1) (dt_month t2))
       (then_compare (Nat.compare (dt_day t1) (dt_day t2))
          (then_compare (Nat.compare (dt_hour t1) (dt_hour t2))
             (then_compare (Nat.compare (dt_minute t1) (dt_minute t2))
                (Nat.compare (dt_second t1) (dt_second t2)))))).

(** A timestamp whose year has four digits; the other fields have at
    most two, as in any [datetime]. *)
Definition four_digit_year (t : datetime) : Prop :=
  (1000 <= dt_year t < 10 * 1000)%nat /\
  (dt_month t < 100)%nat /\ (dt_day t < 100)%nat /\ (dt_hour t < 100)%nat /\
  (dt_minute t < 100)%nat /\ (dt_second t < 100)%nat.

Definition eve_2020 : datetime :=
  {| dt_year := 2020; dt_month := 12; dt_day := 31;
     dt_hour := 23; dt_minute := 59; dt_second := 59; dt_tzinfo := Some utc |}.

End TimestampOrder.

(** ** The chunks read by [sha256sum_file] *)

Module HasherTrace.
Import Py Fs Hasher.

(** The values that [iter(lambda: f.read(n), b'')] yields, in order:
    the reads up to, and without, the first empty one. *)
Fixpoint read_chunks (fuel n : nat) (rest : string) : option (list string) :=
  match fuel with
  | O => None
  | S fuel' =>
      let '(b, rest') := read n rest in
      match b with
      | EmptyString => Some []
      | _ => option_map (cons b) (read_chunks fuel' n rest')
      end
  end.

(** [b''.join(chunks)] *)
Definition join_chunks (chunks : list string) : string :=
  fold_right String.append EmptyString chunks.

(** A character of a lowercase hexadecimal number. *)
Definition is_lower_hex (c : ascii) : bool :=
  let n := nat_of_ascii c in
  ((48 <=? n)%nat && (n <=? 57)%nat) || ((97 <=? n)%nat && (n <=? 102)%nat).

Fixpoint all_lower_hex (s : string) : bool :=
  match s with
  | EmptyString => true
  | String c s' => is_lower_hex c && all_lower_hex s'
  end.

Definition sample_blob_fs : fs :=
  {| files := {["/srv/blob" := {| f_data := "0123456789"; f_mode := 420 |}]};
     dirs := {["/srv"]}; free := 0 |}.

End HasherTrace.

(** ** Values that [json.dump] accepts, and what JSON keeps of them *)

Module JsonValues.
Import Py Json.

(** The values [json.dump] accepts: anything without an object of an
    unknown class, tuples included; in a dictionary the keys are distinct
    (as in any Python [dict]). *)
Fixpoint serializable (v : pyval) : bool :=
  match v with
  | PyNone | PyBool _ | PyInt _ | PyStr _ => true
  | PyList l | PyTuple l => forallb serializable l
  | PyDict d =>
      forallb (fun kv : string * pyval => serializable (snd kv)) d
      && bool_decide (NoDup (map fst d))
  | PyObject _ => false
  end.

(** The value with every tuple replaced by the list of its items: what
    JSON keeps of it. *)
Fixpoint as_loaded (v : pyval) : pyval :=
  match v with
  | PyList l | PyTuple l => PyList (map as_loaded l)
  | PyDict d => PyDict (map (fun kv : string * pyval => (fst kv, as_loaded (snd kv))) d)
  | _ => v
  end.

(** Printable ASCII, or a line feed. *)
Definition is_plain (c : ascii) : bool :=
  let n := nat_of_ascii c in
  ((32 <=? n)%nat && (n <=? 126)%nat) || (n =? 10)%nat.

Fixpoint all_plain (s : string) : bool :=
  match s with
  | EmptyString => true
  | String c s' => is_plain c && all_plain s'
  end.

Definition nested_sample : pyval :=
  PyDict [("range", PyTuple [PyInt 1; PyInt 2]); ("name", PyStr "fcos")].

End JsonValues.

(** ** Arguments that [subprocess.list2cmdline] leaves as they are *)

Module RunnerWords.
Import Runner.

(** An argument that [list2cmdline] has no reason to quote: not empty,
    without space, tab or double quote. *)
Definition plain_word (arg : string) : bool :=
  negb (String.eqb arg EmptyString)
  && negb (Str.contains_char " " arg)
  && negb (Str.contains_char "009" arg)
  && negb (Str.contains_char dquote arg).

End RunnerWords.

(** ** A machine without programs *)

Module BareWorld.
Import Py Proc.

(** A machine on which no program is installed: nothing can be
    started.  The state counts the temporary directories that exist. *)
Definition bare_spawn (args : list string) (n : nat) : outcome * nat :=
  (NotStarted (FileNotFoundError (hd EmptyString args)), n).

#[export] Instance bare_os : OS nat := {|
  os_spawn := bare_spawn;
  os_isfile := fun _ _ => false;
  os_mkdtemp := fun dir n => (PosixPath.join dir "tmpx", S n);
  os_rmtree := fun _ n => Nat.pred n
|}.

End BareWorld.


(** ** Informational messages (cmdlib.py, lines 125-132) *)

Module Reporter.

(** The text written so far to the two standard streams of the
    process. *)
Record streams : Type := {
  stdout : string;
  stderr : string
}.

(** [info(msg)]: [sys.stderr.write(f"info: {msg}")] *)
Definition info (msg : string) (s : streams) : streams :=
  {| stdout := stdout s; stderr := stderr s +:+ "info: " +:+ msg |}.

(** Successive calls, one per message. *)
Definition infos (msgs : list string) (s : streams) : streams :=
  fold_left (fun s msg => info msg s) msgs s.

(** The number of line feeds in a text. *)
Fixpoint count_lines (s : string) : nat :=
  match s with
  | EmptyString => 0%nat
  | String c s' => ((if Ascii.eqb c "010" then 1 else 0) + count_lines s')%nat
  end.

End Reporter.

(* ===================================================================== *)
(** * Part II: theorems                                                   *)
(* ===================================================================== *)

(** ** Strings *)

Module StrFacts.

Lemma append_nil_r (s : string) : s +:+ EmptyString = s.
Proof. induction s as [|c s IH]; simpl; [reflexivity | f_equal; exact IH]. Qed.

Lemma append_assoc (a b c : string) : (a +:+ b) +:+ c = a +:+ (b +:+ c).
Proof. induction a as [|x a IH]; simpl; [reflexivity | f_equal; exact IH]. Qed.

Lemma length_append (a b : string) :
  String.length (a +:+ b) = (String.length a + String.length b)%nat.
Proof. induction a as [|x a IH]; simpl; [reflexivity | f_equal; exact IH]. Qed.

Lemma take_drop (n : nat) (s : string) : Str.take n s +:+ Str.drop n s = s.
Proof.
  revert s; induction n as [|n IH]; intros [|c s]; simpl; try reflexivity.
  f_equal. apply IH.
Qed.

Lemma length_drop (n : nat) (s : string) :
  String.length (Str.drop n s) = (String.length s - n)%nat.
Proof.
  revert s; induction n as [|n IH]; intros [|c s]; simpl; try reflexivity.
  apply IH.
Qed.

Lemma length_take (n : nat) (s : string) :
  String.length (Str.take n s) = Nat.min n (String.length s).
Proof.
  revert s; induction n as [|n IH]; intros [|c s]; simpl; try reflexivity.
  f_equal. apply IH.
Qed.

Lemma take_all (n : nat) (s : string) :
  (String.length s <= n)%nat -> Str.take n s = s.
Proof.
  revert s; induction n as [|n IH]; intros [|c s] Hlen; simpl in *; try reflexivity.
  - lia.
  - rewrite IH; [reflexivity | lia].
Qed.

Lemma drop_all (n : nat) (s : string) :
  (String.length s <= n)%nat -> Str.drop n s = EmptyString.
Proof.
  revert s; induction n as [|n IH]; intros [|c s] Hlen; simpl in *; try reflexivity.
  - lia.
  - apply IH; lia.
Qed.

(** [s.startswith(p)] holds exactly when [s] is [p] followed by
    something. *)
Lemma startswith_iff (s p : string) :
  Str.startswith s p = true <-> exists t, s = p +:+ t.
Proof.
  unfold Str.startswith. revert s.
  induction p as [|a p IH]; intros s.
  - split; [intros _; now exists s | intros _; now destruct s].
  - destruct s as [|b s]; simpl.
    + split; [discriminate | intros [t Ht]; discriminate].
    + destruct (ascii_dec a b) as [->|Hne].
      * rewrite IH. split; intros [t Ht]; exists t; congruence.
      * split; [discriminate | intros [t Ht]; congruence].
Qed.

End StrFacts.

(** ** Paths *)

Module PosixPathFacts.

(** [s.rfind(c)] is [-1] (here: the default) when [c] does not occur,
    and otherwise the index of an occurrence after which there is none. *)
Lemma rfind_from_spec (c : ascii) (s : string) :
  forall i last,
    (Str.rfind_from c s i last = last /\ Str.contains_char c s = false) \/
    (exists k : nat,
        Str.rfind_from c s i last = i + Z.of_nat k /\
        String.get k s = Some c /\
        Str.contains_char c (Str.drop (S k) s) = false).
Proof.
  induction s as [|a s IH]; intros i last; cbn [Str.rfind_from Str.contains_char].
  - now left.
  - destruct (IH (i + 1) (if Ascii.eqb a c then i else last))
      as [[Hr Hc]|(k & Hr & Hg & Hc)].
    + destruct (Ascii.eqb_spec a c) as [->|Hne].
      * right. exists 0%nat. rewrite Hr. cbn. split; [lia|]. now split.
      * left. now rewrite Hr, Hc.
    + right. exists (S k). rewrite Hr. split; [lia|]. now split.
Qed.

Lemma take_ends_with (c : ascii) (k : nat) (s : string) :
  String.get k s = Some c -> Str.endswith_char (Str.take (S k) s) c = true.
Proof.
  revert s. induction k as [|k IH]; intros [|a s] Hg; try discriminate.
  - cbn in Hg. inversion Hg; subst. cbn. apply Ascii.eqb_refl.
  - cbn [String.get] in Hg. specialize (IH s Hg).
    change (Str.take (S (S k)) (String a s)) with (String a (Str.take (S k) s)).
    destruct s as [|b s]; [discriminate|].
    cbn [Str.take] in *. exact IH.
Qed.

(** [os.path.basename]: the path is a head, empty or ending with a
    slash, followed by the basename, which has no slash. *)
Lemma basename_spec (p : string) :
  Str.contains_char PosixPath.sep (PosixPath.basename p) = false /\
  exists head,
    p = head +:+ PosixPath.basename p /\
    (head = EmptyString \/ Str.endswith_char head PosixPath.sep = true).
Proof.
  unfold PosixPath.basename, Str.rfind.
  destruct (rfind_from_spec PosixPath.sep p 0 (-1)) as [[Hr Hc]|(k & Hr & Hg & Hc)];
    rewrite Hr.
  - cbn [Z.add Z.to_nat Str.drop]. split; [exact Hc|].
    exists EmptyString. split; [reflexivity | now left].
  - replace (Z.to_nat (0 + Z.of_nat k + 1)) with (S k) by lia.
    split; [exact Hc|].
    exists (Str.take (S k) p). split.
    + symmetry. apply StrFacts.take_drop.
    + right. now apply take_ends_with.
Qed.

End PosixPathFacts.

(** ** Ignition version *)

Module IgnitionSpec.
Import Ignition.

Lemma version_cases (path : string) :
  disk_ignition_version path =
  if Str.startswith_any (PosixPath.basename path) legacy_prefixes
  then "2.2.0" else "3.0.0".
Proof. reflexivity. Qed.

(** C10.  [disk_ignition_version path] is ["2.2.0"] exactly when the
    basename of [path] (what follows its last slash, see
    [PosixPathFacts.basename_spec]) starts with ["rhcos-41"], ["rhcos-42"]
    or ["rhcos-43"], and it is ["3.0.0"] for every other path. *)
Theorem disk_ignition_version_table (path : string) :
  let bn := PosixPath.basename path in
  let legacy :=
    (exists t, bn = "rhcos-41" +:+ t) \/
    (exists t, bn = "rhcos-42" +:+ t) \/
    (exists t, bn = "rhcos-43" +:+ t) in
  (disk_ignition_version path = "2.2.0" <-> legacy) /\
  (disk_ignition_version path = "3.0.0" <-> ~ legacy).
Proof.
  intros bn legacy. rewrite version_cases. fold bn.
  assert (Hany : Str.startswith_any bn legacy_prefixes = true <-> legacy).
  { unfold Str.startswith_any, legacy_prefixes, legacy. simpl.
    rewrite !orb_true_iff, !StrFacts.startswith_iff.
    intuition discriminate. }
  destruct (Str.startswith_any bn legacy_prefixes).
  - split; split; intros Hx; try reflexivity; try discriminate.
    + now apply Hany.
    + exfalso. apply Hx. now apply Hany.
  - split; split; intros Hx; try reflexivity; try discriminate.
    + apply Hany in Hx. discriminate.
    + intros Hl. apply Hany in Hl. discriminate.
Qed.

(** The table on a path whose directory, but not its basename, carries
    a legacy prefix, and on a legacy image. *)
Example disk_ignition_version_examples :
  disk_ignition_version "/srv/rhcos-42/fcos.qcow2" = "3.0.0" /\
  disk_ignition_version "/srv/builds/rhcos-42.80-qemu.qcow2" = "2.2.0" /\
  disk_ignition_version "rhcos-44.81-qemu.qcow2" = "3.0.0".
Proof. repeat split. Qed.

End IgnitionSpec.

(** ** Architecture cache *)

Module ArchCacheSpec.
Import ArchCache.

Section WithLookup.
Variable lookup : nat -> string.

(** Once set, the cached value is returned and nothing changes. *)
Lemma get_basearch_cached (p : proc) (s : string) :
  saved p = Some s -> get_basearch lookup p = (s, p).
Proof. intros Hs. unfold get_basearch. now rewrite Hs. Qed.

Lemma calls_cached (n : nat) (p : proc) (s : string) :
  saved p = Some s -> calls lookup n p = (repeat s n, p).
Proof.
  intros Hs. induction n as [|n IH]; simpl.
  - reflexivity.
  - rewrite (get_basearch_cached p s Hs), IH. reflexivity.
Qed.

(** The first call of a process queries once and stores the answer. *)
Lemma get_basearch_first :
  get_basearch lookup fresh_proc =
  (lookup 0%nat, {| saved := Some (lookup 0%nat); queries := 1 |}).
Proof. reflexivity. Qed.

End WithLookup.

(** C9.  Whatever the external lookup answers and however often
    [get_basearch] is called in a process: after the first [n + 1] calls
    the lookup has been queried exactly once and every call has returned
    the answer to that query; [m] further calls return the same string
    and leave the process state as it is, so there is no further query and
    the cached value does not change. *)
Theorem get_basearch_memoised (lookup : nat -> string) (n m : nat) :
  let cached := {| saved := Some (lookup 0%nat); queries := 1 |} in
  calls lookup (S n) fresh_proc = (repeat (lookup 0%nat) (S n), cached) /\
  calls lookup m cached = (repeat (lookup 0%nat) m, cached).
Proof.
  intros cached. subst cached. split.
  - cbn [calls]. rewrite get_basearch_first.
    rewrite (calls_cached lookup n {| saved := Some (lookup 0%nat); queries := 1 |}
               (lookup 0%nat)) by reflexivity.
    reflexivity.
  - now apply calls_cached.
Qed.

(** A lookup that answers differently at every query: the callers still
    see the first answer only. *)
Example get_basearch_changing_lookup :
  let lookup n := match n with O => "x86_64" | _ => "aarch64" end in
  fst (calls lookup 3 fresh_proc) = ["x86_64"; "x86_64"; "x86_64"].
Proof. reflexivity. Qed.

End ArchCacheSpec.

(** ** Timestamp formatter *)

Module TimestampSpec.
Import Py Timestamp.

Example rfc3339_time_2021 (now : datetime) :
  rfc3339_time now (Some (new_year_2021 (Some utc))) = Ok "2021-01-01T00:00:00Z".
Proof. reflexivity. Qed.



End TimestampSpec.

(** ** Content hasher *)

Module HasherSpec.
Import Py Fs Hasher.

(** The implementation of SHA-256 on the test vectors of FIPS 180-4:
    one block, and a message that needs two. *)
Example sha256_abc :
  Sha256.hexdigest "abc"
  = "ba7816bf8f01cfea414140de5dae2223b00361a396177a9cb410ff61f20015ad".
Proof. vm_compute. reflexivity. Qed.

Example sha256_two_blocks :
  Sha256.hexdigest "abcdbcdecdefdefgefghfghighijhijkijkljklmklmnlmnomnopnopq"
  = "248d6a61d20638b8e5c026930c3e6039a33ce45964ff2167f6ecedd419db06c1".
Proof. vm_compute. reflexivity. Qed.

Example sha256_constants :
  nth 0 Sha256.H0 0 = 0x6a09e667 /\ nth 7 Sha256.H0 0 = 0x5be0cd19 /\
  nth 0 Sha256.K 0 = 0x428a2f98 /\ nth 63 Sha256.K 0 = 0xc67178f2 /\
  length Sha256.K = 64%nat.
Proof. repeat split. Qed.

Lemma sha256_empty :
  Sha256.hexdigest EmptyString
  = "e3b0c44298fc1c149afbf4c8996fb92427ae41e4649b934ca495991b7852b855".
Proof. vm_compute. reflexivity. Qed.

Lemma chunk_size_pos : (0 < chunk_size)%nat.
Proof. unfold chunk_size. lia. Qed.

(** A read returns at most the bytes asked for: the file is never held
    in memory as a whole. *)
Lemma read_at_most (n : nat) (rest : string) :
  (String.length (fst (read n rest)) <= n)%nat.
Proof. unfold read; simpl. rewrite StrFacts.length_take. lia. Qed.

Lemma take_empty (n : nat) (s : string) :
  (0 < n)%nat -> Str.take n s = EmptyString -> s = EmptyString.
Proof. destruct n; [lia|]. destruct s; [reflexivity | discriminate]. Qed.

(** The read loop ends, and when it does the digest object has been fed
    the whole of what was unread, in order. *)
Lemma feed_chunks_all (n : nat) (Hn : (0 < n)%nat) (fuel : nat) :
  forall (h : sha256_obj) (rest : string),
    (String.length rest < fuel)%nat ->
    feed_chunks fuel n h rest = Some {| fed := fed h +:+ rest |}.
Proof.
  induction fuel as [|fuel IH]; intros h rest Hlen; [lia|].
  cbn [feed_chunks read].
  destruct (Str.take n rest) as [|c b] eqn:Hb.
  - apply take_empty in Hb; [|assumption]. subst rest.
    rewrite StrFacts.append_nil_r. now destruct h.
  - rewrite IH.
    + unfold update; cbn [fed]. rewrite StrFacts.append_assoc.
      rewrite <- Hb, StrFacts.take_drop. reflexivity.
    + rewrite StrFacts.length_drop.
      destruct n; [lia|]. destruct rest; [discriminate|]. simpl in *. lia.
Qed.

(** C8.  For a file that exists, [sha256sum_file] returns (its read
    loop of 128 KiB chunks ends) the lowercase hexadecimal SHA-256 digest of
    the whole content; for a file of length zero this is the digest of the
    empty string, [e3b0c442...7852b855]. *)
Theorem sha256sum_file_digest (d : fs) (path : string) (fl : file)
    (Hfile : files d !! path = Some fl) :
  sha256sum_file path d = Some (Ok (Sha256.hexdigest (f_data fl))) /\
  (f_data fl = EmptyString ->
   sha256sum_file path d
   = Some (Ok "e3b0c44298fc1c149afbf4c8996fb92427ae41e4649b934ca495991b7852b855")).
Proof.
  assert (Hsum : sha256sum_file path d = Some (Ok (Sha256.hexdigest (f_data fl)))).
  { unfold sha256sum_file. rewrite Hfile.
    rewrite (feed_chunks_all chunk_size chunk_size_pos) by lia.
    reflexivity. }
  split; [exact Hsum|].
  intros Hempty. rewrite Hsum, Hempty, sha256_empty. reflexivity.
Qed.

Lemma sha256sum_file_digest_witness :
  sha256sum_file "/srv/empty" empty_file_fs
  = Some (Ok "e3b0c44298fc1c149afbf4c8996fb92427ae41e4649b934ca495991b7852b855").
Proof.
  apply (proj2 (sha256sum_file_digest empty_file_fs "/srv/empty"
                  {| f_data := EmptyString; f_mode := 420 |} eq_refl)).
  reflexivity.
Defined.

End HasherSpec.

(** ** Command runner *)

Module RunnerSpec.
Import Py Proc Runner.

Section WithOS.
Context {W : Type} `{OS W}.

(** [fatal] never returns: it raises [SystemExit] with its message and
    touches nothing. *)
Lemma fatal_exits {A : Type} (msg : string) (st : W * list event) :
  fatal (A := A) msg st = (Raise (SystemExit msg), st).
Proof. reflexivity. Qed.


End WithOS.

#[local] Existing Instance Importer.toy_os.

(** A failing [tar] in the small world of the importer: default
    checking, then [check=False] with captured output. *)
Example run_verbose_failing_tar :
  let w := {| Importer.init_rc := 0; Importer.tar_rc := 2; Importer.pull_rc := 0;
              Importer.present := false; Importer.partial := false |} in
  run_verbose ["tar"; "-xf"; "a b.tar"] no_kwargs (w, [])
  = (Raise (SystemExit "Error running command tar"),
     (w, [EvPrint ("+ tar -xf " +:+ String dquote ("a b.tar" +:+ String dquote EmptyString));
          EvSpawn ["tar"; "-xf"; "a b.tar"] Inherit Inherit])) /\
  fst (run_verbose ["tar"; "-xf"; "a b.tar"]
         {| kw_check := Some false; kw_capture_output := Some true;
            kw_stdout := None; kw_stderr := None |} (w, []))
  = Ok {| cp_args := ["tar"; "-xf"; "a b.tar"]; cp_returncode := 2;
          cp_stdout := Some EmptyString; cp_stderr := Some EmptyString |}.
Proof. split; reflexivity. Qed.

End RunnerSpec.

(** ** OSTree commit importer *)

Module ImporterSpec.
Import Py Proc Importer.

Section WithOS.
Context {W : Type} `{OS W}.

(** [check_call] on a command that ran. *)
Lemma check_call_exited (prog : string) (rest : list string) (w w' : W)
    (log : list event) (rc : Z) (o e : string) :
  os_spawn (prog :: rest) w = (Exited rc o e, w') ->
  check_call (prog :: rest) (w, log)
  = (if rc =? 0 then Ok 0 else Raise (CalledProcessError rc (prog :: rest)),
     (w', (log ++ [EvSpawn (prog :: rest) Inherit Inherit])%list)).
Proof.
  intros Hs. unfold check_call, call, bind, run, ret, raise. rewrite Hs.
  cbn. now destruct (rc =? 0).
Qed.

Lemma check_call_not_started (prog : string) (rest : list string) (w w' : W)
    (log : list event) (x : pyexc) :
  os_spawn (prog :: rest) w = (NotStarted x, w') ->
  check_call (prog :: rest) (w, log)
  = (Raise x, (w', (log ++ [EvSpawn (prog :: rest) Inherit Inherit])%list)).
Proof.
  intros Hs. unfold check_call, call, bind, run, ret, raise. now rewrite Hs.
Qed.

(** The silent existence check: its status is a value, never an error. *)
Lemma call_show_exited (repo commit : string) (w w' : W) (log : list event)
    (rc : Z) (o e : string) :
  os_spawn (show_cmd repo commit) w = (Exited rc o e, w') ->
  call (show_cmd repo commit) DevNull DevNull (w, log)
  = (Ok rc, (w', (log ++ [ev_show repo commit])%list)).
Proof.
  intros Hs. unfold call, bind, run, ret, show_cmd in *. now rewrite Hs.
Qed.

(** The call when the repository initialises and the existence check
    runs: the early return, or extraction and pull in a temporary
    directory that is removed afterwards. *)
Lemma import_after_show (repo commit tarfile : string) (force : bool)
    (w w1 w2 : W) (log : list event) (o e o' e' : string) (rc : Z) :
  os_spawn (init_cmd repo) w = (Exited 0 o e, w1) ->
  os_spawn (show_cmd repo commit) w1 = (Exited rc o' e', w2) ->
  import_ostree_commit repo commit tarfile force (w, log)
  = let log2 := (log ++ [ev_init repo; ev_show repo commit])%list in
    if (rc =? 0) && negb (os_isfile (commitpartial repo commit) w2) && negb force
    then (Ok tt, (w2, log2))
    else
      let '(d, w3) := os_mkdtemp repo w2 in
      let '(r, (w', log')) :=
        bind (check_call (tar_cmd d tarfile))
          (fun _ => bind (check_call (pull_cmd repo d commit)) (fun _ => ret tt))
          (w3, log2) in
      (r, (os_rmtree d w', log')).
Proof.
  intros Hinit Hshow.
  unfold import_ostree_commit.
  unfold bind at 1. unfold init_cmd in Hinit |- *.
  rewrite (check_call_exited _ _ _ _ _ _ _ _ Hinit). cbn [Z.eqb].
  unfold bind at 1. rewrite (call_show_exited _ _ _ _ _ _ _ _ Hshow).
  unfold bind at 1. unfold isfile at 1. cbn iota beta.
  rewrite <- app_assoc. cbn [app].
  destruct ((rc =? 0) && negb (os_isfile (commitpartial repo commit) w2) && negb force).
  - reflexivity.
  - unfold bind at 1, mkdtemp at 1, finally.
    destruct (os_mkdtemp repo w2) as [d w3]. reflexivity.
Qed.

(** The extraction has run: a failure ends the call (the temporary
    directory is removed all the same), a success hands over to the pull. *)
Lemma import_after_tar (repo commit tarfile : string) (force : bool)
    (w w1 w2 w3 w4 : W) (log : list event) (o e o1 e1 o3 e3 d : string) (rc rc_tar : Z) :
  os_spawn (init_cmd repo) w = (Exited 0 o e, w1) ->
  os_spawn (show_cmd repo commit) w1 = (Exited rc o1 e1, w2) ->
  (rc =? 0) && negb (os_isfile (commitpartial repo commit) w2) && negb force = false ->
  os_mkdtemp repo w2 = (d, w3) ->
  os_spawn (tar_cmd d tarfile) w3 = (Exited rc_tar o3 e3, w4) ->
  import_ostree_commit repo commit tarfile force (w, log)
  = let log3 := (log ++ [ev_init repo; ev_show repo commit; ev_tar d tarfile])%list in
    if rc_tar =? 0
    then let '(r, (w', log')) :=
           bind (check_call (pull_cmd repo d commit)) (fun _ => ret tt) (w4, log3) in
         (r, (os_rmtree d w', log'))
    else (Raise (CalledProcessError rc_tar (tar_cmd d tarfile)), (os_rmtree d w4, log3)).
Proof.
  intros Hinit Hshow Hearly Hmk Htar.
  rewrite (import_after_show _ _ _ _ _ _ _ _ _ _ _ _ _ Hinit Hshow). cbv zeta.
  rewrite Hearly, Hmk. unfold bind at 1. unfold tar_cmd in Htar |- *.
  rewrite (check_call_exited _ _ _ _ _ _ _ _ Htar).
  rewrite <- app_assoc. cbn [app].
  now destruct (rc_tar =? 0).
Qed.

(** The pull has run: its status decides the outcome. *)
Lemma import_after_pull (repo commit tarfile : string) (force : bool)
    (w w1 w2 w3 w4 w5 : W) (log : list event) (o e o1 e1 o3 e3 o5 e5 d : string)
    (rc rc_pull : Z) :
  os_spawn (init_cmd repo) w = (Exited 0 o e, w1) ->
  os_spawn (show_cmd repo commit) w1 = (Exited rc o1 e1, w2) ->
  (rc =? 0) && negb (os_isfile (commitpartial repo commit) w2) && negb force = false ->
  os_mkdtemp repo w2 = (d, w3) ->
  os_spawn (tar_cmd d tarfile) w3 = (Exited 0 o3 e3, w4) ->
  os_spawn (pull_cmd repo d commit) w4 = (Exited rc_pull o5 e5, w5) ->
  import_ostree_commit repo commit tarfile force (w, log)
  = (if rc_pull =? 0 then Ok tt
     else Raise (CalledProcessError rc_pull (pull_cmd repo d commit)),
     (os_rmtree d w5,
      (log ++ [ev_init repo; ev_show repo commit; ev_tar d tarfile;
               ev_pull repo d commit])%list)).
Proof.
  intros Hinit Hshow Hearly Hmk Htar Hpull.
  rewrite (import_after_tar _ _ _ _ _ _ _ _ _ _ _ _ _ _ _ _ _ _ _
             Hinit Hshow Hearly Hmk Htar).
  cbn [Z.eqb]. cbv zeta. unfold bind at 1. unfold pull_cmd in Hpull |- *.
  rewrite (check_call_exited _ _ _ _ _ _ _ _ Hpull).
  rewrite <- app_assoc. cbn [app].
  now destruct (rc_pull =? 0).
Qed.

(** A failing [ostree init] ends the call at once. *)
Lemma import_init_failed (repo commit tarfile : string) (force : bool)
    (w w1 : W) (log : list event) (rc : Z) (o e : string) :
  os_spawn (init_cmd repo) w = (Exited rc o e, w1) -> rc <> 0 ->
  import_ostree_commit repo commit tarfile force (w, log)
  = (Raise (CalledProcessError rc (init_cmd repo)), (w1, (log ++ [ev_init repo])%list)).
Proof.
  intros Hinit Hrc. unfold import_ostree_commit, bind at 1.
  unfold init_cmd in Hinit |- *.
  rewrite (check_call_exited _ _ _ _ _ _ _ _ Hinit).
  destruct (Z.eqb_spec rc 0); [contradiction | reflexivity].
Qed.

Lemma import_init_not_started (repo commit tarfile : string) (force : bool)
    (w w1 : W) (log : list event) (x : pyexc) :
  os_spawn (init_cmd repo) w = (NotStarted x, w1) ->
  import_ostree_commit repo commit tarfile force (w, log)
  = (Raise x, (w1, (log ++ [ev_init repo])%list)).
Proof.
  intros Hinit. unfold import_ostree_commit, bind at 1.
  unfold init_cmd in Hinit |- *.
  now rewrite (check_call_not_started _ _ _ _ _ _ Hinit).
Qed.

(** The commit is there, complete, and [force] is false: nothing is
    spawned beyond [ostree init] and the existence check, and the call
    returns as soon as the repository has initialised. *)
Lemma import_noop (repo commit tarfile : string) (w w2 : W) (log : list event)
    (o e : string) :
  os_spawn (show_cmd repo commit) (snd (os_spawn (init_cmd repo) w)) = (Exited 0 o e, w2) ->
  os_isfile (commitpartial repo commit) w2 = false ->
  let outcome := import_ostree_commit repo commit tarfile false (w, log) in
  (snd (snd outcome) = (log ++ [ev_init repo])%list \/
   snd (snd outcome) = (log ++ [ev_init repo; ev_show repo commit])%list) /\
  (forall o0 e0, fst (os_spawn (init_cmd repo) w) = Exited 0 o0 e0 ->
     outcome = (Ok tt, (w2, (log ++ [ev_init repo; ev_show repo commit])%list))).
Proof.
  intros Hshow Hmarker outcome. subst outcome.
  destruct (os_spawn (init_cmd repo) w) as [[rc o0 e0|x] w1] eqn:Hinit;
    cbn [fst snd] in *.
  - destruct (Z.eq_dec rc 0) as [->|Hrc].
    + rewrite (import_after_show _ _ _ _ _ _ _ _ _ _ _ _ _ Hinit Hshow).
      rewrite Hmarker. cbn. split; [now right|]. reflexivity.
    + rewrite (import_init_failed _ _ _ _ _ _ _ _ _ _ Hinit Hrc). cbn.
      split; [now left|]. intros o1 e1 Heq. congruence.
  - rewrite (import_init_not_started _ _ _ _ _ _ _ _ Hinit). cbn.
    split; [now left|]. intros o1 e1 Heq. discriminate.
Qed.

(** A call that returns normally has either taken the early return or
    seen [pull-local] succeed. *)
Lemma import_ok_inv (repo commit tarfile : string) (force : bool)
    (w w' : W) (log log' : list event) :
  import_ostree_commit repo commit tarfile force (w, log) = (Ok tt, (w', log')) ->
  (exists o e w1 o1 e1,
     os_spawn (init_cmd repo) w = (Exited 0 o e, w1) /\
     os_spawn (show_cmd repo commit) w1 = (Exited 0 o1 e1, w') /\
     os_isfile (commitpartial repo commit) w' = false) \/
  (exists d w4 o e w5,
     os_spawn (pull_cmd repo d commit) w4 = (Exited 0 o e, w5) /\
     w' = os_rmtree d w5).
Proof.
  intros Hrun.
  destruct (os_spawn (init_cmd repo) w) as [[rc o e|x] w1] eqn:Hinit.
  2:{ rewrite (import_init_not_started _ _ _ _ _ _ _ _ Hinit) in Hrun. discriminate. }
  destruct (Z.eq_dec rc 0) as [->|Hrc].
  2:{ rewrite (import_init_failed _ _ _ _ _ _ _ _ _ _ Hinit Hrc) in Hrun. discriminate. }
  destruct (os_spawn (show_cmd repo commit) w1) as [[rc1 o1 e1|x] w2] eqn:Hshow.
  2:{ unfold import_ostree_commit, bind at 1 in Hrun.
      unfold init_cmd in Hinit, Hrun.
      rewrite (check_call_exited _ _ _ _ _ _ _ _ Hinit) in Hrun. cbn [Z.eqb] in Hrun.
      unfold bind at 1, call, bind, run, show_cmd in Hrun.
      unfold show_cmd in Hshow. rewrite Hshow in Hrun. discriminate. }
  rewrite (import_after_show _ _ _ _ _ _ _ _ _ _ _ _ _ Hinit Hshow) in Hrun.
  cbv zeta in Hrun.
  destruct ((rc1 =? 0) && negb (os_isfile (commitpartial repo commit) w2) && negb force)
    eqn:Hearly.
  - inversion Hrun; subst. left.
    apply andb_prop in Hearly as [Hearly _]. apply andb_prop in Hearly as [Hrc1 Hm].
    apply Z.eqb_eq in Hrc1. subst rc1. apply negb_true_iff in Hm.
    now exists o, e, w1, o1, e1.
  - right. destruct (os_mkdtemp repo w2) as [d w3].
    unfold bind at 1 in Hrun.
    destruct (os_spawn (tar_cmd d tarfile) w3) as [[rc3 o3 e3|x] w4] eqn:Htar.
    2:{ unfold tar_cmd in Htar, Hrun.
        rewrite (check_call_not_started _ _ _ _ _ _ Htar) in Hrun. discriminate. }
    unfold tar_cmd in Htar, Hrun.
    rewrite (check_call_exited _ _ _ _ _ _ _ _ Htar) in Hrun.
    destruct (rc3 =? 0); [|discriminate].
    unfold bind at 1 in Hrun.
    destruct (os_spawn (pull_cmd repo d commit) w4) as [[rc5 o5 e5|x] w5] eqn:Hpull.
    2:{ unfold pull_cmd in Hpull, Hrun.
        rewrite (check_call_not_started _ _ _ _ _ _ Hpull) in Hrun. discriminate. }
    pose proof Hpull as Hpull'. unfold pull_cmd in Hpull, Hrun.
    rewrite (check_call_exited _ _ _ _ _ _ _ _ Hpull) in Hrun.
    destruct (Z.eqb_spec rc5 0) as [->|]; [|discriminate].
    unfold ret in Hrun. inversion Hrun; subst.
    now exists d, w4, o5, e5, w5.
Qed.

End WithOS.

(** *** Two calls in a row *)

Section Idempotence.
Context {W : Type} `{OS W}.
Variables repo commit tarfile : string.

(** What the OSTree tools guarantee, stated for the worlds in which the
    repository holds the commit in full, [complete]: this is what the
    existence check and the marker test observe; it is what a successful
    [pull-local] establishes (the removal of the extraction directory does
    not undo it); and [ostree init] and [ostree show] succeed there and
    leave the repository as it is. *)
Variable complete : W -> Prop.

Hypothesis complete_observed :
  forall w o e w',
    os_spawn (show_cmd repo commit) w = (Exited 0 o e, w') ->
    os_isfile (commitpartial repo commit) w' = false ->
    complete w'.

Hypothesis complete_pulled :
  forall d w o e w',
    os_spawn (pull_cmd repo d commit) w = (Exited 0 o e, w') ->
    complete (os_rmtree d w').

Hypothesis complete_init :
  forall w, complete w ->
    exists o e w', os_spawn (init_cmd repo) w = (Exited 0 o e, w') /\ complete w'.

Hypothesis complete_show :
  forall w, complete w ->
    exists o e w', os_spawn (show_cmd repo commit) w = (Exited 0 o e, w') /\ complete w'.

Hypothesis complete_unmarked :
  forall w, complete w -> os_isfile (commitpartial repo commit) w = false.

Lemma import_ok_complete (force : bool) (w w' : W) (log log' : list event) :
  import_ostree_commit repo commit tarfile force (w, log) = (Ok tt, (w', log')) ->
  complete w'.
Proof.
  intros Hrun. apply import_ok_inv in Hrun.
  destruct Hrun as [(o & e & w1 & o1 & e1 & _ & Hshow & Hm)|(d & w4 & o & e & w5 & Hpull & ->)].
  - eapply complete_observed; eassumption.
  - eapply complete_pulled; eassumption.
Qed.

Lemma import_complete_noop (w : W) (log : list event) :
  complete w ->
  exists w2,
    import_ostree_commit repo commit tarfile false (w, log)
    = (Ok tt, (w2, (log ++ [ev_init repo; ev_show repo commit])%list)).
Proof.
  intros Hc.
  destruct (complete_init w Hc) as (o & e & w1 & Hinit & Hc1).
  destruct (complete_show w1 Hc1) as (o1 & e1 & w2 & Hshow & Hc2).
  exists w2.
  rewrite (import_after_show _ _ _ _ _ _ _ _ _ _ _ _ _ Hinit Hshow).
  now rewrite (complete_unmarked w2 Hc2).
Qed.

(** C1.  With [force=False]: (1) when the existence check that follows
    [ostree init] finds the commit and no partial marker is there, the
    call spawns nothing but [ostree init] and the check (no extraction, no
    pull), and it returns as soon as the repository has initialised;
    (2) after a call that returned, a second call with the same arguments
    is such a no-op: it returns, having spawned [ostree init] and the check
    only. *)
Theorem import_ostree_commit_idempotent :
  (forall (w w2 : W) (log : list event) (o e : string),
     os_spawn (show_cmd repo commit) (snd (os_spawn (init_cmd repo) w))
       = (Exited 0 o e, w2) ->
     os_isfile (commitpartial repo commit) w2 = false ->
     let outcome := import_ostree_commit repo commit tarfile false (w, log) in
     (snd (snd outcome) = (log ++ [ev_init repo])%list \/
      snd (snd outcome) = (log ++ [ev_init repo; ev_show repo commit])%list) /\
     (forall o0 e0, fst (os_spawn (init_cmd repo) w) = Exited 0 o0 e0 ->
        outcome = (Ok tt, (w2, (log ++ [ev_init repo; ev_show repo commit])%list)))) /\
  (forall (w w' : W) (log log' : list event),
     import_ostree_commit repo commit tarfile false (w, log) = (Ok tt, (w', log')) ->
     exists w'',
       import_ostree_commit repo commit tarfile false (w', log')
       = (Ok tt, (w'', (log' ++ [ev_init repo; ev_show repo commit])%list))).
Proof.
  split.
  - intros w w2 log o e. apply import_noop.
  - intros w w' log log' Hfirst.
    apply import_complete_noop. eapply import_ok_complete. eassumption.
Qed.

End Idempotence.

(** *** The small world *)

Lemma toy_show (repo commit : string) (w : toy) :
  toy_spawn (show_cmd repo commit) w
  = (Exited (if negb (init_rc w =? 0) then 1 else if present w then 0 else 1)
       EmptyString EmptyString, w).
Proof. unfold toy_spawn, show_cmd. cbn. now destruct (init_rc w =? 0). Qed.

Lemma toy_init (repo : string) (w : toy) :
  toy_spawn (init_cmd repo) w = (Exited (init_rc w) EmptyString EmptyString, w).
Proof. reflexivity. Qed.

Lemma toy_pull (repo d commit : string) (w : toy) (o e : string) (w' : toy) :
  toy_spawn (pull_cmd repo d commit) w = (Exited 0 o e, w') -> toy_complete w'.
Proof.
  unfold toy_spawn, pull_cmd, toy_complete. cbn.
  destruct (Z.eqb_spec (init_rc w) 0) as [Hi|Hi]; cbn; [|discriminate].
  destruct (Z.eqb_spec (pull_rc w) 0) as [Hp|Hp]; intros Heq; inversion Heq; subst; cbn.
  - auto.
  - contradiction.
Qed.

(** The small world meets the tools' contract, and there a first call
    on an absent commit extracts and pulls, while the second call spawns
    the two probes only. *)
Lemma import_ostree_commit_idempotent_witness :
  import_ostree_commit "repo" "abc" "abc.tar" false (absent_commit, [])
  = (Ok tt, (stored_commit,
             [ev_init "repo"; ev_show "repo" "abc"; ev_tar "repo/tmpx" "abc.tar";
              ev_pull "repo" "repo/tmpx" "abc"])) /\
  exists w'',
    import_ostree_commit "repo" "abc" "abc.tar" false
      (stored_commit,
       [ev_init "repo"; ev_show "repo" "abc"; ev_tar "repo/tmpx" "abc.tar";
        ev_pull "repo" "repo/tmpx" "abc"])
    = (Ok tt, (w'',
               [ev_init "repo"; ev_show "repo" "abc"; ev_tar "repo/tmpx" "abc.tar";
                ev_pull "repo" "repo/tmpx" "abc"; ev_init "repo"; ev_show "repo" "abc"])).
Proof.
  split; [reflexivity|].
  refine (proj2 (import_ostree_commit_idempotent (W := toy) "repo" "abc" "abc.tar"
                   toy_complete _ _ _ _ _) absent_commit stored_commit [] _ eq_refl).
  - intros w o e w' Hshow Hm.
    change (toy_spawn (show_cmd "repo" "abc") w = (Exited 0 o e, w')) in Hshow.
    change (partial w' = false) in Hm.
    rewrite toy_show in Hshow. unfold toy_complete.
    destruct (Z.eqb_spec (init_rc w) 0); cbn in Hshow;
      [destruct (present w) eqn:Hp|]; inversion Hshow; subst; auto.
  - intros d w o e w' Hpull. exact (toy_pull "repo" d "abc" w o e w' Hpull).
  - intros w Hc. exists EmptyString, EmptyString, w.
    change (toy_spawn (init_cmd "repo") w = (Exited 0 EmptyString EmptyString, w)
            /\ toy_complete w).
    rewrite toy_init. split; [|exact Hc]. destruct Hc as (-> & _). reflexivity.
  - intros w Hc. exists EmptyString, EmptyString, w.
    change (toy_spawn (show_cmd "repo" "abc") w = (Exited 0 EmptyString EmptyString, w)
            /\ toy_complete w).
    rewrite toy_show. split; [|exact Hc].
    destruct Hc as (Hi & Hp & Hm). rewrite Hi, Hp. reflexivity.
  - intros w (_ & _ & Hm). exact Hm.
Defined.

(** *** Failure policy *)

(** C4, as stated, fails for the existence check: in the small world
    with the commit absent, [ostree show] exits with status 1 and the call
    goes on to extract and pull, and returns normally. *)
Lemma show_failure_is_not_fatal :
  fst (os_spawn (show_cmd "repo" "abc") absent_commit)
    = Exited 1 EmptyString EmptyString /\
  In (ev_show "repo" "abc")
     (snd (snd (import_ostree_commit "repo" "abc" "abc.tar" false (absent_commit, [])))) /\
  fst (import_ostree_commit "repo" "abc" "abc.tar" false (absent_commit, [])) = Ok tt.
Proof. repeat split. cbn. auto. Qed.

(** C4, amended.  A non-zero exit status of [ostree init], of the
    extraction or of the pull reaches the caller as [CalledProcessError]
    with that status and command.  The status of the existence check (run
    with both streams sent to the null device) is never an error: when it
    is not zero, or a marker is there, or [force] is set, the call goes on
    to extract and pull, and its outcome is decided by those two. *)
Theorem import_failure_policy {W : Type} `{OS W} (repo commit tarfile : string)
    (force : bool) (w : W) (log : list event) :
  let outcome := import_ostree_commit repo commit tarfile force (w, log) in
  (forall rc o e w1,
     os_spawn (init_cmd repo) w = (Exited rc o e, w1) -> rc <> 0 ->
     fst outcome = Raise (CalledProcessError rc (init_cmd repo))) /\
  (forall o e w1 rc_show o1 e1 w2 d w3,
     os_spawn (init_cmd repo) w = (Exited 0 o e, w1) ->
     os_spawn (show_cmd repo commit) w1 = (Exited rc_show o1 e1, w2) ->
     In (ev_show repo commit) (snd (snd outcome)) /\
     (rc_show <> 0 \/ os_isfile (commitpartial repo commit) w2 = true \/ force = true ->
      os_mkdtemp repo w2 = (d, w3) ->
      forall rc_tar o3 e3 w4,
        os_spawn (tar_cmd d tarfile) w3 = (Exited rc_tar o3 e3, w4) ->
        (rc_tar <> 0 ->
           fst outcome = Raise (CalledProcessError rc_tar (tar_cmd d tarfile))) /\
        (rc_tar = 0 ->
           forall rc_pull o5 e5 w5,
             os_spawn (pull_cmd repo d commit) w4 = (Exited rc_pull o5 e5, w5) ->
             (rc_pull <> 0 ->
                fst outcome = Raise (CalledProcessError rc_pull (pull_cmd repo d commit))) /\
             (rc_pull = 0 -> fst outcome = Ok tt)))).
Proof.
  intros outcome. subst outcome. split.
  - intros rc o e w1 Hinit Hrc.
    now rewrite (import_init_failed _ _ _ _ _ _ _ _ _ _ Hinit Hrc).
  - intros o e w1 rc_show o1 e1 w2 d w3 Hinit Hshow.
    split.
    + rewrite (import_after_show _ _ _ _ _ _ _ _ _ _ _ _ _ Hinit Hshow). cbv zeta.
      destruct ((rc_show =? 0) && negb (os_isfile (commitpartial repo commit) w2)
                && negb force).
      * cbn [fst snd]. apply in_or_app. right. cbn. auto.
      * destruct (os_mkdtemp repo w2) as [d' w3'].
        unfold bind at 1.
        destruct (check_call (tar_cmd d' tarfile) _) as [[z|x] [wt logt]] eqn:Htar.
        -- assert (Hlog : exists l, logt = ((log ++ [ev_init repo; ev_show repo commit]) ++ l)%list).
           { unfold check_call, call, bind, run, ret, raise, tar_cmd in Htar.
             destruct (os_spawn _ w3') as [[rc3 ? ?|?] ?]; cbn in Htar.
             - destruct (rc3 =? 0); inversion Htar; eauto.
             - inversion Htar. }
           destruct Hlog as [l ->].
           unfold bind at 1.
           destruct (check_call (pull_cmd repo d' commit) _) as [[z'|x'] [wp logp]] eqn:Hpull.
           ++ assert (Hlog : exists l', logp = (((log ++ [ev_init repo; ev_show repo commit]) ++ l) ++ l')%list).
              { unfold check_call, call, bind, run, ret, raise, pull_cmd in Hpull.
                destruct (os_spawn _ wt) as [[rc5 ? ?|?] ?]; cbn in Hpull.
                - destruct (rc5 =? 0); inversion Hpull; eauto.
                - inversion Hpull. }
              destruct Hlog as [l' ->]. cbn [ret fst snd].
              apply in_or_app. left. apply in_or_app. left.
              apply in_or_app. right. cbn. auto.
           ++ assert (Hlog : exists l', logp = (((log ++ [ev_init repo; ev_show repo commit]) ++ l) ++ l')%list).
              { unfold check_call, call, bind, run, ret, raise, pull_cmd in Hpull.
                destruct (os_spawn _ wt) as [[rc5 ? ?|?] ?]; cbn in Hpull.
                - destruct (rc5 =? 0); inversion Hpull; eauto.
                - inversion Hpull; eauto. }
              destruct Hlog as [l' ->]. cbn [fst snd].
              apply in_or_app. left. apply in_or_app. left.
              apply in_or_app. right. cbn. auto.
        -- assert (Hlog : exists l, logt = ((log ++ [ev_init repo; ev_show repo commit]) ++ l)%list).
           { unfold check_call, call, bind, run, ret, raise, tar_cmd in Htar.
             destruct (os_spawn _ w3') as [[rc3 ? ?|?] ?]; cbn in Htar.
             - destruct (rc3 =? 0); inversion Htar; eauto.
             - inversion Htar; eauto. }
           destruct Hlog as [l ->]. cbn [fst snd].
           apply in_or_app. left. apply in_or_app. right. cbn. auto.
    + intros Hgo Hmk rc_tar o3 e3 w4 Htar.
      assert (Hearly : (rc_show =? 0) && negb (os_isfile (commitpartial repo commit) w2)
                       && negb force = false).
      { destruct Hgo as [Hrc|[Hm| ->]].
        - destruct (Z.eqb_spec rc_show 0); [contradiction | reflexivity].
        - rewrite Hm. now rewrite andb_false_r.
        - now rewrite andb_false_r. }
      split.
      * intros Hrc.
        rewrite (import_after_tar _ _ _ _ _ _ _ _ _ _ _ _ _ _ _ _ _ _ _
                   Hinit Hshow Hearly Hmk Htar).
        cbv zeta. destruct (Z.eqb_spec rc_tar 0); [contradiction | reflexivity].
      * intros ->. intros rc_pull o5 e5 w5 Hpull.
        rewrite (import_after_pull repo commit tarfile force w w1 w2 w3 w4 w5 log
                   o e o1 e1 o3 e3 o5 e5 d rc_show rc_pull
                   Hinit Hshow Hearly Hmk Htar Hpull).
        cbn [fst]. split.
        -- intros Hrc. destruct (Z.eqb_spec rc_pull 0); [contradiction | reflexivity].
        -- intros ->. reflexivity.
Qed.

(** The policy in the small world: a repository that does not
    initialise, and a failing extraction after a failed existence check. *)
Lemma import_failure_policy_witness :
  fst (import_ostree_commit "repo" "abc" "abc.tar" false (broken_repo, []))
    = Raise (CalledProcessError 1 (init_cmd "repo")) /\
  fst (import_ostree_commit "repo" "abc" "abc.tar" false (failing_tar, []))
    = Raise (CalledProcessError 2 (tar_cmd "repo/tmpx" "abc.tar")).
Proof.
  split.
  - refine (proj1 (import_failure_policy "repo" "abc" "abc.tar" false broken_repo [])
              1 EmptyString EmptyString broken_repo eq_refl _).
    discriminate.
  - refine (proj1 (proj2 (proj2 (import_failure_policy "repo" "abc" "abc.tar" false
                                   failing_tar [])
                            EmptyString EmptyString failing_tar 1 EmptyString EmptyString
                            failing_tar "repo/tmpx" failing_tar eq_refl eq_refl)
                     _ eq_refl 2 EmptyString EmptyString failing_tar eq_refl)
              _).
    + left. discriminate.
    + discriminate.
Defined.

End ImporterSpec.

(** ** File system operations *)

Module FsFacts.
Import Py Fs.

(** A write on the descriptor changes the file it is linked to, and
    that file only; the file stays. *)
Lemma raw_write_frame (link s : string) (d d' : fs) :
  raw_write link s d = Ok d' ->
  (forall q, q <> link -> files d' !! q = files d !! q) /\
  dirs d' = dirs d /\
  (exists fl, files d !! link = Some fl /\
     files d' !! link = Some {| f_data := f_data fl +:+ s; f_mode := f_mode fl |}) /\
  (String.length s <= free d)%nat /\
  free d' = (free d - String.length s)%nat.
Proof.
  unfold raw_write. destruct (files d !! link) as [fl|] eqn:Hl; [|discriminate].
  destruct (Nat.leb_spec (String.length s) (free d)); [|discriminate].
  intros Heq; inversion Heq; subst; clear Heq; cbn.
  repeat split; try assumption.
  - intros q Hq. now rewrite lookup_insert_ne.
  - exists fl. split; [reflexivity|]. now rewrite lookup_insert_eq.
Qed.

Lemma raw_write_fits (link s : string) (d : fs) (fl : file) :
  files d !! link = Some fl -> (String.length s <= free d)%nat ->
  exists d', raw_write link s d = Ok d'.
Proof.
  intros Hl Hfree. unfold raw_write. rewrite Hl.
  destruct (Nat.leb_spec (String.length s) (free d)); [eauto | lia].
Qed.

Lemma same_elsewhere_refl (link : string) (d : fs) : same_elsewhere link d d.
Proof. unfold same_elsewhere. auto. Qed.

Lemma raw_write_same_elsewhere (link s : string) (d d' : fs) :
  raw_write link s d = Ok d' -> same_elsewhere link d d'.
Proof.
  intros Hw. apply raw_write_frame in Hw as (Hq & Hd & (fl & _ & Hl) & _).
  split; [exact Hq|]. split; [exact Hd|]. intros _. rewrite Hl. eauto.
Qed.

Lemma write_frame (size : nat) (f f' : wfile) (s : string) (d d' : fs) (r : result unit) :
  write size f s d = (r, f', d') ->
  w_name f' = w_name f /\ w_link f' = w_link f /\ same_elsewhere (w_link f) d d'.
Proof.
  unfold write.
  destruct (flushed_len size (String.length (w_pending f +:+ s))) as [|k].
  - intros Heq; inversion Heq; subst.
    split; [reflexivity|]. split; [reflexivity|]. apply same_elsewhere_refl.
  - destruct (raw_write _ _ d) as [d1|x] eqn:Hw; intros Heq; inversion Heq; subst.
    + split; [reflexivity|]. split; [reflexivity|].
      eapply raw_write_same_elsewhere; eassumption.
    + split; [reflexivity|]. split; [reflexivity|]. apply same_elsewhere_refl.
Qed.

Lemma release_frame (f : wfile) (d : fs) : same_elsewhere (w_link f) d (release f d).
Proof.
  unfold release. destruct (w_pending f) as [|c p]; [apply same_elsewhere_refl|].
  destruct (raw_write _ _ d) as [d1|x] eqn:Hw.
  - eapply raw_write_same_elsewhere; eassumption.
  - apply same_elsewhere_refl.
Qed.

Lemma flushed_len_le (size n : nat) : (flushed_len size n <= n)%nat.
Proof.
  destruct size as [|size]; cbn [flushed_len]; [lia|].
  rewrite Nat.mul_comm. apply Nat.Div0.mul_div_le.
Qed.

(** With room on the disk, [f.write(s)] succeeds: a prefix of the
    pending text is in the file, the rest is still in the object. *)
Lemma write_fits (size : nat) (f : wfile) (s : string) (d : fs) (fl : file) :
  files d !! w_link f = Some fl ->
  (String.length (w_pending f +:+ s) <= free d)%nat ->
  exists k d',
    (k <= String.length (w_pending f +:+ s))%nat /\
    write size f s d = (Ok tt, with_pending (Str.drop k (w_pending f +:+ s)) f, d') /\
    files d' !! w_link f
      = Some {| f_data := f_data fl +:+ Str.take k (w_pending f +:+ s);
                f_mode := f_mode fl |} /\
    (forall q, q <> w_link f -> files d' !! q = files d !! q) /\
    dirs d' = dirs d /\
    free d' = (free d - k)%nat.
Proof.
  intros Hl Hfree. unfold write.
  set (p := w_pending f +:+ s) in *.
  pose proof (flushed_len_le size (String.length p)) as Hk.
  destruct (flushed_len size (String.length p)) as [|k] eqn:Hfl.
  - exists 0%nat, d. cbn [Str.drop Str.take].
    rewrite StrFacts.append_nil_r. destruct fl. repeat split; auto; lia.
  - assert (Hlen : String.length (Str.take (S k) p) = S k).
    { rewrite StrFacts.length_take. lia. }
    destruct (raw_write_fits (w_link f) (Str.take (S k) p) d fl Hl) as [d' Hw]; [lia|].
    exists (S k), d'. rewrite Hw.
    apply raw_write_frame in Hw as (Hq & Hd & (fl' & Hl' & Hnew) & _ & Hfree').
    rewrite Hl in Hl'. inversion Hl'; subst fl'.
    repeat split; auto. lia.
Qed.

Lemma release_fits (f : wfile) (d : fs) (fl : file) :
  files d !! w_link f = Some fl ->
  (String.length (w_pending f) <= free d)%nat ->
  files (release f d) !! w_link f
    = Some {| f_data := f_data fl +:+ w_pending f; f_mode := f_mode fl |} /\
  (forall q, q <> w_link f -> files (release f d) !! q = files d !! q) /\
  dirs (release f d) = dirs d.
Proof.
  intros Hl Hfree. unfold release.
  destruct (w_pending f) as [|c p] eqn:Hp.
  - rewrite StrFacts.append_nil_r. destruct fl. auto.
  - destruct (raw_write_fits (w_link f) (String c p) d fl Hl) as [d' Hw]; [assumption|].
    rewrite Hw.
    apply raw_write_frame in Hw as (Hq & Hd & (fl' & Hl' & Hnew) & _).
    rewrite Hl in Hl'. inversion Hl'; subst fl'. auto.
Qed.

(** The temporary file is new: no file and no directory had its name. *)
Lemma named_temporary_file_inv (cands : list string) (dn : string) (d d1 : fs) (f : wfile) :
  named_temporary_file cands dn d = (Ok f, d1) ->
  w_link f = w_name f /\ w_pending f = EmptyString /\
  files d !! w_name f = None /\ (w_name f ∉ dirs d) /\
  files d1 = <[w_name f := {| f_data := EmptyString; f_mode := 384 |}]> (files d) /\
  dirs d1 = dirs d /\ free d1 = free d.
Proof.
  unfold named_temporary_file.
  destruct (negb (String.eqb dn EmptyString) && negb (bool_decide (dn ∈ dirs d)));
    [discriminate|].
  destruct (find _ cands) as [n|] eqn:Hfind; [|discriminate].
  intros Heq; inversion Heq; subst; clear Heq; cbn.
  apply find_some in Hfind as [_ Hfree].
  apply negb_true_iff in Hfree. unfold path_exists in Hfree.
  apply orb_false_iff in Hfree as [Hf Hd].
  apply bool_decide_eq_false in Hf, Hd.
  repeat split; auto.
  destruct (files d !! PosixPath.join dn n) eqn:Hl; [|reflexivity].
  exfalso. apply Hf. eauto.
Qed.

Lemma named_temporary_file_raise (cands : list string) (dn : string) (d d1 : fs) (x : pyexc) :
  named_temporary_file cands dn d = (Raise x, d1) -> d1 = d.
Proof.
  unfold named_temporary_file.
  destruct (negb (String.eqb dn EmptyString) && negb (bool_decide (dn ∈ dirs d))).
  - intros Heq; now inversion Heq.
  - destruct (find _ cands); intros Heq; now inversion Heq.
Qed.

(** With the directory in place and a free name among the candidates,
    the temporary file is created. *)
Lemma named_temporary_file_created (cands : list string) (dn : string) (d : fs) :
  dn = EmptyString \/ dn ∈ dirs d ->
  (exists n, In n cands /\ path_exists (PosixPath.join dn n) d = false) ->
  exists f d1, named_temporary_file cands dn d = (Ok f, d1).
Proof.
  intros Hdir (n & Hin & Hfree). unfold named_temporary_file.
  assert (Hchk : negb (String.eqb dn EmptyString) && negb (bool_decide (dn ∈ dirs d))
                 = false).
  { destruct Hdir as [-> | Hd]; [reflexivity|].
    rewrite (bool_decide_eq_true_2 _ Hd). apply andb_false_r. }
  rewrite Hchk.
  destruct (find _ cands) as [m|] eqn:Hfind; [eauto|].
  exfalso. apply (find_none _ _ Hfind) in Hin. rewrite Hfree in Hin. discriminate.
Qed.

End FsFacts.

(** ** Atomic JSON store: the temporary file and the rename *)

Module JsonStoreSpec.
Import Py Fs Json JsonStore FsFacts.

Lemma json_dump_frame (e : env) (data : pyval) (f f' : wfile) (d d' : fs) (r : result unit) :
  json_dump e data f d = (r, f', d') ->
  w_name f' = w_name f /\ w_link f' = w_link f /\ same_elsewhere (w_link f) d d'.
Proof.
  unfold json_dump. destruct (iterencode 0 data) as [text err].
  destruct (Fs.write (buffer_size e) f text d) as [[[u|x] f1] d1] eqn:Hw;
    apply write_frame in Hw.
  - destruct err; intros Heq; inversion Heq; subst; exact Hw.
  - intros Heq; inversion Heq; subst; exact Hw.
Qed.

(** An encoder that stops on an unknown object makes [json.dump]
    raise. *)
Lemma json_dump_not_serializable (e : env) (data : pyval) (f : wfile) (d : fs) :
  snd (iterencode 0 data) <> None ->
  exists x, fst (fst (json_dump e data f d)) = Raise x.
Proof.
  unfold json_dump. destruct (iterencode 0 data) as [text [x|]]; cbn [snd];
    [intros _ | congruence].
  destruct (Fs.write (buffer_size e) f text d) as [[[u|y] f1] d1]; cbn; eauto.
Qed.

Lemma fchmod_frame (f : wfile) (mode : Z) (d d' : fs) (r : result unit) :
  fchmod f mode d = (r, d') -> same_elsewhere (w_link f) d d'.
Proof.
  unfold fchmod. destruct (files d !! w_link f) as [fl|] eqn:Hl;
    intros Heq; inversion Heq; subst; [|apply same_elsewhere_refl].
  split; [|split]; cbn.
  - intros q Hq. now rewrite lookup_insert_ne.
  - reflexivity.
  - intros _. rewrite lookup_insert_eq. eauto.
Qed.

Lemma rename_inv (src dst : string) (d d' : fs) (r : result unit) :
  rename src dst d = (r, d') ->
  match r with
  | Ok _ =>
      exists fl, files d !! src = Some fl /\
        files d' = <[dst := fl]> (delete src (files d)) /\ dirs d' = dirs d
  | Raise _ => d' = d
  end.
Proof.
  unfold rename. destruct (files d !! src) as [fl|] eqn:Hl.
  - destruct (bool_decide (dst ∈ dirs d)); intros Heq; inversion Heq; subst; cbn; eauto.
  - intros Heq; inversion Heq; subst; reflexivity.
Qed.

Lemma follow_link (f : wfile) (dst : string) :
  w_link f = w_name f -> w_link (follow (w_name f) dst f) = dst.
Proof. intros Hl. unfold follow. rewrite Hl, String.eqb_refl. reflexivity. Qed.

(** How a call of [write_json] can end.  When a statement after the
    creation of the temporary file raises, the temporary file is still
    there and every other path names what it named before: an exception
    leaves [path] as it was. *)
Lemma write_json_outcomes (e : env) (path : string) (data : pyval) (d : fs) :
  let out := write_json e path data d in
  (exists x, named_temporary_file (tmp_candidates e) (PosixPath.dirname path) d = (Raise x, d)
     /\ out = (Raise x, d)) \/
  (exists f d1,
     named_temporary_file (tmp_candidates e) (PosixPath.dirname path) d = (Ok f, d1) /\
     ((exists x, fst out = Raise x /\ is_Some (files (snd out) !! w_name f) /\
                 forall q, q <> w_name f -> files (snd out) !! q = files d !! q) \/
      (fst out = Ok tt /\ forall q, q <> path -> files (snd out) !! q = files d !! q))).
Proof.
  intros out. subst out. unfold write_json, write_json_body.
  destruct (named_temporary_file _ _ d) as [[f|x] d1] eqn:Htmp.
  2:{ left. exists x. pose proof (named_temporary_file_raise _ _ _ _ _ Htmp). now subst. }
  right. exists f, d1. split; [reflexivity|].
  apply named_temporary_file_inv in Htmp as (Hlink & Hpend & Hnone & Hnodir & Hfiles & Hdirs & _).
  assert (Htmp1 : is_Some (files d1 !! w_name f)).
  { rewrite Hfiles, lookup_insert_eq. eauto. }
  assert (Hq1 : forall q, q <> w_name f -> files d1 !! q = files d !! q).
  { intros q Hq. rewrite Hfiles, lookup_insert_ne by congruence. reflexivity. }
  assert (Hrel : forall f' d', w_link f' = w_name f ->
            is_Some (files d' !! w_name f) ->
            (forall q, q <> w_name f -> files d' !! q = files d !! q) ->
            is_Some (files (release f' d') !! w_name f) /\
            forall q, q <> w_name f -> files (release f' d') !! q = files d !! q).
  { intros f' d' E Hs Hfr. destruct (release_frame f' d') as (Hk1 & _ & Hk).
    rewrite E in Hk, Hk1. split; [auto|].
    intros q Hq. rewrite (Hk1 q Hq). auto. }
  destruct (json_dump e data f d1) as [[[u|x] f2] d2] eqn:Hdump;
    apply json_dump_frame in Hdump as (Hn2 & Hl2 & Hq2 & Hd2 & Hs2);
    rewrite Hlink in Hq2, Hs2.
  2:{ left. exists x. cbn. split; [reflexivity|]. apply Hrel; [congruence | auto |].
      intros q Hq. rewrite (Hq2 q Hq). auto. }
  destruct (fchmod f2 420 d2) as [[u3|x] d3] eqn:Hch;
    apply fchmod_frame in Hch as (Hq3 & Hd3 & Hs3); rewrite Hl2, Hlink in Hq3, Hs3.
  2:{ left. exists x. cbn. split; [reflexivity|]. apply Hrel; [congruence | auto |].
      intros q Hq. rewrite (Hq3 q Hq), (Hq2 q Hq). auto. }
  destruct (rename (w_name f2) path d3) as [[u4|x] d4] eqn:Hren;
    apply rename_inv in Hren.
  2:{ left. exists x. cbn. subst d4. split; [reflexivity|].
      apply Hrel; [congruence | auto |].
      intros q Hq. rewrite (Hq3 q Hq), (Hq2 q Hq). auto. }
  right. cbn [fst snd]. split; [now destruct u4|].
  destruct Hren as (fl & Hsrc & Hfiles4 & Hdirs4).
  intros q Hq.
  assert (Hlink3 : w_link (follow (w_name f2) path f2) = path).
  { apply follow_link. congruence. }
  destruct (release_frame (follow (w_name f2) path f2) d4) as (Hq5 & _).
  rewrite Hlink3 in Hq5. rewrite (Hq5 q Hq), Hfiles4, lookup_insert_ne by congruence.
  rewrite Hn2. destruct (decide (q = w_name f)) as [->|Hne].
  - now rewrite lookup_delete_eq, Hnone.
  - rewrite lookup_delete_ne by congruence.
    rewrite (Hq3 q Hne), (Hq2 q Hne). auto.
Qed.

(** What of C2 holds: a call that raises leaves [path] as it was,
    provided [path] existed (it then differs from the temporary name). *)
Lemma write_json_raise_keeps_path (e : env) (path : string) (data : pyval) (d : fs)
    (x : pyexc) :
  fst (write_json e path data d) = Raise x ->
  is_Some (files d !! path) ->
  files (snd (write_json e path data d)) !! path = files d !! path.
Proof.
  intros Hraise Hthere.
  pose proof (write_json_outcomes e path data d) as Hout. cbv zeta in Hout.
  destruct Hout as [(y & _ & Ho)|(f & d1 & Hc & [(y & _ & _ & Hfr)|(Hok & _)])].
  - now rewrite Ho.
  - apply Hfr. intros ->.
    apply named_temporary_file_inv in Hc as (_ & _ & Hnone & _).
    rewrite Hnone in Hthere. now destruct Hthere.
  - rewrite Hok in Hraise. discriminate.
Qed.

(** The defect behind C2, in general: for every document whose text is
    shorter than the buffer of the file object, the file that [os.rename]
    puts at [path] is empty, and the whole text is still pending in [f]. *)
Lemma write_json_body_unflushed (e : env) (path : string) (data : pyval) (d : fs)
    (s : string) :
  iterencode 0 data = (s, None) ->
  (String.length s < buffer_size e)%nat ->
  PosixPath.dirname path = EmptyString \/ PosixPath.dirname path ∈ dirs d ->
  path ∉ dirs d ->
  (exists n, In n (tmp_candidates e)
             /\ path_exists (PosixPath.join (PosixPath.dirname path) n) d = false) ->
  exists f d',
    write_json_body e path data d = (Ok tt, Some f, d') /\
    w_pending f = s /\
    files d' !! path = Some {| f_data := EmptyString; f_mode := 420 |}.
Proof.
  intros Henc Hsmall Hdir Hnodir Hcand.
  unfold write_json_body.
  destruct (named_temporary_file_created _ _ _ Hdir Hcand) as (f & d1 & Htmp).
  rewrite Htmp.
  apply named_temporary_file_inv in Htmp
    as (Hlink & Hpend & Hnone & _ & Hfiles & Hdirs & _).
  unfold json_dump. rewrite Henc. unfold Fs.write.
  rewrite Hpend. cbn [String.append].
  assert (Hk : flushed_len (buffer_size e) (String.length s) = 0%nat).
  { unfold flushed_len. destruct (buffer_size e) as [|b] eqn:Hb; [lia|].
    rewrite Nat.div_small by lia. reflexivity. }
  rewrite Hk.
  unfold fchmod. cbn [w_link with_pending]. rewrite Hlink, Hfiles, lookup_insert_eq.
  unfold rename. cbn [w_name with_pending files with_files dirs f_data].
  rewrite lookup_insert_eq.
  rewrite (bool_decide_eq_false_2 (path ∈ dirs d1)) by congruence.
  eexists _, _. split; [reflexivity|]. split.
  - unfold follow. cbn [w_link w_pending with_pending].
    rewrite Hlink, String.eqb_refl. reflexivity.
  - cbn [files]. apply lookup_insert_eq.
Qed.

(** C2: the code at the failing input.  [meta.json] holds [{}] and is
    rewritten with a small document.  (1) When [os.rename] has returned
    and [write_json] has not yet returned, [meta.json] is an empty file:
    the text is still in the buffer of [f], which nothing has flushed.
    (2) On a disk without room for the text, [write_json] returns normally
    and leaves [meta.json] empty: the flush that fails is the one done when
    [f] is released.  The empty file is neither the prior content nor the
    new document. *)
Theorem write_json_renames_unflushed_file :
  (let '(r, f, d) := write_json_body sample_env meta_path new_meta (builds_fs 4096) in
   r = Ok tt /\ content meta_path d = Some EmptyString /\
   option_map (fun f => String.length (w_pending f)) f = Some 37%nat) /\
  (let '(r, d) := write_json sample_env meta_path new_meta (builds_fs 4096) in
   r = Ok tt /\ option_map String.length (content meta_path d) = Some 37%nat) /\
  (let '(r, d) := write_json sample_env meta_path new_meta (builds_fs 0) in
   r = Ok tt /\ content meta_path d = Some EmptyString) /\
  content meta_path (builds_fs 0) = Some "{}" /\
  (exists text, dumps new_meta = Ok text /\ String.length text = 37%nat).
Proof.
  split; [|split; [|split; [|split]]].
  - vm_compute. repeat split.
  - vm_compute. repeat split.
  - vm_compute. repeat split.
  - vm_compute. reflexivity.
  - eexists. split; vm_compute; reflexivity.
Qed.

(** C5, as stated, fails on the failure path: with data that cannot be
    serialised [write_json] raises [TypeError] and the temporary file,
    which did not exist before, is still in the directory. *)
Lemma write_json_leaves_temp_file :
  fst (write_json sample_env meta_path bad_meta (builds_fs 4096))
    = Raise (TypeError "Object of type set is not JSON serializable") /\
  files (builds_fs 4096) !! "/srv/builds/tmpk3m9x2qa" = None /\
  option_map f_mode
    (files (snd (write_json sample_env meta_path bad_meta (builds_fs 4096)))
       !! "/srv/builds/tmpk3m9x2qa") = Some 384.
Proof. vm_compute. repeat split. Qed.

(** C5, amended.  On success the temporary file is consumed by the
    rename: every path other than [path] names what it named before the
    call, so no stray file is left.  On a failure the temporary file is not
    cleaned up: unless the failure is that of creating it (then nothing has
    changed), the call leaves it in the directory of [path], under a name
    that was free before; this is so in particular whenever [data] is not
    JSON-serializable. *)
Theorem write_json_temp_file (e : env) (path : string) (data : pyval) (d : fs) :
  let out := write_json e path data d in
  let created := named_temporary_file (tmp_candidates e) (PosixPath.dirname path) d in
  (fst out = Ok tt -> forall q, q <> path -> files (snd out) !! q = files d !! q) /\
  (forall x, fst out = Raise x ->
     (fst created = Raise x /\ snd out = d) \/
     (exists f, fst created = Ok f /\ files d !! w_name f = None /\
        is_Some (files (snd out) !! w_name f))) /\
  (forall f, fst created = Ok f -> snd (iterencode 0 data) <> None ->
     (exists x, fst out = Raise x) /\ files d !! w_name f = None /\
     is_Some (files (snd out) !! w_name f)).
Proof.
  intros out created.
  pose proof (write_json_outcomes e path data d) as Hout. cbv zeta in Hout.
  fold out in Hout. fold created in Hout.
  destruct Hout as [(x & Hc & Ho)|(f & d1 & Hc & Ho)].
  - rewrite Hc, Ho. cbn. split; [discriminate|]. split.
    + intros y Hy. inversion Hy; subst. now left.
    + intros f Hf. discriminate.
  - pose proof (named_temporary_file_inv _ _ _ _ _ Hc) as (_ & _ & Hnone & _).
    rewrite Hc. cbn [fst snd].
    destruct Ho as [(x & Hr & Hleft & _)|(Hr & Hframe)].
    + split; [rewrite Hr; discriminate|]. split.
      * intros y Hy. right. exists f. auto.
      * intros f' Hf' _. inversion Hf'; subst f'. eauto.
    + split; [intros _; exact Hframe|]. split.
      * intros y Hy. rewrite Hr in Hy. discriminate.
      * intros f' Hf' Hbad. exfalso. inversion Hf'; subst f'.
        subst out. unfold write_json, write_json_body in Hr.
        fold created in Hr. rewrite Hc in Hr.
        destruct (json_dump_not_serializable e data f d1 Hbad) as [y Hy].
        destruct (json_dump e data f d1) as [[[u|z] f2] d2]; cbn in Hy, Hr;
          discriminate.
Qed.

(** Both paths on the sample directory: the rewrite succeeds and leaves
    one file; the document that cannot be serialised leaves two. *)
Lemma write_json_temp_file_witness :
  files (snd (write_json sample_env meta_path new_meta (builds_fs 4096)))
    !! "/srv/builds/tmpk3m9x2qa" = None /\
  is_Some (files (snd (write_json sample_env meta_path bad_meta (builds_fs 4096)))
             !! "/srv/builds/tmpk3m9x2qa").
Proof.
  split.
  - refine (eq_trans (proj1 (write_json_temp_file sample_env meta_path new_meta (builds_fs 4096))
                        _ "/srv/builds/tmpk3m9x2qa" _) _).
    + vm_compute. reflexivity.
    + discriminate.
    + vm_compute. reflexivity.
  - refine (proj2 (proj2 (proj2 (proj2 (write_json_temp_file sample_env meta_path bad_meta
                                          (builds_fs 4096)))
                            {| w_name := "/srv/builds/tmpk3m9x2qa";
                               w_link := "/srv/builds/tmpk3m9x2qa";
                               w_pending := EmptyString |} _ _))).
    + vm_compute. reflexivity.
    + vm_compute. discriminate.
Defined.

End JsonStoreSpec.

(** ** The JSON codec: decoding what the encoder writes *)

Module JsonFacts.
Import Py Json JsonStore.

(** *** Strings *)

(** One escaped character is read back as the character. *)
Lemma scanstring_escape_char (c : ascii) (t : string) :
  scanstring (escape_char c +:+ t) = push c (scanstring t).
Proof. destruct c as [[] [] [] [] [] [] [] []]; reflexivity. Qed.

Lemma scanstring_escape_body (s rest : string) :
  scanstring (escape_body s +:+ String dquote rest) = Some (s, rest).
Proof.
  induction s as [|c s IH]; cbn [escape_body].
  - reflexivity.
  - rewrite StrFacts.append_assoc, scanstring_escape_char, IH. reflexivity.
Qed.

Lemma scanstring_encoded (s rest : string) :
  exists t, encode_basestring_ascii s +:+ rest = String dquote t /\
            scanstring t = Some (s, rest).
Proof.
  unfold encode_basestring_ascii.
  exists (escape_body s +:+ String dquote rest). split.
  - cbn. now rewrite StrFacts.append_assoc.
  - apply scanstring_escape_body.
Qed.

(** *** Integers *)

Lemma scan_uint_delimited (rest : string) :
  delimited rest = true -> scan_uint rest = (Decimal.Nil, rest).
Proof.
  destruct rest as [|c rest]; [reflexivity|]. cbn [delimited scan_uint].
  intros Hd. apply orb_true_iff in Hd as [Hc|Hc]; apply Ascii.eqb_eq in Hc; subst c;
    reflexivity.
Qed.

Lemma starts_float_tail_delimited (rest : string) :
  delimited rest = true -> starts_float_tail rest = false.
Proof.
  destruct rest as [|c rest]; [reflexivity|]. cbn [delimited starts_float_tail].
  intros Hd. apply orb_true_iff in Hd as [Hc|Hc]; apply Ascii.eqb_eq in Hc; subst c;
    reflexivity.
Qed.

Lemma scan_uint_printed (u : Decimal.uint) (rest : string) :
  delimited rest = true ->
  scan_uint (NilEmpty.string_of_uint u +:+ rest) = (u, rest).
Proof.
  intros Hd. induction u; cbn [NilEmpty.string_of_uint String.append];
    try (cbn [scan_uint]; cbn [digit_of_char nat_of_ascii]; try rewrite IHu; reflexivity).
  cbn. now apply scan_uint_delimited.
Qed.

(** The decimal digits of a positive number do not start with a zero. *)
Lemma to_uint_head_nonzero (p : positive) (d : Decimal.uint) :
  Pos.to_uint p <> Decimal.D0 d.
Proof.
  intros Heq.
  pose proof (DecimalPos.Unsigned.to_of (Pos.to_uint p)) as Hnorm.
  rewrite DecimalPos.Unsigned.of_to in Hnorm. cbn [N.to_uint] in Hnorm.
  pose proof (DecimalPos.Unsigned.to_uint_nonzero p) as Hnz.
  destruct (Decimal.nzhead (Pos.to_uint p)) eqn:Hh;
    [apply DecimalFacts.unorm_0 in Hh; congruence | ..];
    (rewrite DecimalFacts.unorm_nzhead in Hnorm by congruence;
     rewrite Heq in Hnorm at 1; symmetry in Hnorm;
     now apply DecimalFacts.nzhead_nonzero in Hnorm).
Qed.

Lemma int_repr_pos (p : positive) :
  exists c t,
    NilZero.string_of_uint (Pos.to_uint p) = String c t /\
    NilZero.string_of_uint (Pos.to_uint p) = NilEmpty.string_of_uint (Pos.to_uint p) /\
    is_digit c = true /\ Ascii.eqb c "0" = false /\ Ascii.eqb c "-" = false.
Proof.
  pose proof (DecimalPos.Unsigned.to_uint_nonnil p) as Hnil.
  pose proof (to_uint_head_nonzero p) as Hz.
  destruct (Pos.to_uint p) as [|u|u|u|u|u|u|u|u|u|u]; cbn;
    try congruence; try (now exfalso; eapply Hz);
    eexists _, _; repeat split.
Qed.

(** A number is read by the number scanner. *)
Lemma scan_once_number (c : ascii) (s1 : string) (fuel : nat) :
  is_digit c || Ascii.eqb c "-" = true ->
  scan_once (S fuel) (String c s1) = scan_number (String c s1).
Proof.
  destruct c as [[] [] [] [] [] [] [] []]; cbn [is_digit digit_of_char nat_of_ascii];
    intros Hc; try discriminate Hc; reflexivity.
Qed.

Lemma scan_number_int (z : Z) (rest : string) :
  delimited rest = true ->
  scan_number (int_repr z +:+ rest) = Some (PyInt z, rest).
Proof.
  intros Hd. unfold int_repr. destruct z as [|p|p]; cbn [Z.to_int NilZero.string_of_int].
  - cbn. now rewrite (starts_float_tail_delimited rest Hd).
  - destruct (int_repr_pos p) as (c & t & Hs & Hne & Hdig & Hz & Hm).
    rewrite Hs. cbn [String.append]. unfold scan_number.
    rewrite Hm, Hdig, Hz. cbn [negb].
    change (String c (t +:+ rest)) with (String c t +:+ rest).
    rewrite <- Hs, Hne, (scan_uint_printed _ rest Hd).
    rewrite (starts_float_tail_delimited rest Hd).
    unfold Z.of_uint. rewrite DecimalPos.Unsigned.of_to. reflexivity.
  - destruct (int_repr_pos p) as (c & t & Hs & Hne & Hdig & Hz & Hm).
    rewrite Hs. cbn [String.append]. unfold scan_number. cbn [Ascii.eqb Bool.eqb].
    rewrite Hdig, Hz. cbn [negb].
    change (String c (t +:+ rest)) with (String c t +:+ rest).
    rewrite <- Hs, Hne, (scan_uint_printed _ rest Hd).
    rewrite (starts_float_tail_delimited rest Hd).
    unfold Z.of_uint. rewrite DecimalPos.Unsigned.of_to. reflexivity.
Qed.

Lemma int_repr_head (z : Z) :
  exists c t, int_repr z = String c t /\ is_digit c || Ascii.eqb c "-" = true.
Proof.
  unfold int_repr. destruct z as [|p|p]; cbn [Z.to_int NilZero.string_of_int].
  - now exists "0"%char, EmptyString.
  - destruct (int_repr_pos p) as (c & t & Hs & _ & Hdig & _).
    exists c, t. now rewrite Hs, Hdig.
  - now eexists _, _.
Qed.

(** *** White space *)

Lemma skip_ws_spaces (n : nat) (s : string) :
  skip_ws (Str.replicate n " "%char +:+ s) = skip_ws s.
Proof. induction n as [|n IH]; [reflexivity | exact IH]. Qed.

Lemma skip_ws_newline_indent (lvl : nat) (s : string) :
  skip_ws (newline_indent lvl +:+ s) = skip_ws s.
Proof. unfold newline_indent. cbn [String.append skip_ws is_ws]. apply skip_ws_spaces. Qed.

Lemma skip_ws_head (c : ascii) (s : string) :
  is_ws c = false -> skip_ws (String c s) = String c s.
Proof. intros Hc. cbn [skip_ws]. now rewrite Hc. Qed.

Lemma length_newline_indent (lvl : nat) : (1 <= String.length (newline_indent lvl))%nat.
Proof. unfold newline_indent. cbn [String.length]. lia. Qed.

(** *** Dictionaries *)

Lemma dict_set_fresh (k : string) (v : pyval) (d : list (string * pyval)) :
  ~ In k (map fst d) -> dict_set k v d = (d ++ [(k, v)])%list.
Proof.
  induction d as [|[k' v'] d IH]; cbn [dict_set map fst app In]; intros Hk.
  - reflexivity.
  - destruct (String.eqb_spec k k') as [->|Hne].
    + exfalso. apply Hk. now left.
    + f_equal. apply IH. intros Hin. apply Hk. now right.
Qed.

Lemma fold_dict_set_nodup (l acc : list (string * pyval)) :
  NoDup (map fst (acc ++ l)%list) ->
  fold_left (fun d kv => dict_set (fst kv) (snd kv) d) l acc = (acc ++ l)%list.
Proof.
  revert acc. induction l as [|[k v] l IH]; intros acc Hnd; cbn [fold_left fst snd].
  - now rewrite app_nil_r.
  - rewrite dict_set_fresh.
    + rewrite IH; rewrite <- app_assoc; [reflexivity | exact Hnd].
    + rewrite map_app in Hnd. cbn [map fst] in Hnd.
      apply NoDup_app in Hnd as (_ & Hdisj & _).
      intros Hin. apply list_elem_of_In in Hin.
      apply (Hdisj k Hin). constructor.
Qed.

(** A dictionary with distinct keys is rebuilt as it was. *)
Lemma dict_of_pairs_nodup (d : list (string * pyval)) :
  NoDup (map fst d) -> dict_of_pairs d = d.
Proof. intros Hnd. unfold dict_of_pairs. now rewrite fold_dict_set_nodup. Qed.

(** *** Values *)

Section Sequences.
Context {A : Type}.
Variable enc : A -> emitted.
Variable sep : string.

Lemma emit_more_ok (l : list A) :
  Forall (fun x => snd (enc x) = None) l ->
  emit_more enc sep l = (more_text enc sep l, None).
Proof.
  induction 1 as [|x l Hx Hl IH]; cbn [emit_more more_text]; [reflexivity|].
  rewrite IH. unfold and_then, say. cbn [fst snd]. rewrite Hx. cbn [fst snd].
  reflexivity.
Qed.

Lemma emit_items_ok (x : A) (l : list A) :
  snd (enc x) = None -> Forall (fun x => snd (enc x) = None) l ->
  emit_items enc sep (x :: l) = (fst (enc x) +:+ more_text enc sep l, None).
Proof.
  intros Hx Hl. cbn [emit_items]. rewrite (emit_more_ok l Hl).
  unfold and_then. now rewrite Hx.
Qed.
End Sequences.

Lemma pyval_nested_ind (P : pyval -> Prop) :
  P PyNone -> (forall b, P (PyBool b)) -> (forall z, P (PyInt z)) ->
  (forall s, P (PyStr s)) ->
  (forall l, Forall P l -> P (PyList l)) ->
  (forall l, Forall P l -> P (PyTuple l)) ->
  (forall d, Forall (fun kv => P (snd kv)) d -> P (PyDict d)) ->
  (forall c, P (PyObject c)) ->
  forall v, P v.
Proof.
  intros Hnone Hbool Hint Hstr Hlist Htuple Hdict Hobj.
  fix IH 1. intros [|b|z|s|l|l|d|c].
  - exact Hnone.
  - apply Hbool.
  - apply Hint.
  - apply Hstr.
  - apply Hlist. induction l as [|x l IHl]; constructor; [apply IH | exact IHl].
  - apply Htuple. induction l as [|x l IHl]; constructor; [apply IH | exact IHl].
  - apply Hdict. induction d as [|[k x] d IHd]; constructor; [apply IH | exact IHd].
  - apply Hobj.
Qed.

Lemma scan_elements_step (fuel : nat) (s : string) :
  scan_elements (S fuel) s =
  match scan_once fuel s with
  | None => None
  | Some (v, s1) =>
      match skip_ws s1 with
      | EmptyString => None
      | String c s2 =>
          if Ascii.eqb c "]" then Some ([v], s2)
          else if Ascii.eqb c "," then
            match scan_elements fuel (skip_ws s2) with
            | Some (vs, rest) => Some (v :: vs, rest)
            | None => None
            end
          else None
      end
  end.
Proof. reflexivity. Qed.

Lemma skip_ws_value (lvl : nat) (v : pyval) (s : string) :
  decodes v -> skip_ws (text lvl v +:+ s) = text lvl v +:+ s.
Proof.
  intros Hv. destruct (Hv lvl) as (_ & (c & t & Ht & Hws & _) & _).
  rewrite Ht. cbn [String.append]. now apply skip_ws_head.
Qed.

Lemma skip_ws_to_value (lvl n : nat) (v : pyval) (s : string) :
  decodes v ->
  skip_ws (newline_indent n +:+ text lvl v +:+ s) = text lvl v +:+ s.
Proof. intros Hv. rewrite skip_ws_newline_indent. now apply skip_ws_value. Qed.

Lemma scan_elements_ok (lvl : nat) (l : list pyval) :
  Forall decodes l ->
  forall x rest fuel,
    decodes x ->
    (String.length (text (S lvl) x
                    +:+ more_text (iterencode (S lvl)) (item_separator (S lvl)) l
                    +:+ newline_indent lvl) < fuel)%nat ->
    scan_elements fuel
      (text (S lvl) x
       +:+ more_text (iterencode (S lvl)) (item_separator (S lvl)) l
       +:+ newline_indent lvl +:+ String "]" rest)
    = Some (x :: l, rest).
Proof.
  induction 1 as [|y l Hy Hl IH]; intros x rest fuel Hx Hlen;
    (destruct fuel as [|fuel]; [lia|]);
    rewrite scan_elements_step;
    destruct (Hx (S lvl)) as (_ & _ & Hscan);
    rewrite !StrFacts.length_append in Hlen;
    pose proof (length_newline_indent lvl) as Hnl.
  - cbn [more_text String.append] in *.
    rewrite Hscan; [| reflexivity | lia].
    rewrite skip_ws_newline_indent. reflexivity.
  - cbn [more_text] in *. unfold item_separator in *.
    rewrite !StrFacts.append_assoc. cbn [String.append].
    rewrite !StrFacts.length_append in Hlen. cbn [String.length] in Hlen.
    rewrite Hscan; [| reflexivity | lia].
    cbn [skip_ws is_ws Ascii.eqb Bool.eqb orb].
    fold (text (S lvl) y).
    rewrite (skip_ws_to_value (S lvl) (S lvl) y _ Hy).
    rewrite IH; [reflexivity | exact Hy |].
    rewrite !StrFacts.length_append. fold (text (S lvl) y) in Hlen. lia.
Qed.

Lemma encode_entry_text (lvl : nat) (k : string) (v : pyval) :
  fst (encode_entry lvl (k, v)) = encode_basestring_ascii k +:+ ": " +:+ text lvl v.
Proof. unfold encode_entry, and_then, say. cbn. now rewrite StrFacts.append_assoc. Qed.

Lemma encode_entry_ok (lvl : nat) (kv : string * pyval) :
  snd (iterencode lvl (snd kv)) = None -> snd (encode_entry lvl kv) = None.
Proof. intros Hv. unfold encode_entry, and_then, say. cbn. exact Hv. Qed.

Lemma scan_pairs_step (fuel : nat) (s0 : string) :
  scan_pairs (S fuel) (String dquote s0) =
  match scanstring s0 with
  | None => None
  | Some (key, s1) =>
      match skip_ws s1 with
      | EmptyString => None
      | String c s2 =>
          if negb (Ascii.eqb c ":") then None
          else
            match scan_once fuel (skip_ws s2) with
            | None => None
            | Some (v, s3) =>
                match skip_ws s3 with
                | EmptyString => None
                | String c3 s4 =>
                    if Ascii.eqb c3 "}" then Some ([(key, v)], s4)
                    else if Ascii.eqb c3 "," then
                      match scan_pairs fuel (skip_ws s4) with
                      | Some (kvs, rest) => Some ((key, v) :: kvs, rest)
                      | None => None
                      end
                    else None
                end
            end
      end
  end.
Proof. reflexivity. Qed.

Lemma length_encode_basestring (k : string) :
  (2 <= String.length (encode_basestring_ascii k))%nat.
Proof.
  unfold encode_basestring_ascii. cbn [String.length].
  rewrite StrFacts.length_append. cbn [String.length]. lia.
Qed.

Lemma entry_shape (lvl : nat) (k : string) (v : pyval) (rest : string) :
  fst (encode_entry lvl (k, v)) +:+ rest
  = String dquote (escape_body k
                   +:+ String dquote (String ":" (String " " (text lvl v +:+ rest)))).
Proof.
  rewrite encode_entry_text. unfold encode_basestring_ascii.
  rewrite !StrFacts.append_assoc. cbn [String.append].
  rewrite !StrFacts.append_assoc. reflexivity.
Qed.

Lemma scan_pairs_ok (lvl : nat) (d : list (string * pyval)) :
  Forall (fun kv => decodes (snd kv)) d ->
  forall k x rest fuel,
    decodes x ->
    (String.length (fst (encode_entry (S lvl) (k, x))
                    +:+ more_text (encode_entry (S lvl)) (item_separator (S lvl)) d
                    +:+ newline_indent lvl) < fuel)%nat ->
    scan_pairs fuel
      (fst (encode_entry (S lvl) (k, x))
       +:+ more_text (encode_entry (S lvl)) (item_separator (S lvl)) d
       +:+ newline_indent lvl +:+ String "}" rest)
    = Some ((k, x) :: d, rest).
Proof.
  induction 1 as [|[k' y] d Hy Hd IH]; intros k x rest fuel Hx Hlen;
    (destruct fuel as [|fuel]; [lia|]);
    rewrite entry_shape, scan_pairs_step, scanstring_escape_body;
    cbn [skip_ws is_ws Ascii.eqb Bool.eqb orb negb];
    destruct (Hx (S lvl)) as (_ & _ & Hscan);
    rewrite encode_entry_text in Hlen;
    rewrite !StrFacts.length_append in Hlen;
    pose proof (length_newline_indent lvl) as Hnl;
    pose proof (length_encode_basestring k) as Hk;
    cbn [String.length] in Hlen;
    rewrite (skip_ws_value (S lvl) x _ Hx).
  - cbn [more_text String.append] in *.
    rewrite Hscan; [| reflexivity | lia].
    rewrite skip_ws_newline_indent. reflexivity.
  - cbn [more_text] in *. unfold item_separator in *.
    rewrite !StrFacts.append_assoc. cbn [String.append].
    rewrite !StrFacts.length_append in Hlen. cbn [String.length] in Hlen.
    rewrite Hscan; [| reflexivity | lia].
    cbn [skip_ws is_ws Ascii.eqb Bool.eqb orb].
    rewrite skip_ws_newline_indent.
    assert (Hq : forall s, skip_ws (fst (encode_entry (S lvl) (k', y)) +:+ s)
                           = fst (encode_entry (S lvl) (k', y)) +:+ s).
    { intros s. rewrite entry_shape. reflexivity. }
    rewrite Hq.
    rewrite IH; [reflexivity | exact Hy |].
    rewrite !StrFacts.length_append. lia.
Qed.

Lemma number_head (c : ascii) :
  is_digit c || Ascii.eqb c "-" = true ->
  is_ws c = false /\ Ascii.eqb c "]" = false.
Proof.
  destruct c as [[] [] [] [] [] [] [] []]; cbn [is_digit digit_of_char nat_of_ascii];
    intros Hc; try discriminate Hc; split; reflexivity.
Qed.

Lemma scan_once_array (fuel : nat) (s1 : string) :
  scan_once (S fuel) (String "[" s1) =
  match skip_ws s1 with
  | EmptyString => None
  | String c2 s2 =>
      if Ascii.eqb c2 "]" then Some (PyList [], s2)
      else
        match scan_elements fuel (String c2 s2) with
        | Some (vs, rest) => Some (PyList vs, rest)
        | None => None
        end
  end.
Proof. reflexivity. Qed.

Lemma scan_once_object (fuel : nat) (s1 : string) :
  scan_once (S fuel) (String "{" s1) =
  match skip_ws s1 with
  | EmptyString => None
  | String c2 s2 =>
      if Ascii.eqb c2 "}" then Some (PyDict [], s2)
      else
        match scan_pairs fuel (String c2 s2) with
        | Some (pairs, rest) => Some (PyDict (dict_of_pairs pairs), rest)
        | None => None
        end
  end.
Proof. reflexivity. Qed.

Lemma scan_once_string (fuel : nat) (s1 : string) :
  scan_once (S fuel) (String dquote s1) =
  match scanstring s1 with
  | Some (str, rest) => Some (PyStr str, rest)
  | None => None
  end.
Proof. reflexivity. Qed.

(** The text of a non-empty array and of a non-empty object. *)
Lemma iterencode_list (lvl : nat) (x : pyval) (l : list pyval) :
  snd (iterencode (S lvl) x) = None ->
  Forall (fun y => snd (iterencode (S lvl) y) = None) l ->
  iterencode lvl (PyList (x :: l))
  = (String "[" (newline_indent (S lvl) +:+ text (S lvl) x
                 +:+ more_text (iterencode (S lvl)) (item_separator (S lvl)) l
                 +:+ newline_indent lvl +:+ "]"), None).
Proof.
  intros Hx Hl. cbn [iterencode].
  rewrite (emit_items_ok (iterencode (S lvl)) _ x l Hx Hl).
  unfold and_then, say. cbn [fst snd].
  rewrite !StrFacts.append_assoc. reflexivity.
Qed.

Lemma iterencode_dict (lvl : nat) (kv : string * pyval) (d : list (string * pyval)) :
  snd (encode_entry (S lvl) kv) = None ->
  Forall (fun y => snd (encode_entry (S lvl) y) = None) d ->
  iterencode lvl (PyDict (kv :: d))
  = (String "{" (newline_indent (S lvl) +:+ fst (encode_entry (S lvl) kv)
                 +:+ more_text (encode_entry (S lvl)) (item_separator (S lvl)) d
                 +:+ newline_indent lvl +:+ "}"), None).
Proof.
  intros Hx Hl. cbn [iterencode].
  change (fun kv0 : string * pyval =>
            and_then (say (encode_basestring_ascii (fst kv0) +:+ ": "))
              (iterencode (S lvl) (snd kv0)))
    with (encode_entry (S lvl)).
  rewrite (emit_items_ok (encode_entry (S lvl)) _ kv d Hx Hl).
  unfold and_then, say. cbn [fst snd].
  rewrite !StrFacts.append_assoc. reflexivity.
Qed.

Lemma forallb_Forall_decodes (l : list pyval) :
  Forall (fun v => json_native v = true -> decodes v) l ->
  forallb json_native l = true -> Forall decodes l.
Proof.
  induction 1 as [|x l Hx Hl IH]; cbn [forallb]; intros Hn; constructor;
    apply andb_prop in Hn as [Hnx Hnl]; auto.
Qed.

Lemma forallb_Forall_decodes_snd (d : list (string * pyval)) :
  Forall (fun kv => json_native (snd kv) = true -> decodes (snd kv)) d ->
  forallb (fun kv : string * pyval => json_native (snd kv)) d = true ->
  Forall (fun kv => decodes (snd kv)) d.
Proof.
  induction 1 as [|x l Hx Hl IH]; cbn [forallb]; intros Hn; constructor;
    apply andb_prop in Hn as [Hnx Hnl]; auto.
Qed.

(** Every value that JSON represents as it is decodes to itself. *)
Theorem native_decodes (v : pyval) : json_native v = true -> decodes v.
Proof.
  induction v as [|b|z|s|l IH|l IH|d IH|c] using pyval_nested_ind; intros Hn lvl.
  - split; [reflexivity|]. split; [now exists "n"%char, "ull"|].
    intros rest fuel _ Hlen.
    destruct fuel; [cbn in Hlen; lia | destruct rest; reflexivity].
  - split; [reflexivity|]. split.
    + destruct b; [now exists "t"%char, "rue" | now exists "f"%char, "alse"].
    + intros rest fuel _ Hlen.
      destruct fuel; [cbn in Hlen; lia | destruct b, rest; reflexivity].
  - split; [reflexivity|].
    destruct (int_repr_head z) as (c & t & Hs & Hc).
    unfold text. cbn [iterencode say fst]. split.
    + exists c, t. split; [exact Hs|]. now apply number_head.
    + intros rest fuel Hd Hlen. destruct fuel; [lia|].
      rewrite Hs. cbn [String.append].
      rewrite (scan_once_number c _ fuel Hc).
      change (String c (t +:+ rest)) with (String c t +:+ rest).
      rewrite <- Hs. now apply scan_number_int.
  - split; [reflexivity|]. unfold text. cbn [iterencode say fst]. split.
    + unfold encode_basestring_ascii. now eexists dquote, _.
    + intros rest fuel _ Hlen. destruct fuel; [lia|].
      destruct (scanstring_encoded s rest) as (t & Ht & Hscan).
      rewrite Ht, scan_once_string, Hscan. reflexivity.
  - cbn [json_native] in Hn.
    pose proof (forallb_Forall_decodes l IH Hn) as Hl.
    destruct Hl as [|x l Hx Hl].
    + split; [reflexivity|]. split; [now exists "["%char, "]"|].
      intros rest fuel _ Hlen. destruct fuel; [cbn in Hlen; lia | reflexivity].
    + assert (Hok : snd (iterencode (S lvl) x) = None) by apply Hx.
      assert (Hoks : Forall (fun y => snd (iterencode (S lvl) y) = None) l).
      { eapply Forall_impl; [exact Hl|]. intros y Hy. apply Hy. }
      unfold text. rewrite (iterencode_list lvl x l Hok Hoks). cbn [fst snd].
      split; [reflexivity|]. split; [now eexists "["%char, _|].
      intros rest fuel _ Hlen. destruct fuel; [lia|].
      cbn [String.append]. rewrite scan_once_array.
      rewrite !StrFacts.append_assoc. cbn [String.append].
      rewrite (skip_ws_to_value (S lvl) (S lvl) x _ Hx).
      destruct (Hx (S lvl)) as (_ & (c & t & Ht & _ & Hc) & _).
      rewrite Ht at 1. cbn [String.append]. rewrite Hc.
      match goal with
      | |- context [scan_elements fuel (String c (t +:+ ?R))] =>
          change (String c (t +:+ R)) with (String c t +:+ R)
      end.
      rewrite <- Ht, (scan_elements_ok lvl l Hl x rest fuel Hx); [reflexivity|].
      cbn [String.length] in Hlen. repeat rewrite StrFacts.length_append in Hlen.
      repeat rewrite StrFacts.length_append.
      cbn [String.length] in Hlen. lia.
  - discriminate Hn.
  - cbn [json_native] in Hn. apply andb_prop in Hn as [Hn Hnd].
    apply bool_decide_eq_true in Hnd.
    pose proof (forallb_Forall_decodes_snd d IH Hn) as Hd.
    destruct Hd as [|[k x] d Hx Hd].
    + split; [reflexivity|]. split; [now exists "{"%char, "}"|].
      intros rest fuel _ Hlen. destruct fuel; [cbn in Hlen; lia | reflexivity].
    + cbn [snd] in Hx.
      assert (Hok : snd (encode_entry (S lvl) (k, x)) = None).
      { apply encode_entry_ok. apply Hx. }
      assert (Hoks : Forall (fun y => snd (encode_entry (S lvl) y) = None) d).
      { eapply Forall_impl; [exact Hd|]. intros y Hy. apply encode_entry_ok, Hy. }
      unfold text. rewrite (iterencode_dict lvl (k, x) d Hok Hoks). cbn [fst snd].
      split; [reflexivity|]. split; [now eexists "{"%char, _|].
      intros rest fuel _ Hlen. destruct fuel; [lia|].
      cbn [String.append]. rewrite scan_once_object.
      rewrite !StrFacts.append_assoc. cbn [String.append].
      rewrite skip_ws_newline_indent.
      match goal with
      | |- context [skip_ws (?E +:+ ?R)] =>
          assert (Hq : skip_ws (E +:+ R)
                       = String dquote
                           (escape_body k
                            +:+ String dquote
                                  (String ":" (String " " (text (S lvl) x +:+ R)))))
            by (rewrite entry_shape; reflexivity);
          rewrite Hq
      end.
      change (Ascii.eqb dquote "}") with false. cbv iota.
      rewrite <- entry_shape.
      rewrite (scan_pairs_ok lvl d Hd k x rest fuel Hx).
      * now rewrite (dict_of_pairs_nodup _ Hnd).
      * cbn [String.length] in Hlen. repeat rewrite StrFacts.length_append in Hlen.
        repeat rewrite StrFacts.length_append.
        cbn [String.length] in Hlen. lia.
  - discriminate Hn.
Qed.

(** [json.loads(json.dumps(v, indent=4))] is [v]. *)
Theorem loads_dumps (v : pyval) :
  json_native v = true ->
  exists s, dumps v = Ok s /\ loads s = Ok v.
Proof.
  intros Hn.
  destruct (native_decodes v Hn 0%nat) as (Hok & (c & t & Ht & Hws & _) & Hscan).
  exists (text 0 v). split.
  - unfold dumps, text. destruct (iterencode 0 v) as [s err].
    cbn [fst snd] in *. now subst err.
  - unfold loads.
    specialize (Hscan EmptyString (S (String.length (text 0 v))) eq_refl
                  (Nat.lt_succ_diag_r _)).
    rewrite StrFacts.append_nil_r in Hscan.
    rewrite Ht at 2. rewrite (skip_ws_head c t Hws), <- Ht, Hscan. reflexivity.
Qed.

(** *** The codec on examples

    In the examples an apostrophe stands for a double quote
    ([Str.dq]). *)

Example dumps_nested :
  dumps (PyDict [("a", PyList [PyInt 1; PyTuple [PyInt 2; PyInt (-30)]]);
                 ("b", PyDict []); ("c", PyList []); ("d", PyNone);
                 ("e", PyBool true);
                 ("s", PyStr (String "x" (String "010" (String "233" EmptyString))))])
  = Ok (Str.dq "{
    'a': [
        1,
        [
            2,
            -30
        ]
    ],
    'b': {},
    'c': [],
    'd': null,
    'e': true,
    's': 'x\n\u00e9'
}").
Proof. vm_compute. reflexivity. Qed.

Example dumps_unknown_object :
  iterencode 0 (PyDict [("a", PyObject "set")])
  = (Str.dq "{
    'a': ", Some (TypeError "Object of type set is not JSON serializable")).
Proof. vm_compute. reflexivity. Qed.

Example loads_examples :
  loads (Str.dq "  [1, 2 , {'k' : null, 'k': [[]] } ] ")
    = Ok (PyList [PyInt 1; PyInt 2; PyDict [("k", PyList [PyList []])]]) /\
  loads (Str.dq "'A\n\/'") = Ok (PyStr (String "A" (String "010" "/"))) /\
  loads "-0" = Ok (PyInt 0) /\
  loads "[01]" = Raise JSONDecodeError /\
  loads "[1,]" = Raise JSONDecodeError /\
  loads "nul" = Raise JSONDecodeError /\
  loads "1 2" = Raise JSONDecodeError.
Proof. vm_compute. repeat split. Qed.

End JsonFacts.

(** ** Atomic JSON store: writing, then loading *)

Module RoundTripSpec.
Import Py Fs Json JsonStore FsFacts JsonFacts JsonStoreSpec.

(** With the directory in place, a free temporary name and room on the
    disk for the text, [write_json] returns normally and [path] then holds
    the whole text, with mode [0644]. *)
Lemma write_json_stores (e : env) (path : string) (data : pyval) (d : fs) (s : string) :
  iterencode 0 data = (s, None) ->
  PosixPath.dirname path = EmptyString \/ PosixPath.dirname path ∈ dirs d ->
  path ∉ dirs d ->
  (exists n, In n (tmp_candidates e)
             /\ path_exists (PosixPath.join (PosixPath.dirname path) n) d = false) ->
  (String.length s <= free d)%nat ->
  exists d',
    write_json e path data d = (Ok tt, d') /\
    files d' !! path = Some {| f_data := s; f_mode := 420 |}.
Proof.
  intros Henc Hdir Hnodir Hcand Hroom.
  unfold write_json, write_json_body.
  destruct (named_temporary_file_created _ _ _ Hdir Hcand) as (f & d1 & Htmp).
  rewrite Htmp.
  apply named_temporary_file_inv in Htmp
    as (Hlink & Hpend & Hnone & _ & Hfiles & Hdirs & Hfree1).
  assert (Hl1 : files d1 !! w_link f = Some {| f_data := EmptyString; f_mode := 384 |}).
  { rewrite Hlink, Hfiles. apply lookup_insert_eq. }
  (* json.dump *)
  unfold json_dump. rewrite Henc.
  destruct (write_fits (buffer_size e) f s d1 _ Hl1) as (k & d2 & Hk & Hw & Hl2 & _ & Hd2 & Hfree2).
  { rewrite Hpend. cbn [String.append]. lia. }
  rewrite Hpend in Hk, Hw, Hl2. cbn [String.append f_data f_mode] in Hk, Hw, Hl2.
  rewrite Hw.
  (* os.fchmod *)
  unfold fchmod. cbn [w_link with_pending]. rewrite Hl2. cbn [f_data].
  (* os.rename *)
  unfold rename. cbn [w_name with_pending files with_files dirs free].
  rewrite Hlink, lookup_insert_eq.
  rewrite (bool_decide_eq_false_2 (path ∈ dirs d2)) by congruence.
  (* the release of f *)
  set (f3 := follow _ _ _).
  assert (Hl3 : w_link f3 = path).
  { subst f3. unfold follow. cbn [w_link with_pending].
    rewrite Hlink, String.eqb_refl. reflexivity. }
  assert (Hp3 : w_pending f3 = Str.drop k s).
  { subst f3. unfold follow. cbn [w_link with_pending].
    rewrite Hlink, String.eqb_refl. reflexivity. }
  eexists. split; [reflexivity|].
  match goal with
  | |- files (release f3 ?d4) !! path = _ =>
      destruct (release_fits f3 d4 {| f_data := Str.take k s; f_mode := 420 |})
        as (Hfinal & _)
  end.
  - rewrite Hl3. cbn [files]. apply lookup_insert_eq.
  - rewrite Hp3, StrFacts.length_drop. cbn [free]. lia.
  - rewrite Hl3 in Hfinal. rewrite Hfinal, Hp3. cbn [f_data f_mode].
    now rewrite StrFacts.take_drop.
Qed.




End RoundTripSpec.

(** ** Removing a file *)

Module RemoverSpec.
Import Py Fs Remover.



End RemoverSpec.

(** ** Ignition version: the directory of the image *)

Module IgnitionPaths.
Import Ignition.

Lemma rfind_from_absent (c : ascii) (s : string) :
  Str.contains_char c s = false ->
  forall i last, Str.rfind_from c s i last = last.
Proof.
  induction s as [|a s IH]; intros Hc i last; cbn in *; [reflexivity|].
  apply orb_false_iff in Hc as [Ha Hs]. rewrite Ha. now apply IH.
Qed.

Lemma rfind_from_last (c : ascii) (b : string) :
  Str.contains_char c b = false ->
  forall a i last,
    Str.rfind_from c (a +:+ String c b) i last = i + Z.of_nat (String.length a).
Proof.
  intros Hb. induction a as [|x a IH]; intros i last; cbn [String.append Str.rfind_from].
  - rewrite Ascii.eqb_refl, (rfind_from_absent c b Hb). cbn. lia.
  - rewrite IH. cbn [String.length]. lia.
Qed.

Lemma drop_append (a b : string) : Str.drop (String.length a) (a +:+ b) = b.
Proof. induction a as [|x a IH]; [reflexivity | exact IH]. Qed.

(** The basename of [dir/name] is [name] when [name] has no slash. *)
Lemma basename_join (dir name : string) :
  Str.contains_char PosixPath.sep name = false ->
  PosixPath.basename (dir +:+ String PosixPath.sep name) = name.
Proof.
  intros Hn. unfold PosixPath.basename, Str.rfind.
  rewrite (rfind_from_last _ _ Hn).
  replace (Z.to_nat (0 + Z.of_nat (String.length dir) + 1))
    with (String.length (dir +:+ String PosixPath.sep EmptyString)).
  - replace (dir +:+ String PosixPath.sep name)
      with ((dir +:+ String PosixPath.sep EmptyString) +:+ name).
    + apply drop_append.
    + now rewrite StrFacts.append_assoc.
  - rewrite StrFacts.length_append. cbn. lia.
Qed.

(** X2.  Only the last component of the path counts: for a name without
    a slash, the answer for [dir/name] is the answer for [name], whatever
    [dir] is (a directory called [rhcos-42] does not make an image legacy);
    a path that ends with a slash has an empty basename and gets ["3.0.0"]. *)
Theorem disk_ignition_version_ignores_directory (dir name : string)
    (Hname : Str.contains_char PosixPath.sep name = false) :
  disk_ignition_version (dir +:+ "/" +:+ name) = disk_ignition_version name /\
  disk_ignition_version (dir +:+ "/") = "3.0.0".
Proof.
  unfold disk_ignition_version.
  change (dir +:+ "/" +:+ name) with (dir +:+ String PosixPath.sep name).
  change (dir +:+ "/") with (dir +:+ String PosixPath.sep EmptyString).
  rewrite (basename_join dir name Hname).
  rewrite (basename_join dir EmptyString eq_refl).
  split; [|reflexivity].
  f_equal. f_equal. unfold PosixPath.basename, Str.rfind.
  now rewrite (rfind_from_absent _ _ Hname).
Qed.

Lemma disk_ignition_version_ignores_directory_witness :
  disk_ignition_version "/srv/rhcos-42/fcos.qcow2" = disk_ignition_version "fcos.qcow2" /\
  disk_ignition_version "/srv/rhcos-42/" = "3.0.0".
Proof.
  exact (disk_ignition_version_ignores_directory "/srv/rhcos-42" "fcos.qcow2" eq_refl).
Defined.

End IgnitionPaths.

(** ** Timestamp formatter: shape and order of the results *)

Module TimestampShape.
Import Py Timestamp TimestampOrder.

(** Linear arithmetic with division and remainder by constants. *)
Ltac div_lia := zify; Z.to_euclidean_division_equations; lia.

Lemma dec_digits_small (k n : nat) (acc : string) :
  (n < 10)%nat -> dec_digits (S k) n acc = String (digit_char n) acc.
Proof.
  intros Hn. cbn [dec_digits]. now rewrite Nat.div_small.
Qed.

Lemma dec_digits_step (k n : nat) (acc : string) :
  (10 <= n)%nat ->
  dec_digits (S k) n acc = dec_digits k (n / 10) (String (digit_char n) acc).
Proof.
  intros Hn. cbn [dec_digits].
  destruct (Nat.eqb_spec (n / 10) 0) as [H0|]; [|reflexivity].
  apply Nat.div_small_iff in H0; lia.
Qed.

(** A year of four digits is printed with its four digits. *)
Lemma dec_four_digits (y : nat) :
  (1000 <= y < 10 * 1000)%nat ->
  dec y = String (digit_char (y / 1000)) (String (digit_char (y / 100))
            (String (digit_char (y / 10)) (String (digit_char y) EmptyString))).
Proof.
  intros Hy. unfold dec.
  destruct y as [|[|[|y]]]; try lia.
  rewrite dec_digits_step by lia.
  rewrite dec_digits_step by div_lia.
  rewrite dec_digits_step by div_lia.
  rewrite dec_digits_small by div_lia.
  rewrite !Nat.Div0.div_div. reflexivity.
Qed.

Lemma digit_char_code (n : nat) : nat_of_ascii (digit_char n) = (48 + n mod 10)%nat.
Proof.
  unfold digit_char. apply nat_ascii_embedding.
  pose proof (Nat.mod_upper_bound n 10). lia.
Qed.

Lemma digit_char_is_digit (n : nat) :
  (48 <=? nat_of_ascii (digit_char n))%nat && (nat_of_ascii (digit_char n) <=? 57)%nat = true.
Proof.
  rewrite digit_char_code. pose proof (Nat.mod_upper_bound n 10).
  apply andb_true_iff. split; apply Nat.leb_le; lia.
Qed.

Lemma strftime_four_digit_year (t : datetime) :
  (1000 <= dt_year t < 10 * 1000)%nat ->
  strftime_rfc3339 t =
  String (digit_char (dt_year t / 1000)) (String (digit_char (dt_year t / 100))
    (String (digit_char (dt_year t / 10)) (String (digit_char (dt_year t))
    (String "-" (String (digit_char (dt_month t / 10)) (String (digit_char (dt_month t))
    (String "-" (String (digit_char (dt_day t / 10)) (String (digit_char (dt_day t))
    (String "T" (String (digit_char (dt_hour t / 10)) (String (digit_char (dt_hour t))
    (String ":" (String (digit_char (dt_minute t / 10)) (String (digit_char (dt_minute t))
    (String ":" (String (digit_char (dt_second t / 10)) (String (digit_char (dt_second t))
    (String "Z" EmptyString))))))))))))))))))).
Proof.
  intros Hy. unfold strftime_rfc3339, pad2. rewrite (dec_four_digits _ Hy). reflexivity.
Qed.

(** X3.  For a year of four digits the result has the fixed shape
    [YYYY-MM-DDTHH:MM:SSZ]: twenty characters, digits and the separators at
    their places, a literal [Z] at the end; no fraction of a second and no
    numeric offset are printed.  This holds for the timestamp passed and,
    with no argument, for the clock value. *)
Theorem rfc3339_time_shape (now : datetime) (arg : option datetime) (s : string)
    (Hyear : (1000 <= dt_year (default now arg) < 10 * 1000)%nat)
    (Hcall : rfc3339_time now arg = Ok s) :
  matches "dddd-dd-ddTdd:dd:ddZ" s = true /\ String.length s = 20%nat.
Proof.
  assert (Hs : s = strftime_rfc3339 (default now arg)).
  { unfold rfc3339_time in Hcall. destruct arg as [t|]; cbn [from_option id].
    - destruct (decide (tzname t = Some "UTC")); congruence.
    - congruence. }
  subst s. rewrite (strftime_four_digit_year _ Hyear).
  split; [|reflexivity].
  cbn [matches Ascii.eqb Bool.eqb andb].
  rewrite !digit_char_is_digit. reflexivity.
Qed.

Lemma rfc3339_time_shape_witness :
  rfc3339_time (new_year_2021 None) (Some eve_2020) = Ok "2020-12-31T23:59:59Z" /\
  (matches "dddd-dd-ddTdd:dd:ddZ" "2020-12-31T23:59:59Z" = true /\
   String.length "2020-12-31T23:59:59Z" = 20%nat) /\
  rfc3339_time (new_year_2021 None) None = Ok "2021-01-01T00:00:00Z" /\
  (matches "dddd-dd-ddTdd:dd:ddZ" "2021-01-01T00:00:00Z" = true /\
   String.length "2021-01-01T00:00:00Z" = 20%nat).
Proof.
  split; [reflexivity|]. split; [|split; [reflexivity|]].
  - apply (rfc3339_time_shape (new_year_2021 None) (Some eve_2020)).
    + cbn. lia.
    + reflexivity.
  - apply (rfc3339_time_shape (new_year_2021 None) None).
    + cbn. lia.
    + reflexivity.
Defined.

(** *** Order *)

Lemma ascii_compare_digits (a b : nat) :
  Ascii.compare (digit_char a) (digit_char b) = Nat.compare (a mod 10) (b mod 10).
Proof.
  unfold Ascii.compare.
  assert (Hn : forall n, N_of_ascii (digit_char n) = N.of_nat (48 + n mod 10)).
  { intros n. rewrite <- digit_char_code. unfold nat_of_ascii.
    now rewrite N2Nat.id. }
  rewrite !Hn.
  rewrite <- Nat2N.inj_compare.
  pose proof (Nat.mod_upper_bound a 10). pose proof (Nat.mod_upper_bound b 10).
  destruct (Nat.compare_spec (a mod 10) (b mod 10));
    [apply Nat.compare_eq_iff | apply Nat.compare_lt_iff | apply Nat.compare_gt_iff]; lia.
Qed.

Lemma ascii_compare_refl (c : ascii) : Ascii.compare c c = Eq.
Proof. unfold Ascii.compare. apply N.compare_refl. Qed.

(** Two digits, most significant first, compare as the number does. *)
Lemma two_digits_compare (m n : nat) (rest : comparison) :
  (m < 100)%nat -> (n < 100)%nat ->
  then_compare (Nat.compare ((m / 10) mod 10) ((n / 10) mod 10))
    (then_compare (Nat.compare (m mod 10) (n mod 10)) rest)
  = then_compare (Nat.compare m n) rest.
Proof.
  intros Hm Hn.
  destruct (Nat.compare_spec ((m / 10) mod 10) ((n / 10) mod 10)) as [H1|H1|H1];
    cbn [then_compare].
  - destruct (Nat.compare_spec (m mod 10) (n mod 10)) as [H0|H0|H0]; cbn [then_compare].
    + replace (m ?= n)%nat with Eq; [reflexivity|].
      symmetry. apply Nat.compare_eq_iff. div_lia.
    + replace (m ?= n)%nat with Lt; [reflexivity|].
      symmetry. apply Nat.compare_lt_iff. div_lia.
    + replace (m ?= n)%nat with Gt; [reflexivity|].
      symmetry. apply Nat.compare_gt_iff. div_lia.
  - replace (m ?= n)%nat with Lt; [reflexivity|].
    symmetry. apply Nat.compare_lt_iff. div_lia.
  - replace (m ?= n)%nat with Gt; [reflexivity|].
    symmetry. apply Nat.compare_gt_iff. div_lia.
Qed.

Lemma four_digits_compare (m n : nat) (rest : comparison) :
  (m < 10 * 1000)%nat -> (n < 10 * 1000)%nat ->
  then_compare (Nat.compare ((m / 1000) mod 10) ((n / 1000) mod 10))
    (then_compare (Nat.compare ((m / 100) mod 10) ((n / 100) mod 10))
       (then_compare (Nat.compare ((m / 10) mod 10) ((n / 10) mod 10))
          (then_compare (Nat.compare (m mod 10) (n mod 10)) rest)))
  = then_compare (Nat.compare m n) rest.
Proof.
  intros Hm Hn.
  destruct (Nat.compare_spec ((m / 1000) mod 10) ((n / 1000) mod 10)) as [H3|H3|H3];
    cbn [then_compare];
    [destruct (Nat.compare_spec ((m / 100) mod 10) ((n / 100) mod 10)) as [H2|H2|H2];
     cbn [then_compare];
     [destruct (Nat.compare_spec ((m / 10) mod 10) ((n / 10) mod 10)) as [H1|H1|H1];
      cbn [then_compare];
      [destruct (Nat.compare_spec (m mod 10) (n mod 10)) as [H0|H0|H0];
       cbn [then_compare]|..]|..]|..];
    match goal with
    | |- ?r = then_compare (?m ?= ?n)%nat _ =>
        first
          [ replace (m ?= n)%nat with Eq by (symmetry; apply Nat.compare_eq_iff; div_lia)
          | replace (m ?= n)%nat with Lt by (symmetry; apply Nat.compare_lt_iff; div_lia)
          | replace (m ?= n)%nat with Gt by (symmetry; apply Nat.compare_gt_iff; div_lia) ]
    end; reflexivity.
Qed.

Lemma string_compare_cons (a b : ascii) (s s' : string) :
  String.compare (String a s) (String b s')
  = then_compare (Ascii.compare a b) (String.compare s s').
Proof. cbn [String.compare]. now destruct (Ascii.compare a b). Qed.

Lemma string_compare_refl (s : string) : String.compare s s = Eq.
Proof.
  induction s as [|c s IH]; [reflexivity|].
  cbn [String.compare]. now rewrite ascii_compare_refl.
Qed.

Lemma then_compare_eq (c rest : comparison) :
  then_compare c rest = Eq -> c = Eq /\ rest = Eq.
Proof. destruct c; cbn; intros Hr; try discriminate. now split. Qed.

(** X4.  Timestamps sort as their strings do: for two UTC timestamps
    with years of four digits, comparing the two results character by
    character gives the order of the two instants; in particular equal
    results come from equal calendar fields. *)
Theorem rfc3339_time_sorts (now t1 t2 : datetime) (s1 s2 : string)
    (H1 : four_digit_year t1) (H2 : four_digit_year t2)
    (Hs1 : rfc3339_time now (Some t1) = Ok s1)
    (Hs2 : rfc3339_time now (Some t2) = Ok s2) :
  String.compare s1 s2 = chronological t1 t2 /\
  (s1 = s2 ->
   dt_year t1 = dt_year t2 /\ dt_month t1 = dt_month t2 /\ dt_day t1 = dt_day t2 /\
   dt_hour t1 = dt_hour t2 /\ dt_minute t1 = dt_minute t2 /\
   dt_second t1 = dt_second t2).
Proof.
  assert (Hcmp : String.compare s1 s2 = chronological t1 t2).
  { destruct H1 as (Hy1 & Hmo1 & Hd1 & Hh1 & Hmi1 & Hse1).
    destruct H2 as (Hy2 & Hmo2 & Hd2 & Hh2 & Hmi2 & Hse2).
    unfold rfc3339_time in Hs1, Hs2.
    destruct (decide (tzname t1 = Some "UTC")); [|discriminate].
    destruct (decide (tzname t2 = Some "UTC")); [|discriminate].
    inversion Hs1; inversion Hs2; subst s1 s2.
    rewrite (strftime_four_digit_year t1 Hy1), (strftime_four_digit_year t2 Hy2).
    rewrite !string_compare_cons, !ascii_compare_digits, !ascii_compare_refl.
    cbn [String.compare then_compare].
    rewrite (two_digits_compare (dt_second t1) (dt_second t2) Eq) by assumption.
    rewrite (two_digits_compare (dt_minute t1) (dt_minute t2)) by assumption.
    rewrite (two_digits_compare (dt_hour t1) (dt_hour t2)) by assumption.
    rewrite (two_digits_compare (dt_day t1) (dt_day t2)) by assumption.
    rewrite (two_digits_compare (dt_month t1) (dt_month t2)) by assumption.
    rewrite (four_digits_compare (dt_year t1) (dt_year t2)) by lia.
    unfold chronological.
    now destruct (dt_second t1 ?= dt_second t2)%nat. }
  split; [exact Hcmp|].
  intros Heq. rewrite Heq, string_compare_refl in Hcmp. symmetry in Hcmp.
  unfold chronological in Hcmp.
  apply then_compare_eq in Hcmp as [Hy Hcmp]. apply then_compare_eq in Hcmp as [Hmo Hcmp].
  apply then_compare_eq in Hcmp as [Hd Hcmp]. apply then_compare_eq in Hcmp as [Hh Hcmp].
  apply then_compare_eq in Hcmp as [Hmi Hse].
  apply Nat.compare_eq_iff in Hy, Hmo, Hd, Hh, Hmi, Hse. auto 7.
Qed.

Lemma rfc3339_time_sorts_witness :
  rfc3339_time (new_year_2021 None) (Some eve_2020) = Ok "2020-12-31T23:59:59Z" /\
  rfc3339_time (new_year_2021 None) (Some (new_year_2021 (Some utc)))
    = Ok "2021-01-01T00:00:00Z" /\
  chronological eve_2020 (new_year_2021 (Some utc)) = Lt /\
  String.compare "2020-12-31T23:59:59Z" "2021-01-01T00:00:00Z" = Lt.
Proof.
  split; [reflexivity|]. split; [reflexivity|]. split; [reflexivity|].
  apply (proj1 (rfc3339_time_sorts (new_year_2021 None) eve_2020 (new_year_2021 (Some utc))
                  "2020-12-31T23:59:59Z" "2021-01-01T00:00:00Z"
                  ltac:(unfold four_digit_year; cbn; lia)
                  ltac:(unfold four_digit_year; cbn; lia)
                  eq_refl eq_refl)).
Defined.

End TimestampShape.

(** ** Content hasher: the read loop and the shape of the digest *)

Module HasherTraceSpec.
Import Py Fs Hasher HasherTrace.

(** The loop of [sha256sum_file] updates the digest object with the
    chunks read, in order. *)
Lemma feed_chunks_trace (n fuel : nat) :
  forall (h : sha256_obj) (rest : string),
    feed_chunks fuel n h rest
    = option_map (fun chunks => fold_left update chunks h) (read_chunks fuel n rest).
Proof.
  induction fuel as [|fuel IH]; intros h rest; [reflexivity|].
  cbn [feed_chunks read_chunks read].
  destruct (Str.take n rest) as [|c b]; [reflexivity|].
  rewrite IH. now destruct (read_chunks fuel n (Str.drop n rest)).
Qed.

(** The chunks of a read loop: they make up the content; each has
    between one and [n] bytes, and all but the last have [n]; so there are
    as many as [n] goes into the length, rounded up. *)
Lemma read_chunks_spec (n : nat) (Hn : (0 < n)%nat) (fuel : nat) :
  forall rest : string,
    (String.length rest < fuel)%nat ->
    exists chunks,
      read_chunks fuel n rest = Some chunks /\
      join_chunks chunks = rest /\
      Forall (fun b => (1 <= String.length b <= n)%nat) chunks /\
      (forall i b, (S i < length chunks)%nat -> nth_error chunks i = Some b ->
                   String.length b = n) /\
      (String.length rest <= length chunks * n < String.length rest + n)%nat.
Proof.
  induction fuel as [|fuel IH]; intros rest Hlen; [lia|].
  cbn [read_chunks read].
  destruct (Str.take n rest) as [|c b] eqn:Hb.
  - apply HasherSpec.take_empty in Hb; [|assumption]. subst rest.
    exists []. cbn. repeat split; auto; try lia.
  - assert (Hnonempty : (0 < String.length rest)%nat).
    { destruct n; [lia|]. destruct rest; [discriminate | cbn; lia]. }
    destruct (IH (Str.drop n rest)) as (chunks & Hrc & Hjoin & Hall & Hfull & Hcount).
    { rewrite StrFacts.length_drop. lia. }
    rewrite Hrc. exists (String c b :: chunks). cbn [option_map].
    assert (Hlb : String.length (String c b) = Nat.min n (String.length rest)).
    { rewrite <- Hb. apply StrFacts.length_take. }
    rewrite StrFacts.length_drop in Hcount.
    split; [reflexivity|]. split; [|split; [|split]].
    + cbn [join_chunks fold_right]. fold (join_chunks chunks).
      rewrite Hjoin, <- Hb. apply StrFacts.take_drop.
    + constructor; [|exact Hall]. rewrite Hlb. cbn [String.length] in Hlb. lia.
    + intros i b' Hi Hnth. destruct i as [|i].
      * cbn in Hnth. inversion Hnth; subst b'. rewrite Hlb.
        cbn [length] in Hi.
        destruct chunks as [|b2 chunks']; [cbn in Hi; lia|].
        (* a second chunk exists, so the first read did not reach the end *)
        cbn [length] in Hcount.
        assert (Hge : (n <= S (length chunks') * n)%nat) by (cbn [Nat.mul]; lia).
        lia.
      * cbn [nth_error] in Hnth. cbn [length] in Hi.
        apply (Hfull i b'); [lia | exact Hnth].
    + destruct chunks as [|b2 chunks']; cbn [length Nat.mul] in *; lia.
Qed.

Lemma hex_char_lower (n : Z) :
  0 <= n < 16 -> is_lower_hex (Sha256.hex_char n) = true.
Proof.
  intros Hn. unfold Sha256.hex_char.
  assert (Hk : (Z.to_nat n < 16)%nat) by lia.
  revert Hk. generalize (Z.to_nat n). intros k Hk.
  do 16 (destruct k as [|k]; [reflexivity|]). lia.
Qed.

Lemma hex_word_shape (digits : nat) (x : Z) :
  String.length (Sha256.hex_word digits x) = digits /\
  all_lower_hex (Sha256.hex_word digits x) = true.
Proof.
  induction digits as [|k [IHl IHh]]; [now split|].
  cbn [Sha256.hex_word String.length all_lower_hex]. split; [now rewrite IHl|].
  rewrite IHh, hex_char_lower; [reflexivity|].
  apply Z.mod_pos_bound. lia.
Qed.

Lemma all_lower_hex_append (a b : string) :
  all_lower_hex (a +:+ b) = all_lower_hex a && all_lower_hex b.
Proof.
  induction a as [|c a IH]; [reflexivity|].
  cbn [String.append all_lower_hex]. rewrite IH. apply andb_assoc.
Qed.

Lemma compress_length (h block : list Z) :
  length h = 8%nat -> length (Sha256.compress h block) = 8%nat.
Proof.
  intros Hh. unfold Sha256.compress.
  rewrite length_map, length_combine, Hh.
  destruct (fold_left Sha256.round _ _) as [[[[[[[a b] c] d] e] f] g] h'].
  reflexivity.
Qed.

Lemma digest_words_length (msg : string) : length (Sha256.digest_words msg) = 8%nat.
Proof.
  unfold Sha256.digest_words.
  generalize (Sha256.blocks
                (length (Sha256.words_of
                           (length (Sha256.bytes_of_string msg
                                    ++ Sha256.padding (length (Sha256.bytes_of_string msg)))%list)
                           (Sha256.bytes_of_string msg
                            ++ Sha256.padding (length (Sha256.bytes_of_string msg)))%list))
                (Sha256.words_of
                   (length (Sha256.bytes_of_string msg
                            ++ Sha256.padding (length (Sha256.bytes_of_string msg)))%list)
                   (Sha256.bytes_of_string msg
                    ++ Sha256.padding (length (Sha256.bytes_of_string msg)))%list)).
  intros bl.
  assert (H0 : length Sha256.H0 = 8%nat) by reflexivity.
  revert H0. generalize Sha256.H0.
  induction bl as [|b bl IH]; intros h Hh; cbn [fold_left]; [exact Hh|].
  apply IH. now apply compress_length.
Qed.

(** A digest is sixty-four lowercase hexadecimal digits. *)
Lemma hexdigest_shape (msg : string) :
  String.length (Sha256.hexdigest msg) = 64%nat /\
  all_lower_hex (Sha256.hexdigest msg) = true.
Proof.
  unfold Sha256.hexdigest.
  pose proof (digest_words_length msg) as Hlen.
  assert (Hgen : forall ws : list Z,
             String.length (fold_right (fun w acc => Sha256.hex_word 8 w +:+ acc) EmptyString ws)
             = (8 * length ws)%nat /\
             all_lower_hex (fold_right (fun w acc => Sha256.hex_word 8 w +:+ acc) EmptyString ws)
             = true).
  { induction ws as [|w ws [IHl IHh]]; [now split|].
    cbn [fold_right length].
    rewrite StrFacts.length_append, all_lower_hex_append, IHl, IHh.
    destruct (hex_word_shape 8 w) as [Hl Hh]. rewrite Hl, Hh. split; [lia | reflexivity]. }
  destruct (Hgen (Sha256.digest_words msg)) as [Hl Hh].
  rewrite Hl, Hlen. now split.
Qed.

(** X5.  The read loop of [sha256sum_file] takes the file in pieces: the
    digest object is updated with chunks that make up the content, each
    of at least one and at most 128 KiB bytes, all but the last of exactly
    128 KiB; their number is the length divided by 128 KiB, rounded up (none
    for an empty file). *)
Theorem sha256sum_file_reads_in_chunks (d : fs) (path : string) (fl : file)
    (Hfile : files d !! path = Some fl) :
  exists chunks,
    read_chunks (S (String.length (f_data fl))) chunk_size (f_data fl) = Some chunks /\
    sha256sum_file path d = Some (Ok (hexdigest (fold_left update chunks sha256_new))) /\
    join_chunks chunks = f_data fl /\
    Forall (fun b => (1 <= String.length b <= chunk_size)%nat) chunks /\
    (forall i b, (S i < length chunks)%nat -> nth_error chunks i = Some b ->
                 String.length b = chunk_size) /\
    (String.length (f_data fl) <= length chunks * chunk_size
     < String.length (f_data fl) + chunk_size)%nat.
Proof.
  destruct (read_chunks_spec chunk_size HasherSpec.chunk_size_pos
              (S (String.length (f_data fl))) (f_data fl))
    as (chunks & Hrc & Hrest); [lia|].
  exists chunks. split; [exact Hrc|]. split; [|exact Hrest].
  unfold sha256sum_file. rewrite Hfile, feed_chunks_trace, Hrc. reflexivity.
Qed.

Lemma sha256sum_file_reads_in_chunks_witness :
  exists chunks,
    read_chunks 11 chunk_size "0123456789" = Some chunks /\
    sha256sum_file "/srv/blob" sample_blob_fs
      = Some (Ok (hexdigest (fold_left update chunks sha256_new))) /\
    join_chunks chunks = "0123456789" /\
    Forall (fun b => (1 <= String.length b <= chunk_size)%nat) chunks /\
    (forall i b, (S i < length chunks)%nat -> nth_error chunks i = Some b ->
                 String.length b = chunk_size) /\
    (10 <= length chunks * chunk_size < 10 + chunk_size)%nat.
Proof.
  exact (sha256sum_file_reads_in_chunks sample_blob_fs "/srv/blob"
           {| f_data := "0123456789"; f_mode := 420 |} eq_refl).
Defined.

(** The same loop with reads of four bytes, on ten bytes. *)
Example read_chunks_of_four :
  read_chunks 11 4 "0123456789" = Some ["0123"; "4567"; "89"].
Proof. reflexivity. Qed.

(** X6.  For every file that exists the result of [sha256sum_file] is a
    string of sixty-four characters, each a decimal digit or a letter from
    [a] to [f]. *)
Theorem sha256sum_file_hex (d : fs) (path : string) (fl : file)
    (Hfile : files d !! path = Some fl) :
  exists s,
    sha256sum_file path d = Some (Ok s) /\
    String.length s = 64%nat /\ all_lower_hex s = true.
Proof.
  exists (Sha256.hexdigest (f_data fl)). split.
  - unfold sha256sum_file. rewrite Hfile.
    rewrite (HasherSpec.feed_chunks_all chunk_size HasherSpec.chunk_size_pos) by lia.
    reflexivity.
  - apply hexdigest_shape.
Qed.

Lemma sha256sum_file_hex_witness :
  exists s,
    sha256sum_file "/srv/blob" sample_blob_fs = Some (Ok s) /\
    String.length s = 64%nat /\ all_lower_hex s = true.
Proof.
  exact (sha256sum_file_hex sample_blob_fs "/srv/blob"
           {| f_data := "0123456789"; f_mode := 420 |} eq_refl).
Defined.

Example sha256sum_file_blob :
  sha256sum_file "/srv/blob" sample_blob_fs
  = Some (Ok "84d89877f0d4041efb6bf91a16f0248f2fd573e6af05c19f96bedb9f882f7882").
Proof. vm_compute. reflexivity. Qed.

End HasherTraceSpec.

(** ** The JSON codec: what the decoder returns, tuples, characters *)

Module CodecSpec.
Import Py Json JsonStore JsonValues JsonFacts.

(** *** What the decoder returns *)

Lemma dict_set_keys (k : string) (v : pyval) (d : list (string * pyval)) :
  map fst (dict_set k v d)
  = if bool_decide (k ∈ map fst d) then map fst d else (map fst d ++ [k])%list.
Proof.
  induction d as [|[k' v'] d IH]; cbn [dict_set map fst].
  - reflexivity.
  - destruct (String.eqb_spec k k') as [->|Hne]; cbn [map fst].
    + rewrite bool_decide_eq_true_2 by (left). reflexivity.
    + rewrite IH. destruct (bool_decide (k ∈ map fst d)) eqn:Hin.
      * apply bool_decide_eq_true_1 in Hin.
        rewrite bool_decide_eq_true_2 by (now right). reflexivity.
      * apply bool_decide_eq_false_1 in Hin.
        rewrite bool_decide_eq_false_2; [reflexivity|].
        intros Hx. apply elem_of_cons in Hx as [Hx|Hx]; [congruence | contradiction].
Qed.

Lemma dict_set_nodup (k : string) (v : pyval) (d : list (string * pyval)) :
  NoDup (map fst d) -> NoDup (map fst (dict_set k v d)).
Proof.
  intros Hnd. rewrite dict_set_keys.
  destruct (bool_decide (k ∈ map fst d)) eqn:Hin; [exact Hnd|].
  apply bool_decide_eq_false_1 in Hin.
  apply NoDup_app. split; [exact Hnd|]. split.
  - intros x Hx Hk. apply list_elem_of_singleton in Hk. subst x. contradiction.
  - apply NoDup_singleton.
Qed.

Lemma dict_set_values (P : pyval -> Prop) (k : string) (v : pyval)
    (d : list (string * pyval)) :
  P v -> Forall (fun kv => P (snd kv)) d ->
  Forall (fun kv => P (snd kv)) (dict_set k v d).
Proof.
  intros Hv Hd. induction Hd as [|[k' v'] d Hx Hd IH]; cbn [dict_set].
  - constructor; [exact Hv | constructor].
  - destruct (String.eqb k k'); constructor; auto.
Qed.

Lemma dict_of_pairs_inv (P : pyval -> Prop) (pairs : list (string * pyval)) :
  Forall (fun kv => P (snd kv)) pairs ->
  NoDup (map fst (dict_of_pairs pairs)) /\
  Forall (fun kv => P (snd kv)) (dict_of_pairs pairs).
Proof.
  unfold dict_of_pairs. intros Hp.
  assert (Hgen : forall acc,
             NoDup (map fst acc) -> Forall (fun kv => P (snd kv)) acc ->
             NoDup (map fst (fold_left (fun d kv => dict_set (fst kv) (snd kv) d) pairs acc)) /\
             Forall (fun kv => P (snd kv))
               (fold_left (fun d kv => dict_set (fst kv) (snd kv) d) pairs acc)).
  { induction Hp as [|[k v] pairs Hv Hp IH]; intros acc Hnd Hacc; cbn [fold_left fst snd].
    - now split.
    - apply IH; [now apply dict_set_nodup | now apply dict_set_values]. }
  apply Hgen; constructor.
Qed.

Lemma forallb_Forall_native (l : list pyval) :
  Forall (fun v => json_native v = true) l -> forallb json_native l = true.
Proof. induction 1 as [|x l Hx Hl IH]; cbn; [reflexivity | now rewrite Hx, IH]. Qed.

Lemma forallb_Forall_native_snd (d : list (string * pyval)) :
  Forall (fun kv => json_native (snd kv) = true) d ->
  forallb (fun kv : string * pyval => json_native (snd kv)) d = true.
Proof. induction 1 as [|x l Hx Hl IH]; cbn; [reflexivity | now rewrite Hx, IH]. Qed.

Lemma scan_number_native (s : string) (v : pyval) (rest : string) :
  scan_number s = Some (v, rest) -> json_native v = true.
Proof.
  unfold scan_number.
  destruct (match s with
            | String c r => if Ascii.eqb c "-" then (true, r) else (false, s)
            | EmptyString => (false, s)
            end) as [neg s1].
  destruct s1 as [|c r]; [discriminate|].
  destruct (negb (is_digit c)); [discriminate|].
  destruct (if Ascii.eqb c "0" then (Decimal.D0 Decimal.Nil, r) else scan_uint (String c r))
    as [u rest'].
  destruct (starts_float_tail rest'); [discriminate|].
  intros Heq. inversion Heq; subst. reflexivity.
Qed.

(** Whatever the scanner returns is built from [None], booleans,
    integers, strings, lists and dictionaries with distinct keys. *)
Lemma scan_native (fuel : nat) :
  (forall s v rest, scan_once fuel s = Some (v, rest) -> json_native v = true) /\
  (forall s vs rest, scan_elements fuel s = Some (vs, rest) ->
                     Forall (fun v => json_native v = true) vs) /\
  (forall s kvs rest, scan_pairs fuel s = Some (kvs, rest) ->
                      Forall (fun kv => json_native (snd kv) = true) kvs).
Proof.
  induction fuel as [|fuel (IHo & IHe & IHp)].
  - repeat split; intros; discriminate.
  - split; [|split].
    + intros s v rest. cbn [scan_once].
      destruct s as [|c s1]; [discriminate|].
      destruct (Ascii.eqb c dquote).
      { destruct (scanstring s1) as [[str r]|]; [|discriminate].
        intros Heq; inversion Heq; subst. reflexivity. }
      destruct (Ascii.eqb c "{").
      { destruct (skip_ws s1) as [|c2 s2]; [discriminate|].
        destruct (Ascii.eqb c2 "}").
        - intros Heq; inversion Heq; subst. reflexivity.
        - destruct (scan_pairs fuel (String c2 s2)) as [[pairs r]|] eqn:Hp; [|discriminate].
          intros Heq; inversion Heq; subst.
          apply IHp in Hp.
          destruct (dict_of_pairs_inv (fun v => json_native v = true) pairs Hp) as [Hnd Hall].
          cbn [json_native]. rewrite (forallb_Forall_native_snd _ Hall).
          now rewrite (bool_decide_eq_true_2 _ Hnd). }
      destruct (Ascii.eqb c "[").
      { destruct (skip_ws s1) as [|c2 s2]; [discriminate|].
        destruct (Ascii.eqb c2 "]").
        - intros Heq; inversion Heq; subst. reflexivity.
        - destruct (scan_elements fuel (String c2 s2)) as [[vs r]|] eqn:He; [|discriminate].
          intros Heq; inversion Heq; subst.
          apply IHe in He. cbn [json_native]. now apply forallb_Forall_native. }
      destruct (String.prefix "null" (String c s1)).
      { intros Heq; inversion Heq; subst. reflexivity. }
      destruct (String.prefix "true" (String c s1)).
      { intros Heq; inversion Heq; subst. reflexivity. }
      destruct (String.prefix "false" (String c s1)).
      { intros Heq; inversion Heq; subst. reflexivity. }
      apply scan_number_native.
    + intros s vs rest. cbn [scan_elements].
      destruct (scan_once fuel s) as [[v s1]|] eqn:Ho; [|discriminate].
      apply IHo in Ho.
      destruct (skip_ws s1) as [|c s2]; [discriminate|].
      destruct (Ascii.eqb c "]").
      { intros Heq; inversion Heq; subst. now constructor. }
      destruct (Ascii.eqb c ","); [|discriminate].
      destruct (scan_elements fuel (skip_ws s2)) as [[vs' r]|] eqn:He; [|discriminate].
      intros Heq; inversion Heq; subst. constructor; [exact Ho|]. eapply IHe; eassumption.
    + intros s kvs rest. cbn [scan_pairs].
      destruct s as [|q s0]; [discriminate|].
      destruct (negb (Ascii.eqb q dquote)); [discriminate|].
      destruct (scanstring s0) as [[key s1]|]; [|discriminate].
      destruct (skip_ws s1) as [|c s2]; [discriminate|].
      destruct (negb (Ascii.eqb c ":")); [discriminate|].
      destruct (scan_once fuel (skip_ws s2)) as [[v s3]|] eqn:Ho; [|discriminate].
      apply IHo in Ho.
      destruct (skip_ws s3) as [|c3 s4]; [discriminate|].
      destruct (Ascii.eqb c3 "}").
      { intros Heq; inversion Heq; subst. now constructor. }
      destruct (Ascii.eqb c3 ","); [|discriminate].
      destruct (scan_pairs fuel (skip_ws s4)) as [[kvs' r]|] eqn:Hp; [|discriminate].
      intros Heq; inversion Heq; subst. constructor; [exact Ho|]. eapply IHp; eassumption.
Qed.

Lemma loads_native (s : string) (v : pyval) :
  loads s = Ok v -> json_native v = true.
Proof.
  unfold loads.
  destruct (scan_once (S (String.length s)) (skip_ws s)) as [[v' rest]|] eqn:Hs;
    [|discriminate].
  destruct (skip_ws rest); [|discriminate].
  intros Heq; inversion Heq; subst.
  eapply (proj1 (scan_native _)); eassumption.
Qed.

(** *** Tuples *)

Lemma emit_more_ext {A B : Type} (enc : A -> emitted) (enc' : B -> emitted)
    (f : B -> A) (sep : string) (l : list B) :
  Forall (fun x => enc (f x) = enc' x) l ->
  emit_more enc sep (map f l) = emit_more enc' sep l.
Proof.
  induction 1 as [|x l Hx Hl IH]; cbn [map emit_more]; [reflexivity|].
  now rewrite Hx, IH.
Qed.

Lemma emit_items_ext {A B : Type} (enc : A -> emitted) (enc' : B -> emitted)
    (f : B -> A) (sep : string) (l : list B) :
  Forall (fun x => enc (f x) = enc' x) l ->
  emit_items enc sep (map f l) = emit_items enc' sep l.
Proof.
  intros Hl. destruct Hl as [|x l Hx Hl]; cbn [map emit_items]; [reflexivity|].
  now rewrite Hx, (emit_more_ext enc enc' f sep l Hl).
Qed.

(** The encoder writes a tuple as it writes the list of its items. *)
Lemma iterencode_as_loaded (v : pyval) :
  forall lvl, iterencode lvl (as_loaded v) = iterencode lvl v.
Proof.
  induction v as [|b|z|s|l IH|l IH|d IH|c] using pyval_nested_ind; intros lvl;
    try reflexivity.
  - cbn [as_loaded iterencode].
    destruct l as [|x l]; [reflexivity|].
    rewrite (emit_items_ext (iterencode (S lvl)) (iterencode (S lvl)) as_loaded _ (x :: l)).
    + reflexivity.
    + eapply Forall_impl; [exact IH|]. intros y Hy. apply Hy.
  - cbn [as_loaded iterencode].
    destruct l as [|x l]; [reflexivity|].
    rewrite (emit_items_ext (iterencode (S lvl)) (iterencode (S lvl)) as_loaded _ (x :: l)).
    + reflexivity.
    + eapply Forall_impl; [exact IH|]. intros y Hy. apply Hy.
  - cbn [as_loaded iterencode].
    destruct d as [|x d]; [reflexivity|].
    rewrite (emit_items_ext
               (fun kv : string * pyval =>
                  and_then (say (encode_basestring_ascii (fst kv) +:+ ": "))
                    (iterencode (S lvl) (snd kv)))
               (fun kv : string * pyval =>
                  and_then (say (encode_basestring_ascii (fst kv) +:+ ": "))
                    (iterencode (S lvl) (snd kv)))
               (fun kv : string * pyval => (fst kv, as_loaded (snd kv))) _ (x :: d)).
    + reflexivity.
    + eapply Forall_impl; [exact IH|]. intros [k y] Hy. cbn [fst snd]. now rewrite Hy.
Qed.

Lemma as_loaded_native (v : pyval) :
  serializable v = true -> json_native (as_loaded v) = true.
Proof.
  induction v as [|b|z|s|l IH|l IH|d IH|c] using pyval_nested_ind;
    cbn [serializable as_loaded json_native]; intros Hs; try reflexivity;
    try discriminate.
  - induction IH as [|x l Hx Hl IHl]; [reflexivity|].
    cbn [forallb map] in *. apply andb_true_iff in Hs as [Hsx Hsl].
    now rewrite Hx, IHl.
  - induction IH as [|x l Hx Hl IHl]; [reflexivity|].
    cbn [forallb map] in *. apply andb_true_iff in Hs as [Hsx Hsl].
    now rewrite Hx, IHl.
  - apply andb_true_iff in Hs as [Hvals Hkeys].
    apply andb_true_iff. split.
    + clear Hkeys. induction IH as [|x l Hx Hl IHl]; [reflexivity|].
      cbn [forallb map fst snd] in *. apply andb_true_iff in Hvals as [Hsx Hsl].
      now rewrite Hx, IHl.
    + rewrite map_map. cbn [fst]. exact Hkeys.
Qed.

(** [json.loads(json.dumps(v, indent=4))] is [v] with its tuples turned
    into lists. *)
Lemma loads_dumps_as_loaded (v : pyval) :
  serializable v = true ->
  exists s, iterencode 0 v = (s, None) /\ loads s = Ok (as_loaded v).
Proof.
  intros Hs.
  destruct (loads_dumps (as_loaded v) (as_loaded_native v Hs)) as (s & Hd & Hl).
  exists s. split; [|exact Hl].
  unfold dumps in Hd. rewrite iterencode_as_loaded in Hd.
  destruct (iterencode 0 v) as [s' [x|]]; congruence.
Qed.

(** *** The characters of the text *)

Lemma all_plain_append (a b : string) :
  all_plain (a +:+ b) = all_plain a && all_plain b.
Proof.
  induction a as [|c a IH]; [reflexivity|].
  cbn [String.append all_plain]. rewrite IH. apply andb_assoc.
Qed.

Lemma escape_char_plain (c : ascii) : all_plain (escape_char c) = true.
Proof. destruct c as [[] [] [] [] [] [] [] []]; reflexivity. Qed.

Lemma encode_basestring_plain (s : string) :
  all_plain (encode_basestring_ascii s) = true.
Proof.
  assert (Hbody : all_plain (escape_body s) = true).
  { induction s as [|c s IH]; [reflexivity|].
    cbn [escape_body]. now rewrite all_plain_append, escape_char_plain, IH. }
  unfold encode_basestring_ascii.
  change (all_plain (String dquote (escape_body s +:+ String dquote EmptyString)))
    with (is_plain dquote && all_plain (escape_body s +:+ String dquote EmptyString)).
  rewrite all_plain_append, Hbody. reflexivity.
Qed.

Lemma string_of_uint_plain (u : Decimal.uint) :
  all_plain (DecimalString.NilEmpty.string_of_uint u) = true.
Proof. induction u; cbn; auto. Qed.

Lemma int_repr_plain (z : Z) : all_plain (int_repr z) = true.
Proof.
  assert (Hu : forall u, all_plain (DecimalString.NilZero.string_of_uint u) = true).
  { intros u. unfold DecimalString.NilZero.string_of_uint.
    destruct u; try reflexivity; apply string_of_uint_plain. }
  unfold int_repr, DecimalString.NilZero.string_of_int.
  destruct (Z.to_int z) as [u|u]; [apply Hu|].
  change (is_plain "-" && all_plain (DecimalString.NilZero.string_of_uint u) = true).
  now rewrite Hu.
Qed.

Lemma replicate_spaces_plain (n : nat) : all_plain (Str.replicate n " ") = true.
Proof. induction n; cbn; auto. Qed.

Lemma newline_indent_plain (lvl : nat) : all_plain (newline_indent lvl) = true.
Proof. unfold newline_indent. cbn [all_plain]. now rewrite replicate_spaces_plain. Qed.

Lemma and_then_plain (a b : emitted) :
  all_plain (fst a) = true -> all_plain (fst b) = true ->
  all_plain (fst (and_then a b)) = true.
Proof.
  intros Ha Hb. unfold and_then. destruct (snd a); [exact Ha|].
  cbn [fst]. now rewrite all_plain_append, Ha, Hb.
Qed.

Lemma emit_more_plain {A : Type} (enc : A -> emitted) (sep : string) (l : list A) :
  all_plain sep = true ->
  Forall (fun x => all_plain (fst (enc x)) = true) l ->
  all_plain (fst (emit_more enc sep l)) = true.
Proof.
  intros Hsep. induction 1 as [|x l Hx Hl IH]; cbn [emit_more]; [reflexivity|].
  apply and_then_plain; [exact Hsep|]. now apply and_then_plain.
Qed.

Lemma emit_items_plain {A : Type} (enc : A -> emitted) (sep : string) (l : list A) :
  all_plain sep = true ->
  Forall (fun x => all_plain (fst (enc x)) = true) l ->
  all_plain (fst (emit_items enc sep l)) = true.
Proof.
  intros Hsep Hl. destruct Hl as [|x l Hx Hl]; cbn [emit_items]; [reflexivity|].
  apply and_then_plain; [exact Hx|]. now apply emit_more_plain.
Qed.

(** What the encoder writes, finished or not, is printable ASCII and
    line feeds. *)
Lemma iterencode_plain (v : pyval) :
  forall lvl, all_plain (fst (iterencode lvl v)) = true.
Proof.
  induction v as [|b|z|s|l IH|l IH|d IH|c] using pyval_nested_ind; intros lvl;
    cbn [iterencode].
  - reflexivity.
  - now destruct b.
  - apply int_repr_plain.
  - apply encode_basestring_plain.
  - destruct l as [|x l]; [reflexivity|].
    apply and_then_plain.
    + cbn [say fst String.append all_plain]. now rewrite newline_indent_plain.
    + apply and_then_plain.
      * apply emit_items_plain.
        -- unfold item_separator. cbn [String.append all_plain].
           now rewrite newline_indent_plain.
        -- eapply Forall_impl; [exact IH|]. intros y Hy. apply Hy.
      * cbn [say fst]. rewrite all_plain_append, newline_indent_plain. reflexivity.
  - destruct l as [|x l]; [reflexivity|].
    apply and_then_plain.
    + cbn [say fst String.append all_plain]. now rewrite newline_indent_plain.
    + apply and_then_plain.
      * apply emit_items_plain.
        -- unfold item_separator. cbn [String.append all_plain].
           now rewrite newline_indent_plain.
        -- eapply Forall_impl; [exact IH|]. intros y Hy. apply Hy.
      * cbn [say fst]. rewrite all_plain_append, newline_indent_plain. reflexivity.
  - destruct d as [|x d]; [reflexivity|].
    apply and_then_plain.
    + cbn [say fst String.append all_plain]. now rewrite newline_indent_plain.
    + apply and_then_plain.
      * apply emit_items_plain.
        -- unfold item_separator. cbn [String.append all_plain].
           now rewrite newline_indent_plain.
        -- eapply Forall_impl; [exact IH|]. intros [k y] Hy. cbn [fst snd].
           apply and_then_plain; [|apply Hy].
           cbn [say fst]. rewrite all_plain_append, encode_basestring_plain. reflexivity.
      * cbn [say fst]. rewrite all_plain_append, newline_indent_plain. reflexivity.
  - reflexivity.
Qed.

End CodecSpec.

(** ** Atomic JSON store: further properties *)

Module StoreSpec.
Import Py Fs Json JsonStore JsonValues FsFacts JsonFacts JsonStoreSpec CodecSpec.

(** [write_json] neither creates nor removes a directory. *)
Lemma write_json_dirs (e : env) (path : string) (data : pyval) (d : fs) :
  dirs (snd (write_json e path data d)) = dirs d.
Proof.
  unfold write_json, write_json_body.
  destruct (named_temporary_file _ _ d) as [[f|x] d1] eqn:Htmp.
  2:{ now rewrite (named_temporary_file_raise _ _ _ _ _ Htmp). }
  apply named_temporary_file_inv in Htmp as (_ & _ & _ & _ & _ & Hdirs & _).
  destruct (json_dump e data f d1) as [[[u|x] f2] d2] eqn:Hdump;
    apply json_dump_frame in Hdump as (_ & _ & _ & Hd2 & _).
  2:{ cbn [snd]. destruct (release_frame f2 d2) as (_ & Hr & _). congruence. }
  destruct (fchmod f2 420 d2) as [[u3|x] d3] eqn:Hch;
    apply fchmod_frame in Hch as (_ & Hd3 & _).
  2:{ cbn [snd]. destruct (release_frame f2 d3) as (_ & Hr & _). congruence. }
  destruct (rename (w_name f2) path d3) as [[u4|x] d4] eqn:Hren;
    apply rename_inv in Hren; cbn [snd].
  - destruct Hren as (fl & _ & _ & Hd4).
    destruct (release_frame (follow (w_name f2) path f2) d4) as (_ & Hr & _). congruence.
  - subst d4. destruct (release_frame f2 d3) as (_ & Hr & _). congruence.
Qed.












End StoreSpec.

(** ** Command runner: echo, errors, captured output *)

Module RunnerEdges.
Import Py Proc Runner RunnerWords.

Lemma replicate_snoc (n : nat) (c : ascii) (s : string) :
  Str.replicate (S n) c +:+ s = Str.replicate n c +:+ String c s.
Proof.
  induction n as [|n IH]; [reflexivity|].
  change (Str.replicate (S (S n)) c) with (String c (Str.replicate (S n) c)).
  cbn [String.append]. rewrite IH. reflexivity.
Qed.

(** Outside quotes, backslashes that are not followed by a double quote
    are copied. *)
Lemma quote_chars_plain (arg : string) :
  Str.contains_char dquote arg = false ->
  forall bs, quote_chars false bs arg = Str.replicate bs backslash +:+ arg.
Proof.
  induction arg as [|c arg IH]; intros Hq bs; cbn [quote_chars].
  - now rewrite StrFacts.append_nil_r.
  - cbn [Str.contains_char] in Hq. apply orb_false_iff in Hq as [Hc Hq].
    destruct (Ascii.eqb_spec c backslash) as [->|Hne].
    + rewrite (IH Hq). apply replicate_snoc.
    + rewrite Hc. rewrite (IH Hq 0%nat). reflexivity.
Qed.

Lemma quote_arg_plain (arg : string) : plain_word arg = true -> quote_arg arg = arg.
Proof.
  unfold plain_word, quote_arg, needquote. intros Hp.
  apply andb_true_iff in Hp as [Hp Hq]. apply andb_true_iff in Hp as [Hp Ht].
  apply andb_true_iff in Hp as [He Hs].
  apply negb_true_iff in He, Hs, Ht, Hq. rewrite He, Hs, Ht. cbn [orb].
  now rewrite (quote_chars_plain arg Hq 0%nat).
Qed.

Lemma list2cmdline_plain (args : list string) :
  forallb plain_word args = true -> list2cmdline args = join_spaces args.
Proof.
  unfold list2cmdline. intros Hall. f_equal.
  induction args as [|a args IH]; [reflexivity|].
  cbn [forallb] in Hall. apply andb_true_iff in Hall as [Ha Hall].
  cbn [map]. now rewrite (quote_arg_plain a Ha), IH.
Qed.

Section WithOS.
Context {W : Type} `{OS W}.

(** X12.  Arguments that are not empty and hold no space, tab or double
    quote are echoed as they are, separated by single spaces, after the
    ["+ "]: nothing else is quoted or escaped, backslashes and the
    characters a shell treats specially included. *)
Theorem run_verbose_echo_plain (args : list string) (kw : kwargs) (w : W)
    (log : list event) (Hplain : forallb plain_word args = true) :
  exists rest,
    snd (snd (run_verbose args kw (w, log)))
    = (log ++ EvPrint ("+ " +:+ join_spaces args) :: rest)%list.
Proof.
  unfold run_verbose, bind, print, try_except.
  rewrite (list2cmdline_plain args Hplain).
  set (out_err := match kw_capture_output kw with
                  | Some true => (Pipe, Pipe)
                  | _ => _
                  end).
  destruct out_err as [out err].
  unfold run. destruct args as [|prog rest0].
  - exists []. reflexivity.
  - destruct (os_spawn (prog :: rest0) w) as [[rc o e|x] w'].
    + exists [EvSpawn (prog :: rest0) out err].
      destruct (_ && negb (rc =? 0)); cbn [fst snd first_arg fatal raise];
        now rewrite <- app_assoc.
    + exists [EvSpawn (prog :: rest0) out err].
      destruct x; cbn [fst snd first_arg fatal raise]; now rewrite <- app_assoc.
Qed.


(** X14.  With [capture_output=True] both streams of the child are piped,
    whatever [stdout] and [stderr] the caller passed besides, and a call
    that returns carries what the child wrote to them; without
    [capture_output], [stdout] and [stderr] the streams are inherited and
    the result carries no output. *)
Theorem run_verbose_capture (prog : string) (rest : list string) (kw : kwargs)
    (w w' : W) (log : list event) (rc : Z) (o e : string)
    (Hspawn : os_spawn (prog :: rest) w = (Exited rc o e, w'))
    (Hreturns : kw_check kw = Some false \/ rc = 0) :
  (kw_capture_output kw = Some true ->
     run_verbose (prog :: rest) kw (w, log)
     = (Ok {| cp_args := prog :: rest; cp_returncode := rc;
              cp_stdout := Some o; cp_stderr := Some e |},
        (w', (log ++ [EvPrint ("+ " +:+ list2cmdline (prog :: rest));
                      EvSpawn (prog :: rest) Pipe Pipe])%list))) /\
  (kw_capture_output kw <> Some true -> kw_stdout kw = None -> kw_stderr kw = None ->
     run_verbose (prog :: rest) kw (w, log)
     = (Ok {| cp_args := prog :: rest; cp_returncode := rc;
              cp_stdout := None; cp_stderr := None |},
        (w', (log ++ [EvPrint ("+ " +:+ list2cmdline (prog :: rest));
                      EvSpawn (prog :: rest) Inherit Inherit])%list))).
Proof.
  assert (Hchk : (match kw_check kw with Some c => c | None => true end)
                 && negb (rc =? 0) = false).
  { destruct Hreturns as [-> | ->]; [reflexivity|]. cbn. apply andb_false_r. }
  split.
  - intros Hcap. unfold run_verbose, bind, print, try_except, run.
    rewrite Hcap, Hspawn, Hchk. cbn [captured]. now rewrite <- app_assoc.
  - intros Hcap Hout Herr. unfold run_verbose, bind, print, try_except, run.
    rewrite Hout, Herr.
    destruct (kw_capture_output kw) as [[|]|]; [congruence| |];
      rewrite Hspawn, Hchk; cbn [captured]; now rewrite <- app_assoc.
Qed.

End WithOS.

#[local] Existing Instance Importer.toy_os.
#[local] Existing Instance BareWorld.bare_os.

Lemma run_verbose_echo_plain_witness :
  exists rest,
    snd (snd (run_verbose ["tar"; "-C"; "C:\tmp"; "-xf"; "a;b.tar"] no_kwargs
                (Importer.failing_tar, [])))
    = ([] ++ EvPrint "+ tar -C C:\tmp -xf a;b.tar" :: rest)%list.
Proof.
  exact (run_verbose_echo_plain ["tar"; "-C"; "C:\tmp"; "-xf"; "a;b.tar"] no_kwargs
           Importer.failing_tar [] eq_refl).
Defined.

Lemma run_verbose_capture_witness :
  run_verbose ["tar"; "-xf"; "a.tar"]
    {| kw_check := Some false; kw_capture_output := Some true;
       kw_stdout := Some DevNull; kw_stderr := None |} (Importer.failing_tar, [])
  = (Ok {| cp_args := ["tar"; "-xf"; "a.tar"]; cp_returncode := 2;
           cp_stdout := Some EmptyString; cp_stderr := Some EmptyString |},
     (Importer.failing_tar,
      ([] ++ [EvPrint ("+ " +:+ list2cmdline ["tar"; "-xf"; "a.tar"]);
              EvSpawn ["tar"; "-xf"; "a.tar"] Pipe Pipe])%list)).
Proof.
  refine (proj1 (run_verbose_capture "tar" ["-xf"; "a.tar"]
                   {| kw_check := Some false; kw_capture_output := Some true;
                      kw_stdout := Some DevNull; kw_stderr := None |}
                   Importer.failing_tar Importer.failing_tar [] 2 EmptyString EmptyString
                   eq_refl _) eq_refl).
  now left.
Defined.


End RunnerEdges.

(** ** OSTree commit importer: the commands spawned and the cleanup *)

Module ImporterTrace.
Import Py Proc Importer ImporterSpec.

Section WithOS.
Context {W : Type} `{OS W}.

(** What a [check_call] adds to the log and does to the world. *)
Lemma check_call_log (prog : string) (rest : list string) (w : W) (log : list event) :
  snd (check_call (prog :: rest) (w, log))
  = (snd (os_spawn (prog :: rest) w), (log ++ [EvSpawn (prog :: rest) Inherit Inherit])%list).
Proof.
  unfold check_call, call, bind, run, ret, raise.
  destruct (os_spawn (prog :: rest) w) as [[rc o e|x] w']; cbn [fst snd]; [|reflexivity].
  cbn. now destruct (rc =? 0).
Qed.

(** The block under [with tempfile.TemporaryDirectory(dir=repo) as d]. *)
Lemma extract_and_pull_log (repo commit tarfile d : string) (w w' : W)
    (log log' : list event) (r : result unit) :
  bind (check_call (tar_cmd d tarfile))
    (fun _ => bind (check_call (pull_cmd repo d commit)) (fun _ => ret tt))
    (w, log) = (r, (w', log')) ->
  log' = (log ++ [ev_tar d tarfile])%list \/
  log' = (log ++ [ev_tar d tarfile; ev_pull repo d commit])%list.
Proof.
  unfold bind at 1.
  pose proof (check_call_log "tar" ["-C"; d; "-xf"; tarfile] w log) as Htar.
  change ("tar" :: ["-C"; d; "-xf"; tarfile]) with (tar_cmd d tarfile) in Htar.
  destruct (check_call (tar_cmd d tarfile) (w, log)) as [[z|x] [w1 log1]];
    cbn [snd] in Htar; inversion Htar; subst.
  2:{ intros Heq; inversion Heq; subst. now left. }
  unfold bind at 1.
  pose proof (check_call_log "ostree" ["pull-local"; "--repo"; repo; d; commit]
                (snd (os_spawn (tar_cmd d tarfile) w))
                (log ++ [EvSpawn (tar_cmd d tarfile) Inherit Inherit])%list) as Hpull.
  change ("ostree" :: ["pull-local"; "--repo"; repo; d; commit])
    with (pull_cmd repo d commit) in Hpull.
  destruct (check_call (pull_cmd repo d commit) _) as [[z'|x] [w2 log2]];
    cbn [snd] in Hpull; inversion Hpull; subst; unfold ret;
    intros Heq; inversion Heq; subst; right; now rewrite <- app_assoc.
Qed.

(** X15.  Whatever the tools do, a call spawns at most four commands, each
    once and in this order: [ostree init], the silent [ostree show], [tar]
    and [ostree pull-local]; the last two work in the directory that
    [tempfile] created inside [repo]. *)
Theorem import_spawns_in_order (repo commit tarfile : string) (force : bool)
    (w : W) (log : list event) :
  let d := fst (os_mkdtemp repo
                  (snd (os_spawn (show_cmd repo commit)
                          (snd (os_spawn (init_cmd repo) w))))) in
  exists l,
    snd (snd (import_ostree_commit repo commit tarfile force (w, log))) = (log ++ l)%list /\
    (l = [ev_init repo] \/
     l = [ev_init repo; ev_show repo commit] \/
     l = [ev_init repo; ev_show repo commit; ev_tar d tarfile] \/
     l = [ev_init repo; ev_show repo commit; ev_tar d tarfile; ev_pull repo d commit]).
Proof.
  intros d. subst d.
  destruct (os_spawn (init_cmd repo) w) as [[rc o e|x] w1] eqn:Hinit; cbn [snd].
  2:{ rewrite (import_init_not_started _ _ _ _ _ _ _ _ Hinit). eauto. }
  destruct (Z.eq_dec rc 0) as [->|Hrc].
  2:{ rewrite (import_init_failed _ _ _ _ _ _ _ _ _ _ Hinit Hrc). eauto. }
  destruct (os_spawn (show_cmd repo commit) w1) as [[rc1 o1 e1|x] w2] eqn:Hshow; cbn [snd].
  2:{ exists [ev_init repo; ev_show repo commit]. split; [|auto].
      unfold import_ostree_commit, bind at 1.
      unfold init_cmd in Hinit |- *.
      rewrite (check_call_exited _ _ _ _ _ _ _ _ Hinit). cbn [Z.eqb].
      unfold bind at 1, call, bind, run. unfold show_cmd in Hshow |- *.
      rewrite Hshow. cbn [snd]. now rewrite <- app_assoc. }
  rewrite (import_after_show _ _ _ _ _ _ _ _ _ _ _ _ _ Hinit Hshow). cbv zeta.
  destruct ((rc1 =? 0) && negb (os_isfile (commitpartial repo commit) w2) && negb force).
  - eauto.
  - destruct (os_mkdtemp repo w2) as [d w3]. cbn [fst].
    destruct (bind (check_call (tar_cmd d tarfile)) _ _) as [r [w' log']] eqn:Hblock.
    apply extract_and_pull_log in Hblock. cbn [snd].
    destruct Hblock as [-> | ->]; rewrite <- app_assoc; cbn [app]; eauto 6.
Qed.

(** X16.  Once the call has got past the early return, the temporary
    directory it created inside [repo] is removed at the end, whatever
    happens in between: the extraction or the pull fails, cannot be
    started, or both succeed. *)
Theorem import_removes_temp_dir (repo commit tarfile : string) (force : bool)
    (w w1 w2 w3 : W) (log : list event) (o e o1 e1 d : string) (rc : Z)
    (Hinit : os_spawn (init_cmd repo) w = (Exited 0 o e, w1))
    (Hshow : os_spawn (show_cmd repo commit) w1 = (Exited rc o1 e1, w2))
    (Hgo : rc <> 0 \/ os_isfile (commitpartial repo commit) w2 = true \/ force = true)
    (Hmk : os_mkdtemp repo w2 = (d, w3)) :
  exists w',
    fst (snd (import_ostree_commit repo commit tarfile force (w, log))) = os_rmtree d w' /\
    (w' = snd (os_spawn (tar_cmd d tarfile) w3) \/
     w' = snd (os_spawn (pull_cmd repo d commit) (snd (os_spawn (tar_cmd d tarfile) w3)))).
Proof.
  assert (Hearly : (rc =? 0) && negb (os_isfile (commitpartial repo commit) w2)
                   && negb force = false).
  { destruct Hgo as [Hrc|[Hm| ->]].
    - destruct (Z.eqb_spec rc 0); [contradiction | reflexivity].
    - rewrite Hm. now rewrite andb_false_r.
    - now rewrite andb_false_r. }
  rewrite (import_after_show _ _ _ _ _ _ _ _ _ _ _ _ _ Hinit Hshow). cbv zeta.
  rewrite Hearly, Hmk.
  unfold bind at 1.
  pose proof (check_call_log "tar" ["-C"; d; "-xf"; tarfile] w3
                (log ++ [ev_init repo; ev_show repo commit])%list) as Htar.
  change ("tar" :: ["-C"; d; "-xf"; tarfile]) with (tar_cmd d tarfile) in Htar.
  destruct (check_call (tar_cmd d tarfile) _) as [[z|x] [w4 log4]];
    cbn [snd] in Htar; inversion Htar; subst.
  2:{ eexists. split; [reflexivity | now left]. }
  unfold bind at 1.
  pose proof (check_call_log "ostree" ["pull-local"; "--repo"; repo; d; commit]
                (snd (os_spawn (tar_cmd d tarfile) w3))
                ((log ++ [ev_init repo; ev_show repo commit])
                 ++ [EvSpawn (tar_cmd d tarfile) Inherit Inherit])%list) as Hpull.
  change ("ostree" :: ["pull-local"; "--repo"; repo; d; commit])
    with (pull_cmd repo d commit) in Hpull.
  destruct (check_call (pull_cmd repo d commit) _) as [[z'|x] [w5 log5]];
    cbn [snd] in Hpull; inversion Hpull; subst;
    (eexists; split; [reflexivity | now right]).
Qed.

End WithOS.

(** With [force=True] on a commit that is already complete: the
    directory is created, used, and removed. *)
Lemma import_removes_temp_dir_witness :
  exists w',
    fst (snd (import_ostree_commit "repo" "abc" "abc.tar" true (stored_commit, [])))
    = os_rmtree "repo/tmpx" w' /\
    (w' = snd (os_spawn (tar_cmd "repo/tmpx" "abc.tar") stored_commit) \/
     w' = snd (os_spawn (pull_cmd "repo" "repo/tmpx" "abc")
                 (snd (os_spawn (tar_cmd "repo/tmpx" "abc.tar") stored_commit)))).
Proof.
  refine (import_removes_temp_dir "repo" "abc" "abc.tar" true
            stored_commit stored_commit stored_commit stored_commit []
            EmptyString EmptyString EmptyString EmptyString "repo/tmpx" 0
            eq_refl eq_refl _ eq_refl).
  right. now right.
Defined.

End ImporterTrace.

(** ** Atomic JSON store: calls in sequence *)

Module StoreSequences.
Import Py Fs Json JsonStore JsonValues FsFacts JsonFacts JsonStoreSpec CodecSpec StoreSpec.

(** A successful call takes from the disk at most the bytes of the
    text. *)
Lemma write_json_free (e : env) (path : string) (data : pyval) (d : fs) (s : string) :
  iterencode 0 data = (s, None) ->
  PosixPath.dirname path = EmptyString \/ PosixPath.dirname path ∈ dirs d ->
  path ∉ dirs d ->
  (exists n, In n (tmp_candidates e)
             /\ path_exists (PosixPath.join (PosixPath.dirname path) n) d = false) ->
  (String.length s <= free d)%nat ->
  (free d <= free (snd (write_json e path data d)) + String.length s)%nat.
Proof.
  intros Henc Hdir Hnodir Hcand Hroom.
  unfold write_json, write_json_body.
  destruct (named_temporary_file_created _ _ _ Hdir Hcand) as (f & d1 & Htmp).
  rewrite Htmp.
  apply named_temporary_file_inv in Htmp
    as (Hlink & Hpend & Hnone & _ & Hfiles & Hdirs & Hfree1).
  assert (Hl1 : files d1 !! w_link f = Some {| f_data := EmptyString; f_mode := 384 |}).
  { rewrite Hlink, Hfiles. apply lookup_insert_eq. }
  unfold json_dump. rewrite Henc.
  destruct (write_fits (buffer_size e) f s d1 _ Hl1)
    as (k & d2 & Hk & Hw & Hl2 & _ & Hd2 & Hfree2).
  { rewrite Hpend. cbn [String.append]. lia. }
  rewrite Hpend in Hk, Hw, Hl2. cbn [String.append f_data f_mode] in Hk, Hw, Hl2.
  rewrite Hw.
  unfold fchmod. cbn [w_link with_pending]. rewrite Hl2. cbn [f_data].
  unfold rename. cbn [w_name with_pending files with_files dirs free].
  rewrite Hlink, lookup_insert_eq.
  rewrite (bool_decide_eq_false_2 (path ∈ dirs d2)) by congruence.
  set (f3 := follow _ _ _).
  assert (Hl3 : w_link f3 = path).
  { subst f3. unfold follow. cbn [w_link with_pending].
    rewrite Hlink, String.eqb_refl. reflexivity. }
  assert (Hp3 : w_pending f3 = Str.drop k s).
  { subst f3. unfold follow. cbn [w_link with_pending].
    rewrite Hlink, String.eqb_refl. reflexivity. }
  cbn [snd].
  match goal with
  | |- context [release f3 ?x] => set (d4 := x)
  end.
  assert (Hfree4 : (free d - k <= free d4)%nat).
  { subst d4. cbn [free]. lia. }
  assert (Hl4 : files d4 !! path = Some {| f_data := Str.take k s; f_mode := 420 |}).
  { subst d4. cbn [files]. apply lookup_insert_eq. }
  unfold release. rewrite Hp3.
  destruct (Str.drop k s) as [|c r] eqn:Hdrop.
  - assert (Hlen : String.length (Str.drop k s) = 0%nat) by now rewrite Hdrop.
    rewrite StrFacts.length_drop in Hlen. lia.
  - rewrite Hl3. unfold raw_write. rewrite Hl4.
    assert (Hlen : String.length (String c r) = (String.length s - k)%nat).
    { rewrite <- Hdrop. apply StrFacts.length_drop. }
    destruct (String.length (String c r) <=? free d4)%nat eqn:Hfit.
    + cbn [free]. lia.
    + lia.
Qed.


Lemma path_exists_same (p : string) (d d' : fs) :
  files d' !! p = files d !! p -> dirs d' = dirs d ->
  path_exists p d' = path_exists p d.
Proof. intros Hf Hd. unfold path_exists. now rewrite Hf, Hd. Qed.





End StoreSequences.

(** ** Informational messages *)

Module ReporterSpec.
Import Reporter.

Lemma count_lines_append (a b : string) :
  count_lines (a +:+ b) = (count_lines a + count_lines b)%nat.
Proof.
  induction a as [|c a IH]; [reflexivity|].
  cbn [String.append count_lines]. rewrite IH. lia.
Qed.

(** X19.  [info] writes its messages to standard error only, each after
    the prefix ["info: "], and ends no line: after a sequence of calls the
    stream has gained the prefixed messages one after the other, and as
    many line feeds as the messages themselves contain. *)
Theorem info_ends_no_line (msgs : list string) (s : streams) :
  stdout (infos msgs s) = stdout s /\
  stderr (infos msgs s)
  = stderr s +:+ fold_right (fun msg rest => "info: " +:+ msg +:+ rest) EmptyString msgs /\
  count_lines (stderr (infos msgs s))
  = (count_lines (stderr s) + list_sum (map count_lines msgs))%nat.
Proof.
  unfold infos. revert s.
  induction msgs as [|m msgs IH]; intros s; cbn [fold_left fold_right map].
  - rewrite StrFacts.append_nil_r. repeat split. cbn. lia.
  - destruct (IH (info m s)) as (Hout & Herr & Hcount).
    split; [exact Hout|]. split.
    + rewrite Herr. cbn [info stderr]. now rewrite !StrFacts.append_assoc.
    + rewrite Hcount. cbn [info stderr]. rewrite !count_lines_append.
      change (list_sum (count_lines m :: map count_lines msgs))
        with (count_lines m + list_sum (map count_lines msgs))%nat.
      change (count_lines "info: ") with 0%nat. lia.
Qed.

Example info_twice :
  stderr (infos ["pulling"; "done"] {| stdout := EmptyString; stderr := EmptyString |})
  = "info: pullinginfo: done".
Proof. reflexivity. Qed.

End ReporterSpec.

(** ** Atomic JSON store: the end of the text *)

Module TextEnd.
Import Py Json JsonStore JsonValues JsonFacts.

Lemma endswith_append (a b : string) (c : ascii) :
  b <> EmptyString -> Str.endswith_char (a +:+ b) c = Str.endswith_char b c.
Proof.
  intros Hb. induction a as [|x a IH]; [reflexivity|].
  cbn [String.append]. destruct (a +:+ b) as [|y r] eqn:Hab.
  - destruct a; [cbn in Hab; congruence | discriminate].
  - cbn [Str.endswith_char]. exact IH.
Qed.

Lemma and_then_finished (a b : emitted) :
  snd (and_then a b) = None ->
  fst (and_then a b) = fst a +:+ fst b /\ snd b = None.
Proof.
  unfold and_then. destruct (snd a) eqn:Ha; cbn [fst snd]; [congruence|].
  intros Hb. now split.
Qed.

Lemma string_of_uint_end (u : Decimal.uint) :
  u <> Decimal.Nil ->
  DecimalString.NilEmpty.string_of_uint u <> EmptyString /\
  Str.endswith_char (DecimalString.NilEmpty.string_of_uint u) newline = false.
Proof.
  induction u as [|u IH|u IH|u IH|u IH|u IH|u IH|u IH|u IH|u IH|u IH]; intros Hu;
    [congruence|..];
    (split; [discriminate|]);
    cbn [DecimalString.NilEmpty.string_of_uint];
    (destruct u; [reflexivity|..]);
    match goal with
    | |- Str.endswith_char (String _ ?s) _ = false =>
        destruct (IH ltac:(discriminate)) as [Hne Hend];
        destruct s eqn:Hs; [congruence|]; cbn [Str.endswith_char]; exact Hend
    end.
Qed.

Lemma int_repr_end (z : Z) :
  int_repr z <> EmptyString /\ Str.endswith_char (int_repr z) newline = false.
Proof.
  assert (Hu : forall u,
             DecimalString.NilZero.string_of_uint u <> EmptyString /\
             Str.endswith_char (DecimalString.NilZero.string_of_uint u) newline = false).
  { intros u. unfold DecimalString.NilZero.string_of_uint.
    destruct u; try (split; [discriminate | reflexivity]);
      apply string_of_uint_end; discriminate. }
  unfold int_repr, DecimalString.NilZero.string_of_int.
  destruct (Z.to_int z) as [u|u]; [apply Hu|].
  destruct (Hu u) as [Hne Hend]. split; [discriminate|].
  destruct (DecimalString.NilZero.string_of_uint u) eqn:Hs; [congruence|].
  cbn [Str.endswith_char]. exact Hend.
Qed.

(** X20.  The text that [json.dump] writes for a value is never empty and
    never ends with a line feed: the file that [write_json] leaves has no
    final newline. *)
Theorem json_text_has_no_final_newline (data : pyval) (s : string)
    (Hdumps : dumps data = Ok s) :
  s <> EmptyString /\ Str.endswith_char s newline = false.
Proof.
  unfold dumps in Hdumps.
  destruct (iterencode 0 data) as [s' [x|]] eqn:Henc; [discriminate|].
  inversion Hdumps; subst s'. clear Hdumps.
  assert (Hclosed : forall (open_ : string) (items : emitted) (close : ascii),
             snd (and_then (say open_)
                    (and_then items (say (newline_indent 0 +:+ String close EmptyString))))
             = None ->
             close <> newline ->
             let t := fst (and_then (say open_)
                             (and_then items
                                (say (newline_indent 0 +:+ String close EmptyString)))) in
             open_ <> EmptyString ->
             t <> EmptyString /\ Str.endswith_char t newline = false).
  { intros open_ items close Hfin Hclose t Hopen. subst t.
    apply and_then_finished in Hfin as [Ht Hfin]. rewrite Ht.
    apply and_then_finished in Hfin as [Ht2 _]. rewrite Ht2. cbn [say fst].
    split.
    - destruct open_; [congruence | discriminate].
    - rewrite <- !StrFacts.append_assoc.
      rewrite endswith_append by discriminate.
      cbn. destruct (Ascii.eqb_spec close newline); [contradiction | reflexivity]. }
  destruct data as [|b|z|str|l|l|d|c]; cbn [iterencode] in Henc.
  - inversion Henc. now split.
  - inversion Henc. destruct b; now split.
  - inversion Henc. apply int_repr_end.
  - inversion Henc. unfold encode_basestring_ascii. split; [discriminate|].
    change (String dquote (escape_body str +:+ String dquote EmptyString))
      with ((String dquote (escape_body str)) +:+ String dquote EmptyString).
    now rewrite endswith_append by discriminate.
  - destruct l as [|x l]; [inversion Henc; now split|].
    pose proof (Hclosed ("[" +:+ newline_indent 1)
                  (emit_items (iterencode 1) (item_separator 1) (x :: l)) "]"%char) as Hc.
    change (newline_indent 0 +:+ "]") with (newline_indent 0 +:+ String "]" EmptyString)
      in Henc.
    rewrite Henc in Hc. cbn [fst snd] in Hc. apply Hc; [reflexivity | discriminate | discriminate].
  - destruct l as [|x l]; [inversion Henc; now split|].
    pose proof (Hclosed ("[" +:+ newline_indent 1)
                  (emit_items (iterencode 1) (item_separator 1) (x :: l)) "]"%char) as Hc.
    change (newline_indent 0 +:+ "]") with (newline_indent 0 +:+ String "]" EmptyString)
      in Henc.
    rewrite Henc in Hc. cbn [fst snd] in Hc. apply Hc; [reflexivity | discriminate | discriminate].
  - destruct d as [|x d]; [inversion Henc; now split|].
    pose proof (Hclosed ("{" +:+ newline_indent 1)
                  (emit_items
                     (fun kv : string * pyval =>
                        and_then (say (encode_basestring_ascii (fst kv) +:+ ": "))
                          (iterencode 1 (snd kv)))
                     (item_separator 1) (x :: d)) "}"%char) as Hc.
    change (newline_indent 0 +:+ "}") with (newline_indent 0 +:+ String "}" EmptyString)
      in Henc.
    rewrite Henc in Hc. cbn [fst snd] in Hc. apply Hc; [reflexivity | discriminate | discriminate].
  - inversion Henc.
Qed.

Lemma json_text_has_no_final_newline_witness :
  Str.dq "{
    'ref': 'abc',
    'build': 42
}" <> EmptyString /\
  Str.endswith_char (Str.dq "{
    'ref': 'abc',
    'build': 42
}") newline = false.
Proof.
  apply (json_text_has_no_final_newline new_meta). vm_compute. reflexivity.
Defined.

End TextEnd.
